(** * mcp-playwright-ai: the test generator and the page-state query tools

    A shallow embedding of [PlaywrightGenerator] (tools/codegen/generator.ts)
    and of the guard-clause wrappers [VisibleTextTool] / [VisibleHtmlTool],
    with the properties the specification states about them.

    Conventions of the model.
    - A JavaScript string is a [string]: a sequence of 8-bit character codes.
      Characters above U+00FF are outside the model, and with them the case
      mappings that change the number of code units.
    - A value of type [unknown] is a [jsval]: a primitive value. Numbers are
      the integers that a double holds exactly, of magnitude up to 2^53,
      which [ToString] prints digit by digit.
    - An action is a record of the type [CodegenAction], with its
      [parameters] object: an entry of [actions] without one is outside the
      model.
    - A [throw] is the [Err] branch of [result]; an [async] method that throws
      is a rejected promise, modelled the same way.
    - [console.warn] diagnostics are not part of the model.
    - [path.resolve] is the POSIX variant, with the working directory [cwd]
      passed explicitly. *)

From Stdlib Require Import ZArith Ascii String List Bool Lia.
From stdpp Require Import base option gmap strings.
Import ListNotations.

Local Open Scope string_scope.
Local Open Scope Z_scope.

(** ** Characters and strings *)

Module Chars.

Definition LF : ascii := ascii_of_nat 10.
Definition CR : ascii := ascii_of_nat 13.
Definition TAB : ascii := ascii_of_nat 9.
Definition VT : ascii := ascii_of_nat 11.
Definition FF : ascii := ascii_of_nat 12.
Definition NBSP : ascii := ascii_of_nat 160.
Definition SQUOTE : ascii := ascii_of_nat 39.
Definition DQUOTE : ascii := ascii_of_nat 34.
Definition BQUOTE : ascii := ascii_of_nat 96.
Definition BSLASH : ascii := ascii_of_nat 92.
Definition SLASH : ascii := ascii_of_nat 47.
Definition STAR : ascii := ascii_of_nat 42.

Definition code (c : ascii) : nat := nat_of_ascii c.

Definition between (lo hi : nat) (c : ascii) : bool :=
  (lo <=? code c)%nat && (code c <=? hi)%nat.

Definition is_lower : ascii -> bool := between 97 122.
Definition is_upper : ascii -> bool := between 65 90.

(** The accented capitals of the 8-bit range: U+00C0 to U+00DE without the
    multiplication sign U+00D7. *)
Definition is_accented_upper (c : ascii) : bool :=
  between 192 214 c || between 216 222 c.
Definition is_digit : ascii -> bool := between 48 57.

Definition eqc (a c : ascii) : bool := Ascii.eqb a c.

(** The class [[a-zA-Z0-9_-]]. *)
Definition is_name_char (c : ascii) : bool :=
  is_lower c || is_upper c || is_digit c || eqc "_" c || eqc "-" c.

(** The class [[a-z0-9_]]. *)
Definition is_file_char (c : ascii) : bool :=
  is_lower c || is_digit c || eqc "_" c.

(** The class [\s], on 8-bit character codes. *)
Definition is_space (c : ascii) : bool :=
  eqc " " c || eqc TAB c || eqc LF c || eqc VT c || eqc FF c || eqc CR c || eqc NBSP c.

(** A line terminator of the generated language. *)
Definition is_line_end (c : ascii) : bool := eqc LF c || eqc CR c.

(** The lower-case mapping of one 8-bit character: a capital, accented or
    not, has its lower-case letter 32 places further; every other character
    of the range is kept. *)
Definition lower (c : ascii) : ascii :=
  if is_upper c || is_accented_upper c then ascii_of_nat (code c + 32) else c.

End Chars.

Module Str.

Definition nl : string := String Chars.LF EmptyString.

Fixpoint map (f : ascii -> ascii) (s : string) : string :=
  match s with
  | EmptyString => EmptyString
  | String c t => String (f c) (map f t)
  end.

Fixpoint forallb (p : ascii -> bool) (s : string) : bool :=
  match s with
  | EmptyString => true
  | String c t => p c && forallb p t
  end.

(** [Array.prototype.join]. *)
Fixpoint join (sep : string) (l : list string) : string :=
  match l with
  | [] => EmptyString
  | [x] => x
  | x :: t => x ++ sep ++ join sep t
  end.

(** [String.prototype.toLowerCase], on 8-bit character codes. *)
Definition toLowerCase (s : string) : string := map Chars.lower s.

(** [s.replace(/[^a-z0-9_]/g, '_')]. *)
Definition replace_non_file_chars (s : string) : string :=
  map (fun c => if Chars.is_file_char c then c else "_"%char) s.

(** [s.replace(/\\/g, '/')]. *)
Definition replace_backslashes (s : string) : string :=
  map (fun c => if Chars.eqc Chars.BSLASH c then Chars.SLASH else c) s.

(** [s.replace(/^\s+/g, '')]: the pattern is anchored at the start, so the
    global flag finds at most the leading run of white space. *)
Fixpoint trim_leading_space (s : string) : string :=
  match s with
  | EmptyString => EmptyString
  | String c t => if Chars.is_space c then trim_leading_space t else s
  end.

(** [s.split('/')]. *)
Fixpoint split_slash_aux (cur : string) (s : string) : list string :=
  match s with
  | EmptyString => [cur]
  | String c t =>
      if Chars.eqc Chars.SLASH c then cur :: split_slash_aux EmptyString t
      else split_slash_aux (cur ++ String c EmptyString) t
  end.

Definition split_slash (s : string) : list string := split_slash_aux EmptyString s.

(** [sub] occurs in [s]: what [toContain] and "the text contains" mean. *)
Definition Contains (sub s : string) : Prop :=
  exists pre post, s = pre ++ sub ++ post.

End Str.

(** ** JavaScript values *)

Inductive jsval : Type :=
  | JUndefined
  | JNull
  | JBool (b : bool)
  | JNum (n : Z)
  | JStr (s : string).

Module Js.

(** Decimal digits of a natural number, most significant first. *)
Fixpoint digits_aux (fuel : nat) (n : Z) (acc : string) : string :=
  match fuel with
  | O => acc
  | S f =>
      let d := String (ascii_of_nat (48 + Z.to_nat (n mod 10))) acc in
      if n <? 10 then d else digits_aux f (n / 10) d
  end.

Definition digits (n : Z) : string :=
  digits_aux (S (Z.to_nat (Z.log2 n))) n EmptyString.

Fixpoint zeros (k : nat) : string :=
  match k with O => EmptyString | S k' => String "0" (zeros k') end.

(** [String(n).padStart(w, '0')] for [0 <= n]. *)
Definition pad (w : nat) (n : Z) : string :=
  let d := digits n in zeros (w - String.length d) ++ d.

(** [ToBoolean]. *)
Definition truthy (v : jsval) : bool :=
  match v with
  | JUndefined | JNull => false
  | JBool b => b
  | JNum n => negb (n =? 0)
  | JStr s => negb (String.eqb s EmptyString)
  end.

(** [ToString], as a template literal applies it. A number is an integer of
    magnitude up to 2^53: beyond that a double rounds the digits, and from
    10^21 on it is printed with an exponent, which is outside the model. *)
Definition ToString (v : jsval) : string :=
  match v with
  | JUndefined => "undefined"
  | JNull => "null"
  | JBool true => "true"
  | JBool false => "false"
  | JNum n => if n <? 0 then "-" ++ digits (- n) else digits n
  | JStr s => s
  end.

Definition is_undefined (v : jsval) : bool :=
  match v with JUndefined => true | _ => false end.

Definition is_string (v : jsval) : bool :=
  match v with JStr _ => true | _ => false end.

Definition is_boolean (v : jsval) : bool :=
  match v with JBool _ => true | _ => false end.

(** [v === 'lit']. *)
Definition is_str (lit : string) (v : jsval) : bool :=
  match v with JStr s => String.eqb s lit | _ => false end.

(** Reading a property of an object: an absent key reads [undefined]. *)
Definition get (o : gmap string jsval) (k : string) : jsval :=
  default JUndefined (o !! k).

End Js.

(** ** Exceptions *)

Inductive exn : Type :=
  | Error (msg : string)
  | TypeError (msg : string)
  | RangeError (msg : string).

Inductive result (A : Type) : Type :=
  | Ok (a : A)
  | Err (e : exn).
Arguments Ok {A} a.
Arguments Err {A} e.

Definition bind {A B : Type} (r : result A) (k : A -> result B) : result B :=
  match r with
  | Ok a => k a
  | Err e => Err e
  end.

Notation "'let*' x := r 'in' k" := (bind r (fun x => k))
  (at level 10, x name, r at level 100, k at level 200).

Definition is_ok {A : Type} (r : result A) : bool :=
  match r with Ok _ => true | Err _ => false end.

Definition message (e : exn) : string :=
  match e with Error m | TypeError m | RangeError m => m end.

(** ** Regular expressions

    The fragment of the regular-expression language the generator uses, with
    the matching order of a backtracking engine: a quantifier is greedy and
    gives characters back one at a time, and a search tries each start
    position from the left. *)

Module Regex.

Inductive item : Type :=
  | Lit (c : ascii)                 (* a literal character *)
  | Plus (p : ascii -> bool)        (* [class]+ *)
  | Opt (p : ascii -> bool)         (* [class]? *)
  | GroupOpen                       (* ( *)
  | GroupClose.                     (* ) *)

(** The matcher's state: whether the capture group is open, and its text. *)
Record capture : Type := { opened : bool; text : string }.

Definition consume (c : ascii) (st : capture) : capture :=
  if opened st then {| opened := true; text := text st ++ String c EmptyString |}
  else st.

(** The capture after the characters of [run] were consumed. *)
Fixpoint consume_run (run : string) (st : capture) : capture :=
  match run with
  | String a t => consume_run t (consume a st)
  | EmptyString => st
  end.

(** The loop of [class]+ before the rest [k] of the pattern: it takes one
    more character first, and on failure goes on with [k] from where it is. *)
Fixpoint plus_loop (p : ascii -> bool) (k : capture -> string -> option string)
    (st : capture) (s : string) : option string :=
  match s with
  | String a t =>
      if p a then
        match plus_loop p k (consume a st) t with
        | Some g => Some g
        | None => k (consume a st) t
        end
      else None
  | EmptyString => None
  end.

(** [exec r st s]: match [r] at the start of [s]; on success, group 1. *)
Fixpoint exec (r : list item) (st : capture) (s : string) : option string :=
  match r with
  | [] => Some (text st)
  | Lit c :: r' =>
      match s with
      | String a t => if Chars.eqc c a then exec r' (consume a st) t else None
      | EmptyString => None
      end
  | Plus p :: r' => plus_loop p (exec r') st s
  | Opt p :: r' =>
      match s with
      | String a t =>
          if p a then
            match exec r' (consume a st) t with
            | Some g => Some g
            | None => exec r' st s
            end
          else exec r' st s
      | EmptyString => exec r' st s
      end
  | GroupOpen :: r' => exec r' {| opened := true; text := EmptyString |} s
  | GroupClose :: r' => exec r' {| opened := false; text := text st |} s
  end.

Definition start : capture := {| opened := false; text := EmptyString |}.

(** [s.match(r)] for a pattern without the global flag: group 1 of the
    leftmost match. *)
Fixpoint search (r : list item) (s : string) : option string :=
  match exec r start s with
  | Some g => Some g
  | None =>
      match s with
      | String _ t => search r t
      | EmptyString => None
      end
  end.

Definition lits (s : string) : list item :=
  List.map Lit (list_ascii_of_string s).

Definition not_equals (c : ascii) : bool := negb (Chars.eqc "=" c).

Definition is_quote (c : ascii) : bool :=
  Chars.eqc Chars.SQUOTE c || Chars.eqc Chars.DQUOTE c.

Definition is_value_char (c : ascii) : bool :=
  negb (is_quote c || Chars.eqc "]" c).

(** [/#([a-zA-Z0-9_-]+)/] *)
Definition id_pattern : list item :=
  [Lit "#"; GroupOpen; Plus Chars.is_name_char; GroupClose].

(** [/\[data-[^=]+=Q?([^Q\]]+)Q?\]/], where [Q] stands for the two quote
    characters, single and double, of the source's character classes. *)
Definition data_pattern : list item :=
  lits "[data-" ++
  [Plus not_equals; Lit "="; Opt is_quote;
   GroupOpen; Plus is_value_char; GroupClose;
   Opt is_quote; Lit "]"].

(** [/\.([a-zA-Z0-9_-]+)/] *)
Definition class_pattern : list item :=
  [Lit "."; GroupOpen; Plus Chars.is_name_char; GroupClose].

End Regex.

(** ** Host library: [Date] and [path] *)

Module Date.

(** The largest magnitude of a time value, in milliseconds ([TimeClip]). *)
Definition max_time : Z := 8640000000000000.

Definition ms_per_day : Z := 86400000.

(** Year, month and day of the day number [day] (days since 1970-01-01) in
    the proleptic Gregorian calendar. *)
Definition civil_from_days (day : Z) : Z * Z * Z :=
  let z := day + 719468 in
  let era := z / 146097 in
  let doe := z - era * 146097 in
  let yoe := (doe - doe / 1460 + doe / 36524 - doe / 146096) / 365 in
  let doy := doe - (365 * yoe + yoe / 4 - yoe / 100) in
  let mp := (5 * doy + 2) / 153 in
  let d := doy - (153 * mp + 2) / 5 + 1 in
  let m := if mp <? 10 then mp + 3 else mp - 9 in
  let y := yoe + era * 400 + (if m <=? 2 then 1 else 0) in
  (y, m, d).

(** The year of an ISO date: four digits, or a sign and six digits. *)
Definition iso_year (y : Z) : string :=
  if (0 <=? y) && (y <=? 9999) then Js.pad 4 y
  else if y <? 0 then "-" ++ Js.pad 6 (- y)
  else "+" ++ Js.pad 6 y.

(** [new Date(t).toISOString().split('T')[0]] for an integral time value. *)
Definition iso_date (t : Z) : result string :=
  if Z.abs t <=? max_time then
    let '(y, m, d) := civil_from_days (t / ms_per_day) in
    Ok (iso_year y ++ "-" ++ Js.pad 2 m ++ "-" ++ Js.pad 2 d)
  else Err (RangeError "Invalid time value").

End Date.

Module Path.

Definition is_absolute (p : string) : bool :=
  match p with
  | String c _ => Chars.eqc Chars.SLASH c
  | EmptyString => false
  end.

(** One segment of [normalizeString], on the stack of kept segments (the
    last one first). *)
Definition push_segment (allowAboveRoot : bool) (stack : list string) (seg : string)
  : list string :=
  if String.eqb seg EmptyString || String.eqb seg "." then stack
  else if String.eqb seg ".." then
    match stack with
    | top :: below =>
        if String.eqb top ".." then
          (if allowAboveRoot then seg :: stack else stack)
        else below
    | [] => if allowAboveRoot then [seg] else []
    end
  else seg :: stack.

Definition normalizeString (p : string) (allowAboveRoot : bool) : string :=
  Str.join "/" (rev (fold_left (push_segment allowAboveRoot) (Str.split_slash p) [])).

(** The loop of [resolve], from the last argument to the first and then the
    working directory, until the path is absolute. Every argument the loop
    visits must be a string. *)
Fixpoint resolve_loop (cwd : string) (rev_args : list jsval) (resolvedPath : string)
  : result (string * bool) :=
  match rev_args with
  | [] =>
      if String.eqb cwd EmptyString then Ok (resolvedPath, false)
      else Ok (cwd ++ "/" ++ resolvedPath, is_absolute cwd)
  | JStr p :: rest =>
      if String.eqb p EmptyString then resolve_loop cwd rest resolvedPath
      else if is_absolute p then Ok (p ++ "/" ++ resolvedPath, true)
      else resolve_loop cwd rest (p ++ "/" ++ resolvedPath)
  | _ :: _ => Err (TypeError "ERR_INVALID_ARG_TYPE")
  end.

(** [path.resolve(...args)]. *)
Definition resolve (cwd : string) (args : list jsval) : result string :=
  let* r := resolve_loop cwd (rev args) EmptyString in
  let '(resolvedPath, resolvedAbsolute) := r in
  let n := normalizeString resolvedPath (negb resolvedAbsolute) in
  if resolvedAbsolute then Ok ("/" ++ n)
  else Ok (if String.eqb n EmptyString then "." else n).

End Path.

(** ** The data model (types.ts)

    Modelled from the spec: [types.ts] is not among the sources. The records
    below carry the fields the generator reads, and the time stamp that
    section 2 of the specification gives an action. A field the generator
    checks at run time keeps a dynamic type. *)

Module Types.

Record CodegenAction : Type := {
  toolName : string;
  parameters : gmap string jsval;
  timestamp : Z;
}.

(** The [actions] property of a session: an array of actions, or any other
    value ([Array.isArray] tells them apart). *)
Inductive actions_value : Type :=
  | ActionArray (l : list CodegenAction)
  | NotArray (v : jsval).

Record CodegenSession : Type := {
  id : jsval;
  startTime : Z;
  actions : actions_value;
}.

(** What a caller may pass as the session: an object, or a primitive value
    ([null] and [undefined] among them). *)
Inductive session_value : Type :=
  | SessionObject (s : CodegenSession)
  | SessionPrimitive (v : jsval).

(** The options object as the caller writes it: [None] is an absent key. *)
Record CodegenOptions : Type := {
  outputPath : option jsval;
  testNamePrefix : option jsval;
  includeComments : option jsval;
  language : option jsval;
  template : option jsval;
}.

Record PlaywrightTestCase : Type := {
  name : string;
  steps : list string;
  imports : list string;      (* a [Set], in insertion order *)
}.

Record GeneratedFile : Type := {
  path : string;
  content : string;
}.

Record CodegenResult : Type := {
  testCode : string;
  filePath : string;
  sessionId : jsval;
  files : option (list GeneratedFile);
}.

End Types.

(** The options of a constructed generator ([Required<CodegenOptions>]). *)
Module Required.

Record t : Type := {
  outputPath : jsval;
  testNamePrefix : jsval;
  includeComments : jsval;
  language : jsval;
  template : jsval;
}.

End Required.

(** ** The generator (generator.ts) *)

Record PlaywrightGenerator : Type := { options : Required.t }.

Definition DEFAULT_OPTIONS : Required.t := {|
  Required.outputPath := JStr "tests";
  Required.testNamePrefix := JStr "MCP";
  Required.includeComments := JBool true;
  Required.language := JStr "typescript";
  Required.template := JStr "pom";
|}.

(** Reading [options.key]: an absent key reads [undefined]. *)
Definition read (field : option jsval) : jsval := default JUndefined field.

Definition validateOptions (options : Types.CodegenOptions) : result unit :=
  let outputPath := read (Types.outputPath options) in
  let testNamePrefix := read (Types.testNamePrefix options) in
  let includeComments := read (Types.includeComments options) in
  let language := read (Types.language options) in
  let template := read (Types.template options) in
  if Js.truthy outputPath && negb (Js.is_string outputPath) then
    Err (Error "outputPath must be a string")
  else if Js.truthy testNamePrefix && negb (Js.is_string testNamePrefix) then
    Err (Error "testNamePrefix must be a string")
  else if negb (Js.is_undefined includeComments)
          && negb (Js.is_boolean includeComments) then
    Err (Error "includeComments must be a boolean")
  else if negb (Js.is_undefined language)
          && negb (Js.is_str "typescript" language)
          && negb (Js.is_str "javascript" language) then
    Err (Error "language must be 'typescript' or 'javascript'")
  else if negb (Js.is_undefined template)
          && negb (Js.is_str "plain" template)
          && negb (Js.is_str "pom" template) then
    Err (Error "template must be 'plain' or 'pom'")
  else Ok tt.

(** [{ ...DEFAULT_OPTIONS, ...options }]: a key of [options] overrides the
    default, whatever its value. *)
Definition spread (options : Types.CodegenOptions) : Required.t := {|
  Required.outputPath :=
    default (Required.outputPath DEFAULT_OPTIONS) (Types.outputPath options);
  Required.testNamePrefix :=
    default (Required.testNamePrefix DEFAULT_OPTIONS) (Types.testNamePrefix options);
  Required.includeComments :=
    default (Required.includeComments DEFAULT_OPTIONS) (Types.includeComments options);
  Required.language :=
    default (Required.language DEFAULT_OPTIONS) (Types.language options);
  Required.template :=
    default (Required.template DEFAULT_OPTIONS) (Types.template options);
|}.

Definition constructor (options : Types.CodegenOptions) : result PlaywrightGenerator :=
  let* _ := validateOptions options in
  Ok {| options := spread options |}.

(** [constructor()] with the default argument [{}]. *)
Definition no_options : Types.CodegenOptions := {|
  Types.outputPath := None;
  Types.testNamePrefix := None;
  Types.includeComments := None;
  Types.language := None;
  Types.template := None;
|}.

(** *** One step per recognized action *)

Definition generateNavigateStep (parameters : gmap string jsval) : string :=
  let url := Js.get parameters "url" in
  let waitUntil := Js.get parameters "waitUntil" in
  let options :=
    if Js.truthy waitUntil
    then ", { waitUntil: '" ++ Js.ToString waitUntil ++ "' }"
    else "" in
  "
    // Navigate to URL
    await page.goto('" ++ Js.ToString url ++ "'" ++ options ++ ");".

Definition generateFillStep (parameters : gmap string jsval) : string :=
  let selector := Js.get parameters "selector" in
  let value := Js.get parameters "value" in
  "
    // Fill input field
    await page.fill('" ++ Js.ToString selector ++ "', '" ++ Js.ToString value ++ "');".

Definition generateClickStep (parameters : gmap string jsval) : string :=
  let selector := Js.get parameters "selector" in
  "
    // Click element
    await page.click('" ++ Js.ToString selector ++ "');".

Definition generateScreenshotStep (parameters : gmap string jsval) : string :=
  let name := Js.get parameters "name" in
  let fullPage :=
    match Js.get parameters "fullPage" with
    | JUndefined => JBool false
    | v => v
    end in
  let path := Js.get parameters "path" in
  let options :=
    app (if Js.truthy fullPage then ["fullPage: true"] else [])
        (if Js.truthy path then ["path: '" ++ Js.ToString path ++ "'"] else []) in
  let optionsStr :=
    if (0 <? length options)%nat
    then ", { " ++ Str.join ", " options ++ " }"
    else "" in
  "
    // Take screenshot
    await page.screenshot({ path: '" ++ Js.ToString name ++ ".png'" ++ optionsStr ++ " });".

Definition generateExpectResponseStep (parameters : gmap string jsval) : string :=
  let url := Js.get parameters "url" in
  let id := Js.get parameters "id" in
  "
    // Wait for response
    const " ++ Js.ToString id ++ "Response = page.waitForResponse('" ++ Js.ToString url ++ "');".

Definition generateAssertResponseStep (parameters : gmap string jsval) : string :=
  let id := Js.get parameters "id" in
  let value := Js.get parameters "value" in
  let assertion :=
    if Js.truthy value
    then "
    const responseText = await " ++ Js.ToString id ++ "Response.text();
    expect(responseText).toContain('" ++ Js.ToString value ++ "');"
    else "
    expect(" ++ Js.ToString id ++ "Response.ok()).toBeTruthy();" in
  "
    // Assert response" ++ assertion.

Definition generateHoverStep (parameters : gmap string jsval) : string :=
  let selector := Js.get parameters "selector" in
  "
    // Hover over element
    await page.hover('" ++ Js.ToString selector ++ "');".

Definition generateSelectStep (parameters : gmap string jsval) : string :=
  let selector := Js.get parameters "selector" in
  let value := Js.get parameters "value" in
  "
    // Select option
    await page.selectOption('" ++ Js.ToString selector ++ "', '" ++ Js.ToString value ++ "');".

Definition generateCustomUserAgentStep (parameters : gmap string jsval) : string :=
  let userAgent := Js.get parameters "userAgent" in
  "
    // Set custom user agent
    await context.setUserAgent('" ++ Js.ToString userAgent ++ "');".

(** [null] is [None]. *)
Definition convertActionToStep (action : Types.CodegenAction) : option string :=
  let toolName := Types.toolName action in
  let parameters := Types.parameters action in
  if String.eqb toolName "playwright_navigate" then
    Some (generateNavigateStep parameters)
  else if String.eqb toolName "playwright_fill" then
    Some (generateFillStep parameters)
  else if String.eqb toolName "playwright_click" then
    Some (generateClickStep parameters)
  else if String.eqb toolName "playwright_screenshot" then
    Some (generateScreenshotStep parameters)
  else if String.eqb toolName "playwright_expect_response" then
    Some (generateExpectResponseStep parameters)
  else if String.eqb toolName "playwright_assert_response" then
    Some (generateAssertResponseStep parameters)
  else if String.eqb toolName "playwright_hover" then
    Some (generateHoverStep parameters)
  else if String.eqb toolName "playwright_select" then
    Some (generateSelectStep parameters)
  else if String.eqb toolName "playwright_custom_user_agent" then
    Some (generateCustomUserAgentStep parameters)
  else None.

(** *** The test case *)

(** The private methods run after [generateTest] has checked that
    [session.actions] is an array. *)
Definition session_actions (session : Types.CodegenSession) : list Types.CodegenAction :=
  match Types.actions session with
  | Types.ActionArray l => l
  | Types.NotArray _ => []
  end.

(** The loop of [createTestCase]: [if (step)] keeps a step that is neither
    [null] nor the empty string. *)
Fixpoint collect_steps (l : list Types.CodegenAction) : list string :=
  match l with
  | [] => []
  | action :: rest =>
      match convertActionToStep action with
      | Some step =>
          if Js.truthy (JStr step) then step :: collect_steps rest
          else collect_steps rest
      | None => collect_steps rest
      end
  end.

Definition createTestCase (this : PlaywrightGenerator) (session : Types.CodegenSession)
  : result Types.PlaywrightTestCase :=
  let* date := Date.iso_date (Types.startTime session) in
  Ok {|
    Types.name := Js.ToString (Required.testNamePrefix (options this)) ++ "_" ++ date;
    Types.steps := collect_steps (session_actions session);
    Types.imports := ["test"; "expect"];
  |}.

Definition generateTestCode (testCase : Types.PlaywrightTestCase) : string :=
  let imports :=
    Str.join Str.nl
      (List.map (fun imp => "import { " ++ imp ++ " } from '@playwright/test';")
         (Types.imports testCase)) in
  "
" ++ imports ++ "

test('" ++ Types.name testCase ++ "', async ({ page, context }) => {
  " ++ Str.join Str.nl (Types.steps testCase) ++ "
});".

Definition language_ext (this : PlaywrightGenerator) : string :=
  if Js.is_str "typescript" (Required.language (options this)) then "ts" else "js".

Definition generatePomTestCode (this : PlaywrightGenerator)
    (testCase : Types.PlaywrightTestCase) : string :=
  let ext := language_ext this in
  "
import { test, expect } from '@playwright/test';
import { AppPage } from './pages/AppPage." ++ ext ++ "';

test('" ++ Types.name testCase ++ "', async ({ page }) => {
  const app = new AppPage(page);
  await app.goto();
" ++
  Str.join Str.nl
    (List.map (fun s => "  " ++ Str.trim_leading_space s) (Types.steps testCase)) ++ "
});".

(** *** The page object *)

Definition deriveLocatorName (selector : string) : string :=
  match Regex.search Regex.id_pattern selector with
  | Some idMatch => idMatch ++ "Locator"
  | None =>
      match Regex.search Regex.data_pattern selector with
      | Some dataTest => dataTest ++ "Locator"
      | None =>
          match Regex.search Regex.class_pattern selector with
          | Some cls => cls ++ "Locator"
          | None => "elementLocator"
          end
      end
  end.

Definition pageClassHeader_ts : string :=
  "import type { Page } from '@playwright/test';

export class AppPage {
  readonly page: Page;
  constructor(page: Page) {
    this.page = page;
  }
".

Definition pageClassHeader_js : string :=
  "export class AppPage {
  /** @param {import('@playwright/test').Page} page */
  constructor(page) {
    this.page = page;
  }
".

Definition methods : string :=
  "
  async goto(url) {
    if (url) {
      await this.page.goto(url);
    }
  }

  async click(selector) {
    const target = selector ?? this.safe('primaryButton');
    await this.page.locator(target).click({ timeout: 10000 });
  }

  async fill(selector, value) {
    const target = selector ?? this.safe('input');
    await this.page.locator(target).fill(String(value ?? ''));
  }

  async expectVisible(selector) {
    await this.page.locator(selector).waitFor({ state: 'visible', timeout: 10000 });
  }

  safe(name) {
    if (!this[name]) throw new Error('Unknown locator: ' + name);
    return this[name];
  }
".

(** [selectors.has(key)] on a [Map] kept in insertion order. *)
Definition has (selectors : list (string * string)) (key : string) : bool :=
  existsb (fun e => String.eqb (fst e) key) selectors.

(** The loop that fills the [selectors] map. *)
Fixpoint collect_selectors (l : list Types.CodegenAction)
    (selectors : list (string * string)) : list (string * string) :=
  match l with
  | [] => selectors
  | action :: rest =>
      let params := Types.parameters action in
      let selector :=
        match Js.get params "selector" with
        | JStr s => JStr s
        | _ => JUndefined
        end in
      if Js.truthy selector then
        let key := deriveLocatorName (Js.ToString selector) in
        if negb (has selectors key)
        then collect_selectors rest (app selectors [(key, Js.ToString selector)])
        else collect_selectors rest selectors
      else collect_selectors rest selectors
  end.

Definition generatePageObject (cwd : string) (this : PlaywrightGenerator)
    (session : Types.CodegenSession) : result Types.GeneratedFile :=
  let ext := language_ext this in
  let pageClassHeader :=
    if Js.is_str "typescript" (Required.language (options this))
    then pageClassHeader_ts else pageClassHeader_js in
  let selectors := collect_selectors (session_actions session) [] in
  let locators :=
    Str.join Str.nl
      (List.map (fun e => "  " ++ fst e ++ " = '" ++ snd e ++ "';") selectors) in
  let content := pageClassHeader ++ "
" ++ locators ++ "
" ++ methods ++ "
}
" in
  let* filePath :=
    Path.resolve cwd
      [Required.outputPath (options this); JStr "pages"; JStr ("AppPage." ++ ext)] in
  Ok {| Types.path := filePath; Types.content := content |}.

(** [this.options.outputPath.replace(...)]: calling the method on a value
    that is not a string throws. *)
Definition generatePlaywrightConfig (cwd : string) (this : PlaywrightGenerator)
  : result (option Types.GeneratedFile) :=
  let isTs := Js.is_str "typescript" (Required.language (options this)) in
  let filename := if isTs then "playwright.config.ts" else "playwright.config.js" in
  let* testDir :=
    match Required.outputPath (options this) with
    | JStr s => Ok (Str.replace_backslashes s)
    | _ => Err (TypeError "outputPath.replace is not a function")
    end in
  let base := "import { defineConfig } from '@playwright/test';

export default defineConfig({
  testDir: '" ++ testDir ++ "',
  use: {
    screenshot: 'only-on-failure',
    video: 'retain-on-failure',
    trace: 'on-first-retry'
  },
});
" in
  let* p := Path.resolve cwd [JStr filename] in
  Ok (Some {| Types.path := p; Types.content := base |}).

Definition getOutputFilePath (cwd : string) (this : PlaywrightGenerator)
    (session : Types.CodegenSession) : result string :=
  if negb (Js.truthy (Types.id session)) then
    Err (Error "Session ID is required")
  else
    let* lowered :=
      match Required.testNamePrefix (options this) with
      | JStr s => Ok (Str.toLowerCase s)
      | _ => Err (TypeError "testNamePrefix.toLowerCase is not a function")
      end in
    let sanitizedPrefix := Str.replace_non_file_chars lowered in
    let fileName :=
      sanitizedPrefix ++ "_" ++ Js.ToString (Types.id session) ++ ".spec.ts" in
    Path.resolve cwd [Required.outputPath (options this); JStr fileName].

(** *** [generateTest] *)

Definition generateTest (cwd : string) (this : PlaywrightGenerator)
    (session : Types.session_value) : result Types.CodegenResult :=
  match session with
  | Types.SessionPrimitive _ => Err (Error "Invalid session data")
  | Types.SessionObject session =>
      match Types.actions session with
      | Types.NotArray _ => Err (Error "Invalid session data")
      | Types.ActionArray _ =>
          let* testCase := createTestCase this session in
          let isPom := Js.is_str "pom" (Required.template (options this)) in
          let* files :=
            if isPom then
              let* pageObject := generatePageObject cwd this session in
              Ok [pageObject]
            else Ok [] in
          let testCode :=
            if isPom then generatePomTestCode this testCase
            else generateTestCode testCase in
          let* filePath := getOutputFilePath cwd this session in
          let* files :=
            if isPom then
              let* config := generatePlaywrightConfig cwd this in
              match config with
              | Some config => Ok (app files [config])
              | None => Ok files
              end
            else Ok files in
          Ok {|
            Types.testCode := testCode;
            Types.filePath := filePath;
            Types.sessionId := Types.id session;
            Types.files := if (0 <? length files)%nat then Some files else None;
          |}
      end
  end.

(** ** Lexical structure of the generated language

    The part of the lexical grammar that decides where string literals and
    comments begin and end. [scan] fails on a line terminator inside a quoted
    literal; a text is well formed when the scan ends outside every literal
    and block comment. *)

Module Lexer.

Inductive state : Type :=
  | Code            (* between tokens *)
  | Slash           (* after one [/] *)
  | LineComment
  | BlockComment
  | BlockStar       (* after [*] inside a block comment *)
  | SQ | SQEsc      (* inside '...' and after a backslash there *)
  | DQ | DQEsc      (* the same for the double quote *)
  | BT | BTEsc.     (* the same for a template *)

Definition from_code (c : ascii) : state :=
  if Chars.eqc Chars.SQUOTE c then SQ
  else if Chars.eqc Chars.DQUOTE c then DQ
  else if Chars.eqc Chars.BQUOTE c then BT
  else if Chars.eqc Chars.SLASH c then Slash
  else Code.

Definition quoted (own esc : state) (quote c : ascii) : option state :=
  if Chars.eqc quote c then Some Code
  else if Chars.eqc Chars.BSLASH c then Some esc
  else if Chars.is_line_end c then None
  else Some own.

Definition step (st : state) (c : ascii) : option state :=
  match st with
  | Code => Some (from_code c)
  | Slash =>
      if Chars.eqc Chars.SLASH c then Some LineComment
      else if Chars.eqc Chars.STAR c then Some BlockComment
      else Some (from_code c)
  | LineComment => Some (if Chars.is_line_end c then Code else LineComment)
  | BlockComment => Some (if Chars.eqc Chars.STAR c then BlockStar else BlockComment)
  | BlockStar =>
      Some (if Chars.eqc Chars.SLASH c then Code
            else if Chars.eqc Chars.STAR c then BlockStar
            else BlockComment)
  | SQ => quoted SQ SQEsc Chars.SQUOTE c
  | DQ => quoted DQ DQEsc Chars.DQUOTE c
  | BT =>
      Some (if Chars.eqc Chars.BQUOTE c then Code
            else if Chars.eqc Chars.BSLASH c then BTEsc
            else BT)
  | SQEsc => Some SQ
  | DQEsc => Some DQ
  | BTEsc => Some BT
  end.

Fixpoint scan (st : state) (s : string) : option state :=
  match s with
  | EmptyString => Some st
  | String c t =>
      match step st c with
      | Some st' => scan st' t
      | None => None
      end
  end.

Definition accepting (st : state) : bool :=
  match st with
  | Code | Slash | LineComment => true
  | _ => false
  end.

Definition well_formed (s : string) : bool :=
  match scan Code s with
  | Some st => accepting st
  | None => false
  end.

(** A character that may stand unescaped inside a single-quoted literal. *)
Definition literal_char (c : ascii) : bool :=
  negb (Chars.eqc Chars.SQUOTE c || Chars.eqc Chars.BSLASH c || Chars.is_line_end c).

(** A character that, between tokens, opens neither a literal nor a comment. *)
Definition code_char (c : ascii) : bool :=
  negb (Chars.eqc Chars.SQUOTE c || Chars.eqc Chars.DQUOTE c
        || Chars.eqc Chars.BQUOTE c || Chars.eqc Chars.SLASH c).

Definition literal_safe (s : string) : bool := Str.forallb literal_char s.
Definition code_safe (s : string) : bool := Str.forallb code_char s.

End Lexer.

(** ** The specification's vocabulary *)

Module Spec.

(** The nine recognized tool names. *)
Definition recognized_tools : list string :=
  [ "playwright_navigate"; "playwright_fill"; "playwright_click";
    "playwright_screenshot"; "playwright_expect_response";
    "playwright_assert_response"; "playwright_hover"; "playwright_select";
    "playwright_custom_user_agent" ].

Definition recognized (action : Types.CodegenAction) : bool :=
  existsb (String.eqb (Types.toolName action)) recognized_tools.

(** The library call expected for a tool, with the literal values of the
    parameters the call takes. An optional parameter is part of the call when
    it is given (truthy). *)
Definition expected_fragments (action : Types.CodegenAction) : list string :=
  let tool := Types.toolName action in
  let arg k := Js.ToString (Js.get (Types.parameters action) k) in
  let given k := Js.truthy (Js.get (Types.parameters action) k) in
  if String.eqb tool "playwright_navigate" then
    ("page.goto('" ++ arg "url" ++ "'") ::
    (if given "waitUntil" then ["waitUntil: '" ++ arg "waitUntil" ++ "'"] else [])
  else if String.eqb tool "playwright_fill" then
    ["page.fill('" ++ arg "selector" ++ "', '" ++ arg "value" ++ "')"]
  else if String.eqb tool "playwright_click" then
    ["page.click('" ++ arg "selector" ++ "')"]
  else if String.eqb tool "playwright_screenshot" then
    ("page.screenshot({ path: '" ++ arg "name" ++ ".png'") ::
    (if given "path" then ["path: '" ++ arg "path" ++ "'"] else [])
  else if String.eqb tool "playwright_expect_response" then
    [arg "id" ++ "Response = page.waitForResponse('" ++ arg "url" ++ "')"]
  else if String.eqb tool "playwright_assert_response" then
    if given "value" then
      [arg "id" ++ "Response.text()"; "toContain('" ++ arg "value" ++ "')"]
    else
      ["expect(" ++ arg "id" ++ "Response.ok())"]
  else if String.eqb tool "playwright_hover" then
    ["page.hover('" ++ arg "selector" ++ "')"]
  else if String.eqb tool "playwright_select" then
    ["page.selectOption('" ++ arg "selector" ++ "', '" ++ arg "value" ++ "')"]
  else if String.eqb tool "playwright_custom_user_agent" then
    ["context.setUserAgent('" ++ arg "userAgent" ++ "')"]
  else [].

(** The session without its unrecognized actions. *)
Definition recognized_only (session : Types.CodegenSession) : Types.CodegenSession := {|
  Types.id := Types.id session;
  Types.startTime := Types.startTime session;
  Types.actions :=
    match Types.actions session with
    | Types.ActionArray l => Types.ActionArray (List.filter recognized l)
    | other => other
    end;
|}.

(** An options object with an ill-typed field, as the constructor checks it:
    [outputPath] and [testNamePrefix] only when truthy, the other three
    whenever they are defined. *)
Definition rejected (options : Types.CodegenOptions) : bool :=
  let outputPath := read (Types.outputPath options) in
  let testNamePrefix := read (Types.testNamePrefix options) in
  let includeComments := read (Types.includeComments options) in
  let language := read (Types.language options) in
  let template := read (Types.template options) in
  (Js.truthy outputPath && negb (Js.is_string outputPath))
  || (Js.truthy testNamePrefix && negb (Js.is_string testNamePrefix))
  || (negb (Js.is_undefined includeComments) && negb (Js.is_boolean includeComments))
  || (negb (Js.is_undefined language)
      && negb (existsb (fun l => Js.is_str l language) ["typescript"; "javascript"]))
  || (negb (Js.is_undefined template)
      && negb (existsb (fun t => Js.is_str t template) ["plain"; "pom"])).

(** An options object with an ill-typed field, as the specification words it:
    any value that is not a string counts for [outputPath] and
    [testNamePrefix]. *)
Definition ill_typed (options : Types.CodegenOptions) : bool :=
  let wrong (ok : jsval -> bool) (field : option jsval) :=
    match field with
    | Some v => negb (ok v)
    | None => false
    end in
  wrong Js.is_string (Types.outputPath options)
  || wrong Js.is_string (Types.testNamePrefix options)
  || wrong Js.is_boolean (Types.includeComments options)
  || wrong (fun v => Js.is_str "typescript" v || Js.is_str "javascript" v)
       (Types.language options)
  || wrong (fun v => Js.is_str "plain" v || Js.is_str "pom" v) (Types.template options).

Definition option_messages : list string :=
  [ "outputPath must be a string"; "testNamePrefix must be a string";
    "includeComments must be a boolean";
    "language must be 'typescript' or 'javascript'";
    "template must be 'plain' or 'pom'" ].

(** A malformed session: not an object, [actions] not an array, or no [id]. *)
Inductive malformed : Types.session_value -> Prop :=
  | malformed_primitive v : malformed (Types.SessionPrimitive v)
  | malformed_actions s v :
      Types.actions s = Types.NotArray v -> malformed (Types.SessionObject s)
  | malformed_id s :
      Js.truthy (Types.id s) = false -> malformed (Types.SessionObject s).

(** A generator whose path and prefix options are strings. *)
Definition string_options (this : PlaywrightGenerator) : Prop :=
  Js.is_string (Required.outputPath (options this)) = true
  /\ Js.is_string (Required.testNamePrefix (options this)) = true.

(** A valid session: an object with an array of actions, an identifier and a
    start time in the range of [Date]. *)
Definition valid_session (session : Types.CodegenSession) : Prop :=
  (exists l, Types.actions session = Types.ActionArray l)
  /\ Js.truthy (Types.id session) = true
  /\ Z.abs (Types.startTime session) <= Date.max_time.

(** *** Tokens of a selector *)

(** The longest prefix of [s] made of characters of the class [p], and what
    follows it. *)
Fixpoint span (p : ascii -> bool) (s : string) : string * string :=
  match s with
  | String c t =>
      if p c then let '(run, rest) := span p t in (String c run, rest)
      else (EmptyString, s)
  | EmptyString => (EmptyString, EmptyString)
  end.

Definition nonempty (s : string) : bool := negb (String.eqb s EmptyString).

(** The name of the first token [mark name] of [s], where [name] is a
    non-empty run of [[a-zA-Z0-9_-]], as long as it can be. *)
Fixpoint first_token (mark : ascii) (s : string) : option string :=
  match s with
  | String c t =>
      let name := fst (span Chars.is_name_char t) in
      if Chars.eqc mark c && nonempty name then Some name
      else first_token mark t
  | EmptyString => None
  end.

(** [strip_prefix pre s]: [s] without its prefix [pre]. *)
Fixpoint strip_prefix (pre s : string) : option string :=
  match pre, s with
  | EmptyString, _ => Some s
  | String a pre', String b s' => if Chars.eqc a b then strip_prefix pre' s' else None
  | String _ _, EmptyString => None
  end.

Definition skip_quote (s : string) : string :=
  match s with
  | String c t => if Regex.is_quote c then t else s
  | EmptyString => s
  end.

(** A data attribute at the start of [s]: [[data-], a non-empty attribute name
    up to the first [=], the value within optional quotes, and []]. *)
Definition data_attribute_here (s : string) : option string :=
  match strip_prefix "[data-" s with
  | Some after_prefix =>
      let '(attr, after_attr) := span Regex.not_equals after_prefix in
      match after_attr with
      | String _ after_eq =>      (* the character that ends the run is [=] *)
          let '(value, after_value) := span Regex.is_value_char (skip_quote after_eq) in
          if nonempty attr && nonempty value
             && String.prefix "]" (skip_quote after_value)
          then Some value else None
      | EmptyString => None
      end
  | None => None
  end.

(** The value of the first data attribute of [s]. *)
Fixpoint first_data_attribute (s : string) : option string :=
  match data_attribute_here s with
  | Some v => Some v
  | None =>
      match s with
      | String _ t => first_data_attribute t
      | EmptyString => None
      end
  end.

(** The locator name, rule by rule in the order of the specification. *)
Definition locator_name (s : string) : string :=
  match first_token "#" s with
  | Some x => x ++ "Locator"
  | None =>
      match first_data_attribute s with
      | Some v => v ++ "Locator"
      | None =>
          match first_token "." s with
          | Some c => c ++ "Locator"
          | None => "elementLocator"
          end
      end
  end.

(** The file name of a generated test, as the specification words it: each
    character of the prefix in lower case, or [_] when that is outside
    [[a-z0-9_]]. *)
Definition sanitize_char (c : ascii) : ascii :=
  if Chars.is_lower c || Chars.is_upper c || Chars.is_digit c || Chars.eqc "_" c
  then Chars.lower c else "_"%char.

Definition test_file_name (prefix id : string) : string :=
  Str.map sanitize_char prefix ++ "_" ++ id ++ ".spec.ts".

End Spec.

(** ** The page-state query tools (tools/browser/visiblePage.ts)

    The source of the tools is not among the sources: only their tests are.
    The definitions of this module are modelled from the specification and
    from what the tests observe. *)

Module VisiblePage.

(** Modelled from the spec: the calls a tool makes on the library's page
    object (visiblePage.ts is missing; the tests mock these two). *)
Inductive library_call : Type :=
  | Evaluate        (* page.evaluate(...) *)
  | Content.        (* page.content()     *)

(** Modelled from the spec: what a library call does (the library is
    mocked in the tests): it returns content, or it throws. *)
Inductive outcome : Type :=
  | Returns (c : string)
  | Throws (m : string).

(** Modelled from the spec: the page object of the missing host context, by
    what the tools ask of it. *)
Record Page : Type := {
  isClosed : bool;
  evaluate : outcome;
  content : outcome;
}.

(** Modelled from the spec: the browser of the missing host context. *)
Record Browser : Type := { isConnected : bool }.

(** Modelled from the spec: the missing [ToolContext] (tools/common/types.ts),
    as the tests build it. *)
Record ToolContext : Type := {
  page : option Page;     (* [None]: the context has no page reference *)
  browser : Browser;
}.

(** Modelled from the spec: the missing result type, a text payload
    ([content[0].text]) and a failure flag. *)
Record ToolResponse : Type := {
  text : string;
  isError : bool;
}.

(** Modelled from the spec: the two constructors of a result, which are
    missing with the tools. *)
Definition createErrorResponse (message : string) : ToolResponse :=
  {| text := message; isError := true |}.

Definition createSuccessResponse (message : string) : ToolResponse :=
  {| text := message; isError := false |}.

(** Modelled from the spec: the two tools of the missing visiblePage.ts. *)
Inductive tool : Type :=
  | VisibleTextTool
  | VisibleHtmlTool.

(** Modelled from the spec: the one library call of each tool (the tests
    watch [evaluate] for the text tool and [content] for the HTML tool). *)
Definition the_call (t : tool) : library_call :=
  match t with
  | VisibleTextTool => Evaluate
  | VisibleHtmlTool => Content
  end.

(** Modelled from the spec: the outcome of a call on the page, which the
    missing library decides. *)
Definition run_call (c : library_call) (p : Page) : outcome :=
  match c with
  | Evaluate => evaluate p
  | Content => content p
  end.

(** Modelled from the spec: the heading of a successful result. *)
Definition heading (t : tool) : string :=
  match t with
  | VisibleTextTool => "Visible text content"
  | VisibleHtmlTool => "HTML content"
  end.

(** Modelled from the spec: the prefix of a failure of the library call. *)
Definition failure_prefix (t : tool) : string :=
  match t with
  | VisibleTextTool => "Failed to get visible text content"
  | VisibleHtmlTool => "Failed to get visible HTML content"
  end.

(** Modelled from the spec: [execute], which section 4 describes as "verify a
    page reference exists, verify the underlying browser is connected, verify
    the page is not closed, invoke one library call, wrap or sanitize the
    result, and map any thrown error to a descriptive failure message". The
    result comes with the library calls made, in order. *)
Definition execute (t : tool) (context : ToolContext)
  : ToolResponse * list library_call :=
  match page context with
  | None => (createErrorResponse "Page is not available", [])
  | Some p =>
      if negb (isConnected (browser context)) then
        (createErrorResponse "Browser is not connected", [])
      else if isClosed p then
        (createErrorResponse "Page is not available or has been closed", [])
      else
        match run_call (the_call t) p with
        | Returns c =>
            (createSuccessResponse (heading t ++ ":" ++ Str.nl ++ c), [the_call t])
        | Throws m =>
            (createErrorResponse (failure_prefix t ++ ": " ++ m), [the_call t])
        end
  end.

(** The guards in the order the specification gives them, with the text each
    failure carries. *)
Inductive guard : Type :=
  | PageExists
  | BrowserConnected
  | PageOpen.

Definition guard_holds (g : guard) (context : ToolContext) : bool :=
  match g with
  | PageExists => bool_decide (is_Some (page context))
  | BrowserConnected => isConnected (browser context)
  | PageOpen =>
      match page context with
      | Some p => negb (isClosed p)
      | None => false
      end
  end.

Definition guard_text (g : guard) : string :=
  match g with
  | PageExists => "Page is not available"
  | BrowserConnected => "Browser is not connected"
  | PageOpen => "Page is not available or has been closed"
  end.

(** The first guard that fails, in the order of the specification. *)
Definition first_failing (context : ToolContext) : option guard :=
  List.find (fun g => negb (guard_holds g context))
    [PageExists; BrowserConnected; PageOpen].

(** Sample contexts. *)

Definition open_page (result : outcome) : Page :=
  {| isClosed := false; evaluate := result; content := result |}.

Definition closed_page_context : ToolContext := {|
  page := Some {| isClosed := true;
                  evaluate := Returns "text";
                  content := Returns "text" |};
  browser := {| isConnected := true |};
|}.

Definition failing_context : ToolContext := {|
  page := Some (open_page (Throws "Evaluation failed"));
  browser := {| isConnected := true |};
|}.

End VisiblePage.

(** ** Notions used in the statements *)

(** Two results of [generateTest] that a caller cannot tell apart, the
    contents of the page object left aside. *)
Definition same_outcome (r r' : result Types.CodegenResult) : Prop :=
  match r, r' with
  | Ok x, Ok x' =>
      Types.testCode x = Types.testCode x'
      /\ Types.filePath x = Types.filePath x'
      /\ Types.sessionId x = Types.sessionId x'
  | Err e, Err e' => e = e'
  | _, _ => False
  end.

(** The options [o] with one field replaced. *)
Definition set_outputPath (v : option jsval) (o : Types.CodegenOptions)
  : Types.CodegenOptions := {|
  Types.outputPath := v;
  Types.testNamePrefix := Types.testNamePrefix o;
  Types.includeComments := Types.includeComments o;
  Types.language := Types.language o;
  Types.template := Types.template o;
|}.

Definition set_testNamePrefix (v : option jsval) (o : Types.CodegenOptions)
  : Types.CodegenOptions := {|
  Types.outputPath := Types.outputPath o;
  Types.testNamePrefix := v;
  Types.includeComments := Types.includeComments o;
  Types.language := Types.language o;
  Types.template := Types.template o;
|}.

(** The parameter values of an action can stand unescaped where the
    generator writes them: inside a single-quoted literal, and for the
    response identifier [id] between tokens. *)
Definition plain_parameters (a : Types.CodegenAction) : Prop :=
  (forall k, Lexer.literal_safe (Js.ToString (Js.get (Types.parameters a) k)) = true)
  /\ Lexer.code_safe (Js.ToString (Js.get (Types.parameters a) "id")) = true.

(** An optional quote: nothing, or one of the two quote characters. *)
Definition optional_quote (q : string) : Prop :=
  q = EmptyString \/ exists c, Regex.is_quote c = true /\ q = String c EmptyString.

(** The shape of a data attribute with the value [v]. *)
Definition data_attribute_shape (text v : string) : Prop :=
  exists attr q1 q2,
    text = "[data-" ++ attr ++ "=" ++ q1 ++ v ++ q2 ++ "]"
    /\ Spec.nonempty attr = true
    /\ Str.forallb Regex.not_equals attr = true
    /\ Spec.nonempty v = true
    /\ Str.forallb Regex.is_value_char v = true
    /\ optional_quote q1 /\ optional_quote q2.

(** A path argument that is a string and not absolute: [resolve] goes on to
    the argument before it. *)
Definition relative_argument (v : jsval) : Prop :=
  exists p, v = JStr p /\ Path.is_absolute p = false.

(** A name without a path separator. *)
Definition slash_free (s : string) : bool :=
  Str.forallb (fun c => negb (Chars.eqc Chars.SLASH c)) s.

(** [dir] extended by the name [name]. *)
Definition child (dir name : string) : string :=
  if String.eqb dir "/" then dir ++ name else dir ++ "/" ++ name.

(** The selector that [generatePageObject] takes from an action: the
    [selector] parameter when it is a non-empty string. *)
Definition recorded_selector (a : Types.CodegenAction) : option string :=
  match Js.get (Types.parameters a) "selector" with
  | JStr s => if String.eqb s EmptyString then None else Some s
  | _ => None
  end.

(** A character of [outputPath] that may stand in the literal of the run
    configuration: any but the single quote and the line terminators (a
    backslash is replaced before it is written). *)
Definition config_path_char (c : ascii) : bool :=
  negb (Chars.eqc Chars.SQUOTE c || Chars.is_line_end c).

(** A name that [normalizeString] keeps as one segment: without a
    separator, and none of the empty name, [.] and [..]. *)
Definition regular_name (s : string) : bool :=
  slash_free s
  && negb (String.eqb s EmptyString || String.eqb s "." || String.eqb s "..").

(** What makes a text the page-object source of a session: the class
    [AppPage], built on a page, with a locator declared under the name
    derived from every selector that the session records. *)
Definition page_object_source (session : Types.CodegenSession) (text : string) : Prop :=
  Str.Contains "export class AppPage {" text
  /\ Str.Contains "this.page = page;" text
  /\ forall a s, In a (session_actions session) -> recorded_selector a = Some s ->
       exists first,
         Str.Contains ("  " ++ deriveLocatorName s ++ " = '" ++ first ++ "';") text.

(** What makes a text a run configuration with the test directory
    [testDir]. *)
Definition run_configuration (testDir text : string) : Prop :=
  Str.Contains "export default defineConfig({" text
  /\ Str.Contains ("testDir: '" ++ testDir ++ "'") text.

(** ** Sample inputs *)

(** A click, recorded at the time [stamp]. *)
Definition click_example (stamp : Z) : Types.CodegenAction := {|
  Types.toolName := "playwright_click";
  Types.parameters := {[ "selector" := JStr "#submit" ]};
  Types.timestamp := stamp;
|}.

Definition action (tool : string) (params : list (string * jsval)) : Types.CodegenAction :=
  {| Types.toolName := tool; Types.parameters := list_to_map params; Types.timestamp := 0 |}.

Definition sample_actions : list Types.CodegenAction :=
  [ action "playwright_navigate" [("url", JStr "https://example.com")];
    action "playwright_drag" [("selector", JStr ".handle")];
    action "playwright_click" [("selector", JStr "#submit")] ].

Definition sample_session : Types.CodegenSession := {|
  Types.id := JStr "abc123";
  Types.startTime := 1709164800000;
  Types.actions := Types.ActionArray sample_actions;
|}.

Definition default_generator : PlaywrightGenerator := {| options := DEFAULT_OPTIONS |}.

Definition with_options (outputPath testNamePrefix language template : option jsval)
  : Types.CodegenOptions := {|
  Types.outputPath := outputPath;
  Types.testNamePrefix := testNamePrefix;
  Types.includeComments := None;
  Types.language := language;
  Types.template := template;
|}.

(** A session whose [id] is missing. *)
Definition session_without_id : Types.CodegenSession := {|
  Types.id := JUndefined;
  Types.startTime := 0;
  Types.actions := Types.ActionArray sample_actions;
|}.

(** A session of one action. *)
Definition session_of (a : Types.CodegenAction) : Types.CodegenSession := {|
  Types.id := JStr "abc123";
  Types.startTime := 1709164800000;
  Types.actions := Types.ActionArray [a];
|}.

(** A click on a text selector with an apostrophe. *)
Definition quote_click : Types.CodegenAction :=
  action "playwright_click" [("selector", JStr "text=Don't show again")].

(** * Properties *)

(** ** Strings *)

#[local] Arguments String.append s1%_string s2%_string : simpl nomatch.

Lemma app_cons_s (x : ascii) (a b : string) : String x a ++ b = String x (a ++ b).
Proof. reflexivity. Qed.

Lemma app_assoc_s (a b c : string) : (a ++ b) ++ c = a ++ b ++ c.
Proof.
  induction a as [|x a IH]; [reflexivity|].
  rewrite !app_cons_s. now rewrite IH.
Qed.

Lemma app_nil_r_s (a : string) : a ++ EmptyString = a.
Proof.
  induction a as [|x a IH]; [reflexivity|].
  rewrite app_cons_s. now rewrite IH.
Qed.

Lemma contains_intro (pre sub post s : string) :
  s = pre ++ sub ++ post -> Str.Contains sub s.
Proof. intros ->. now exists pre, post. Qed.

Lemma contains_cons (sub : string) (c : ascii) (s : string) :
  Str.Contains sub s -> Str.Contains sub (String c s).
Proof. intros (pre & post & ->). now exists (String c pre), post. Qed.

Lemma contains_prefix (sub post : string) : Str.Contains sub (sub ++ post).
Proof. now exists EmptyString, post. Qed.

Lemma contains_app_r (sub a b : string) :
  Str.Contains sub b -> Str.Contains sub (a ++ b).
Proof.
  intros (pre & post & ->). exists (a ++ pre), post.
  now rewrite app_assoc_s.
Qed.

Lemma contains_app_l (sub a b : string) :
  Str.Contains sub a -> Str.Contains sub (a ++ b).
Proof.
  intros (pre & post & ->). exists pre, (post ++ b).
  now rewrite !app_assoc_s.
Qed.

(** ** Steps *)

Lemma recognized_iff (action : Types.CodegenAction) :
  Spec.recognized action = true <-> In (Types.toolName action) Spec.recognized_tools.
Proof.
  unfold Spec.recognized. rewrite existsb_exists. split.
  - intros (t & Hin & Heq). apply String.eqb_eq in Heq. now subst.
  - intros Hin. exists (Types.toolName action). split; [assumption|].
    apply String.eqb_refl.
Qed.

(** The step of a recognized action is read from the tool name and the
    parameters only. *)
Lemma convertActionToStep_ext (a b : Types.CodegenAction) :
  Types.toolName a = Types.toolName b ->
  Types.parameters a = Types.parameters b ->
  convertActionToStep a = convertActionToStep b.
Proof. unfold convertActionToStep. now intros -> ->. Qed.

Lemma convertActionToStep_recognized (a : Types.CodegenAction) :
  is_Some (convertActionToStep a) <-> Spec.recognized a = true.
Proof.
  unfold convertActionToStep, Spec.recognized, Spec.recognized_tools. simpl.
  repeat match goal with
  | |- context [String.eqb ?x ?y] => destruct (String.eqb x y)
  end; simpl; split; intros H; try reflexivity; try discriminate;
  try (eexists; reflexivity); destruct H as [? H]; discriminate.
Qed.

(** Closes [Str.Contains frag step] for a step that is a chain of appends
    starting with literal text: the fragment is looked for at each character
    of the literal text in turn. *)
Ltac contains_here :=
  match goal with
  | |- Str.Contains ?frag ?s =>
      exists EmptyString; eexists; simpl;
      repeat (rewrite app_assoc_s; simpl); reflexivity
  end.

Ltac find_fragment :=
  simpl;
  repeat first [ solve [contains_here] | apply contains_cons | apply contains_app_r ].

Ltac all_fragments :=
  repeat match goal with
  | |- Forall _ (_ :: _) => constructor; [find_fragment|]
  | |- Forall _ [] => constructor
  end.

Lemma expected_fragments_in_step (a : Types.CodegenAction) (step : string) :
  convertActionToStep a = Some step ->
  Forall (fun frag => Str.Contains frag step) (Spec.expected_fragments a).
Proof.
  unfold convertActionToStep, Spec.expected_fragments.
  set (ps := Types.parameters a).
  repeat match goal with
  | |- context [String.eqb ?x ?y] => destruct (String.eqb x y)
  end; intros Hs; inversion Hs; subst step; clear Hs.
  - unfold generateNavigateStep. fold ps.
    destruct (Js.truthy (Js.get ps "waitUntil")); all_fragments.
  - unfold generateFillStep; fold ps; all_fragments.
  - unfold generateClickStep; fold ps; all_fragments.
  - unfold generateScreenshotStep; fold ps.
    destruct (Js.truthy (Js.get ps "path"));
      destruct (Js.truthy match Js.get ps "fullPage" with JUndefined => JBool false | v => v end);
      all_fragments.
  - unfold generateExpectResponseStep; fold ps; all_fragments.
  - unfold generateAssertResponseStep; fold ps.
    destruct (Js.truthy (Js.get ps "value")); all_fragments.
  - unfold generateHoverStep; fold ps; all_fragments.
  - unfold generateSelectStep; fold ps; all_fragments.
  - unfold generateCustomUserAgentStep; fold ps; all_fragments.
Qed.

(** C2. Converting a recognized action to a step is a function of the tool
    name and the parameters alone: two actions that agree on them (whatever
    their time stamps) yield the same text. The text contains the library
    call expected for the tool with the literal parameter values, e.g.
    [page.click('s')] for a click on the selector [s]. *)
Theorem recognized_action_step (a b : Types.CodegenAction) :
  Spec.recognized a = true ->
  Types.toolName a = Types.toolName b ->
  Types.parameters a = Types.parameters b ->
  exists step,
    convertActionToStep a = Some step
    /\ convertActionToStep b = Some step
    /\ Forall (fun frag => Str.Contains frag step) (Spec.expected_fragments a).
Proof.
  intros Hrec Htool Hparams.
  apply convertActionToStep_recognized in Hrec. destruct Hrec as [step Hstep].
  exists step. split; [assumption|]. split.
  - now rewrite <- (convertActionToStep_ext a b Htool Hparams).
  - now apply expected_fragments_in_step.
Qed.

Lemma recognized_action_step_witness :
  exists step,
    convertActionToStep (click_example 1) = Some step
    /\ convertActionToStep (click_example 2) = Some step
    /\ Forall (fun frag => Str.Contains frag step) ["page.click('#submit')"].
Proof.
  apply (recognized_action_step (click_example 1) (click_example 2));
    reflexivity.
Defined.

(** ** The steps of a test case *)

Lemma step_truthy (a : Types.CodegenAction) (step : string) :
  convertActionToStep a = Some step -> Js.truthy (JStr step) = true.
Proof.
  unfold convertActionToStep.
  repeat match goal with
  | |- context [String.eqb ?x ?y] => destruct (String.eqb x y)
  end; intros Hs; inversion Hs; reflexivity.
Qed.

Lemma collect_steps_cons (a : Types.CodegenAction) (l : list Types.CodegenAction) :
  collect_steps (a :: l)
  = match convertActionToStep a with
    | Some step => step :: collect_steps l
    | None => collect_steps l
    end.
Proof.
  simpl. destruct (convertActionToStep a) as [step|] eqn:Hstep; [|reflexivity].
  apply step_truthy in Hstep. simpl in Hstep. now rewrite Hstep.
Qed.

Lemma collect_steps_filter (l : list Types.CodegenAction) :
  collect_steps (List.filter Spec.recognized l) = collect_steps l.
Proof.
  induction l as [|a l IH]; [reflexivity|].
  rewrite collect_steps_cons. cbn [List.filter].
  destruct (Spec.recognized a) eqn:Hrec.
  - rewrite collect_steps_cons. now rewrite IH.
  - destruct (convertActionToStep a) as [step|] eqn:Hstep; [|assumption].
    assert (Spec.recognized a = true) as Hyes
      by (apply convertActionToStep_recognized; now exists step).
    congruence.
Qed.

Lemma collect_steps_recognized (l : list Types.CodegenAction) :
  List.map Some (collect_steps l)
  = List.map convertActionToStep (List.filter Spec.recognized l).
Proof.
  induction l as [|a l IH]; [reflexivity|].
  rewrite collect_steps_cons. cbn [List.filter].
  destruct (convertActionToStep a) as [step|] eqn:Hstep.
  - assert (Spec.recognized a = true) as ->
      by (apply convertActionToStep_recognized; now exists step).
    cbn [List.map]. now rewrite Hstep, IH.
  - destruct (Spec.recognized a) eqn:Hrec; [|assumption].
    apply convertActionToStep_recognized in Hrec. destruct Hrec as [? Hrec].
    congruence.
Qed.

Lemma createTestCase_recognized_only (this : PlaywrightGenerator)
    (session : Types.CodegenSession) :
  createTestCase this (Spec.recognized_only session) = createTestCase this session.
Proof.
  unfold createTestCase, session_actions, Spec.recognized_only. simpl.
  destruct (Types.actions session) as [l|v]; [|reflexivity].
  now rewrite collect_steps_filter.
Qed.

Lemma generateTest_recognized_only (cwd : string) (this : PlaywrightGenerator)
    (session : Types.CodegenSession) :
  same_outcome
    (generateTest cwd this (Types.SessionObject session))
    (generateTest cwd this (Types.SessionObject (Spec.recognized_only session))).
Proof.
  unfold generateTest.
  rewrite createTestCase_recognized_only.
  unfold generatePageObject, getOutputFilePath, generatePlaywrightConfig.
  destruct session as [sid t acts]. simpl.
  destruct acts as [l|v]; [|reflexivity]. simpl.
  destruct (createTestCase this _) as [tc|e]; [|reflexivity]. simpl.
  destruct (Js.is_str "pom" _); simpl.
  - destruct (Path.resolve cwd [_; _; _]) as [p|e]; [|reflexivity]. simpl.
    destruct (negb (Js.truthy sid)); [reflexivity|].
    destruct (Required.testNamePrefix (options this)); try reflexivity. simpl.
    destruct (Path.resolve cwd [_; _]) as [fp|e]; [|reflexivity]. simpl.
    destruct (Required.outputPath (options this)); try reflexivity. simpl.
    destruct (Path.resolve cwd [_]) as [cp|e]; [|reflexivity]. simpl.
    repeat split.
  - destruct (negb (Js.truthy sid)); [reflexivity|].
    destruct (Required.testNamePrefix (options this)); try reflexivity. simpl.
    destruct (Path.resolve cwd [_; _]) as [fp|e]; [|reflexivity]. simpl.
    repeat split.
Qed.

(** ** Paths *)

Lemma resolve_loop_strings (cwd : string) (l : list jsval) (acc : string) :
  Forall (fun v => Js.is_string v = true) l ->
  exists r, Path.resolve_loop cwd l acc = Ok r.
Proof.
  intros Hall. revert acc.
  induction Hall as [|v l Hv _ IH]; intros acc; simpl.
  - destruct (String.eqb cwd EmptyString); eexists; reflexivity.
  - destruct v as [| |b|n|p]; try discriminate.
    destruct (String.eqb p EmptyString); [apply IH|].
    destruct (Path.is_absolute p); [eexists; reflexivity | apply IH].
Qed.

(** [path.resolve] returns for arguments that are strings. *)
Lemma resolve_strings (cwd : string) (args : list jsval) :
  Forall (fun v => Js.is_string v = true) args ->
  exists p, Path.resolve cwd args = Ok p.
Proof.
  intros Hall. unfold Path.resolve.
  destruct (resolve_loop_strings cwd (rev args) EmptyString) as [[p abs] ->].
  - apply Forall_rev. exact Hall.
  - simpl. destruct abs; eexists; reflexivity.
Qed.

(** An empty first argument is skipped. *)
Lemma resolve_empty_first (cwd : string) (args : list jsval) :
  Path.resolve cwd (JStr EmptyString :: args) = Path.resolve cwd args.
Proof.
  unfold Path.resolve. simpl rev.
  assert (forall l acc,
    Path.resolve_loop cwd (l ++ [JStr EmptyString])%list acc = Path.resolve_loop cwd l acc)
    as Hskip.
  { induction l as [|v l IH]; intros acc; simpl.
    - reflexivity.
    - destruct v as [| |b|n|p]; try reflexivity.
      destruct (String.eqb p EmptyString); [apply IH|].
      destruct (Path.is_absolute p); [reflexivity | apply IH]. }
  now rewrite Hskip.
Qed.

(** ** Results of [generateTest] *)

Lemma constructor_ok_iff (opts : Types.CodegenOptions) :
  Spec.rejected opts = false <-> constructor opts = Ok {| options := spread opts |}.
Proof.
  unfold constructor, validateOptions, Spec.rejected. simpl.
  destruct (Js.truthy _ && negb (Js.is_string (read (Types.outputPath opts))));
    [simpl; split; discriminate|].
  destruct (Js.truthy _ && negb (Js.is_string (read (Types.testNamePrefix opts))));
    [simpl; split; discriminate|].
  destruct (negb (Js.is_undefined (read (Types.includeComments opts))) && _);
    [simpl; split; discriminate|].
  destruct (Js.is_undefined (read (Types.language opts)));
    destruct (Js.is_str "typescript" _); destruct (Js.is_str "javascript" _);
    simpl; try (split; discriminate);
    destruct (Js.is_undefined (read (Types.template opts)));
    destruct (Js.is_str "plain" _); destruct (Js.is_str "pom" _);
    simpl; split; try discriminate; reflexivity.
Qed.

Lemma constructor_rejects (opts : Types.CodegenOptions) :
  Spec.rejected opts = true ->
  exists msg, constructor opts = Err (Error msg) /\ In msg Spec.option_messages.
Proof.
  unfold constructor, validateOptions, Spec.rejected, Spec.option_messages. simpl.
  destruct (Js.truthy _ && negb (Js.is_string (read (Types.outputPath opts))));
    [intros _; eexists; split; [reflexivity | simpl; tauto]|].
  destruct (Js.truthy _ && negb (Js.is_string (read (Types.testNamePrefix opts))));
    [intros _; eexists; split; [reflexivity | simpl; tauto]|].
  destruct (negb (Js.is_undefined (read (Types.includeComments opts))) && _);
    [intros _; eexists; split; [reflexivity | simpl; tauto]|].
  destruct (Js.is_undefined (read (Types.language opts)));
    destruct (Js.is_str "typescript" _); destruct (Js.is_str "javascript" _);
    simpl; try (intros _; eexists; split; [reflexivity | simpl; tauto]);
    destruct (Js.is_undefined (read (Types.template opts)));
    destruct (Js.is_str "plain" _); destruct (Js.is_str "pom" _);
    simpl; try discriminate;
    intros _; eexists; (split; [reflexivity | simpl; tauto]).
Qed.

Lemma createTestCase_ok (this : PlaywrightGenerator) (session : Types.CodegenSession) :
  Z.abs (Types.startTime session) <= Date.max_time ->
  exists testCase, createTestCase this session = Ok testCase.
Proof.
  intros Htime. unfold createTestCase, Date.iso_date.
  apply Z.leb_le in Htime. rewrite Htime.
  destruct (Date.civil_from_days _) as [[y m] d]. simpl. eexists; reflexivity.
Qed.

Lemma generatePageObject_ok (cwd : string) (this : PlaywrightGenerator)
    (session : Types.CodegenSession) :
  Js.is_string (Required.outputPath (options this)) = true ->
  exists pageObject, generatePageObject cwd this session = Ok pageObject.
Proof.
  intros Hop. unfold generatePageObject.
  destruct (Required.outputPath (options this)) as [| |?|?|op]; try discriminate.
  destruct (resolve_strings cwd
    [JStr op; JStr "pages"; JStr ("AppPage." ++ language_ext this)]) as [p ->].
  - repeat constructor.
  - simpl. eexists; reflexivity.
Qed.

(** What [generateTest] returns for a valid session, stage by stage. *)
Lemma generateTest_valid (cwd : string) (this : PlaywrightGenerator)
    (session : Types.CodegenSession) :
  Spec.string_options this ->
  Spec.valid_session session ->
  exists testCase filePath pageObject config,
    createTestCase this session = Ok testCase
    /\ getOutputFilePath cwd this session = Ok filePath
    /\ generatePageObject cwd this session = Ok pageObject
    /\ generatePlaywrightConfig cwd this = Ok (Some config)
    /\ generateTest cwd this (Types.SessionObject session)
       = Ok {|
           Types.testCode :=
             if Js.is_str "pom" (Required.template (options this))
             then generatePomTestCode this testCase
             else generateTestCode testCase;
           Types.filePath := filePath;
           Types.sessionId := Types.id session;
           Types.files :=
             if Js.is_str "pom" (Required.template (options this))
             then Some [pageObject; config] else None;
         |}.
Proof.
  intros [Hop Hpre] ([l Hl] & Hid & Htime).
  destruct (Required.outputPath (options this)) as [| |?|?|op] eqn:Eop;
    try discriminate.
  destruct (Required.testNamePrefix (options this)) as [| |?|?|pre] eqn:Epre;
    try discriminate.
  destruct (createTestCase_ok this session Htime) as [tc Htc].
  assert (exists fp, getOutputFilePath cwd this session = Ok fp) as [fp Hfp].
  { unfold getOutputFilePath. rewrite Hid, Eop, Epre. simpl.
    apply resolve_strings. repeat constructor. }
  destruct (generatePageObject_ok cwd this session) as [po Hpo];
    [now rewrite Eop|].
  assert (exists cfg, generatePlaywrightConfig cwd this = Ok (Some cfg)) as [cfg Hcfg].
  { unfold generatePlaywrightConfig. rewrite Eop. simpl.
    match goal with
    | |- context [Path.resolve cwd ?args] =>
        destruct (resolve_strings cwd args) as [p ->]; [repeat constructor|]
    end.
    simpl. eexists; reflexivity. }
  exists tc, fp, po, cfg. repeat (split; [assumption|]).
  unfold generateTest. rewrite Hl, Htc, Hfp. simpl.
  destruct (Js.is_str "pom" _); simpl; [|reflexivity].
  rewrite Hpo, Hcfg. reflexivity.
Qed.

Lemma sample_session_valid : Spec.valid_session sample_session.
Proof.
  split; [now exists sample_actions|]. split; [reflexivity|].
  unfold Date.max_time. simpl. lia.
Qed.

Lemma default_string_options : Spec.string_options default_generator.
Proof. split; reflexivity. Qed.

(** C3. An action whose tool name is not among the nine contributes no step
    and does not make [generateTest] fail. [createTestCase] returns a test
    case for every start time in the range of [Date], and its steps are the
    renderings, in order, of exactly the recognized actions. The outcome of
    [generateTest] is the one of the session without the other actions; for
    a session with an id and a start time in range, and string path and
    prefix options, it is a result, whatever unrecognized actions the
    session holds, whose test code is made of that test case. *)
Theorem unrecognized_actions_skipped (cwd : string) (this : PlaywrightGenerator)
    (session : Types.CodegenSession) (l : list Types.CodegenAction) :
  Types.actions session = Types.ActionArray l ->
  (forall a, In a l -> Spec.recognized a = false -> convertActionToStep a = None)
  /\ is_ok (createTestCase this session)
     = (Z.abs (Types.startTime session) <=? Date.max_time)
  /\ same_outcome
       (generateTest cwd this (Types.SessionObject session))
       (generateTest cwd this (Types.SessionObject (Spec.recognized_only session)))
  /\ (Z.abs (Types.startTime session) <= Date.max_time ->
      exists testCase,
        createTestCase this session = Ok testCase
        /\ List.map Some (Types.steps testCase)
           = List.map convertActionToStep (List.filter Spec.recognized l)
        /\ (Js.truthy (Types.id session) = true ->
            Spec.string_options this ->
            exists r,
              generateTest cwd this (Types.SessionObject session) = Ok r
              /\ Types.testCode r
                 = (if Js.is_str "pom" (Required.template (options this))
                    then generatePomTestCode this testCase
                    else generateTestCode testCase))).
Proof.
  intros Hactions. split; [|split; [|split]].
  - intros a _ Hno.
    destruct (convertActionToStep a) as [step|] eqn:Hstep; [|reflexivity].
    assert (Spec.recognized a = true)
      by (apply convertActionToStep_recognized; now exists step).
    congruence.
  - unfold createTestCase, Date.iso_date, bind.
    destruct (Z.abs (Types.startTime session) <=? Date.max_time); [|reflexivity].
    now destruct (Date.civil_from_days _) as [[y m] d].
  - apply generateTest_recognized_only.
  - intros Htime.
    destruct (createTestCase_ok this session Htime) as [tc Htc].
    exists tc. split; [exact Htc|]. split.
    + revert Htc. unfold createTestCase, session_actions. rewrite Hactions.
      destruct (Date.iso_date _); simpl; [|discriminate].
      intros [= <-]. simpl. apply collect_steps_recognized.
    + intros Hid Hopts.
      destruct (generateTest_valid cwd this session Hopts)
        as (tc' & fp & po & cfg & Htc' & _ & _ & _ & Hgen).
      { split; [now exists l|]. now split. }
      rewrite Htc in Htc'. injection Htc' as <-.
      eexists. split; [exact Hgen | reflexivity].
Qed.

(** The sample session has an action of the unrecognized tool
    [playwright_drag] between a navigation and a click. *)
Lemma unrecognized_actions_skipped_witness :
  exists testCase r,
    createTestCase default_generator sample_session = Ok testCase
    /\ List.map Some (Types.steps testCase)
       = [ convertActionToStep
             (action "playwright_navigate" [("url", JStr "https://example.com")]);
           convertActionToStep
             (action "playwright_click" [("selector", JStr "#submit")]) ]
    /\ generateTest "/work" default_generator (Types.SessionObject sample_session)
       = Ok r
    /\ Types.testCode r = generatePomTestCode default_generator testCase.
Proof.
  destruct (unrecognized_actions_skipped "/work" default_generator sample_session
              sample_actions eq_refl) as (_ & _ & _ & Hsteps).
  destruct Hsteps as (testCase & Htc & Hsteps & Hgen).
  { unfold Date.max_time. cbn [sample_session Types.startTime]. lia. }
  destruct (Hgen eq_refl default_string_options) as (r & Hr & Hcode).
  exists testCase, r. repeat split; assumption.
Defined.

(** ** Generated files *)

Lemma language_ext_ts (this : PlaywrightGenerator) :
  Required.language (options this) = JStr "typescript" -> language_ext this = "ts".
Proof. unfold language_ext. now intros ->. Qed.

Lemma language_ext_js (this : PlaywrightGenerator) :
  Required.language (options this) = JStr "javascript" -> language_ext this = "js".
Proof. unfold language_ext. now intros ->. Qed.

(** The paths of the two files for the default options. *)
Example generated_files_default :
  option_map (List.map Types.path)
    match generateTest "/work" default_generator (Types.SessionObject sample_session) with
    | Ok r => Types.files r
    | Err _ => None
    end
  = Some ["/work/tests/pages/AppPage.ts"; "/work/playwright.config.ts"].
Proof. vm_compute. reflexivity. Qed.

(** ** The output file path *)

Lemma sanitize_char_correct (c : ascii) :
  (if Chars.is_file_char (Chars.lower c) then Chars.lower c else "_"%char)
  = Spec.sanitize_char c.
Proof.
  destruct c as [[] [] [] [] [] [] [] []]; vm_compute; reflexivity.
Qed.

Lemma sanitized_prefix (prefix : string) :
  Str.replace_non_file_chars (Str.toLowerCase prefix) = Str.map Spec.sanitize_char prefix.
Proof.
  unfold Str.replace_non_file_chars, Str.toLowerCase.
  induction prefix as [|c s IH]; [reflexivity|].
  simpl. now rewrite sanitize_char_correct, IH.
Qed.

(** What the sanitized prefix looks like, character by character. *)
Lemma sanitize_char_range (c : ascii) :
  Chars.is_file_char (Spec.sanitize_char c) = true.
Proof.
  destruct c as [[] [] [] [] [] [] [] []]; vm_compute; reflexivity.
Qed.

(** C8. For a valid session with a non-empty id, the output file path is the
    resolution, under the configured outputPath, of the file name
    s + [_] + id + [.spec.ts], where s is the prefix in lower case with every
    character outside [[a-z0-9_]] replaced by [_]; the language option plays
    no part in it. *)
Theorem output_file_path (cwd : string) (this : PlaywrightGenerator)
    (session : Types.CodegenSession) (outputPath prefix id : string) :
  Required.outputPath (options this) = JStr outputPath ->
  Required.testNamePrefix (options this) = JStr prefix ->
  Types.id session = JStr id ->
  id <> EmptyString ->
  Spec.valid_session session ->
  exists r,
    generateTest cwd this (Types.SessionObject session) = Ok r
    /\ Path.resolve cwd [JStr outputPath; JStr (Spec.test_file_name prefix id)]
       = Ok (Types.filePath r).
Proof.
  intros Eop Epre Eid Hid Hvalid.
  destruct (generateTest_valid cwd this session) as
    (tc & fp & po & cfg & _ & Hfp & _ & _ & Hgen); [| assumption |].
  { split; [now rewrite Eop | now rewrite Epre]. }
  eexists. split; [exact Hgen|]. simpl.
  unfold getOutputFilePath in Hfp. rewrite Eop, Epre, Eid in Hfp.
  apply String.eqb_neq in Hid. simpl in Hfp. rewrite Hid in Hfp. simpl in Hfp.
  rewrite sanitized_prefix in Hfp. exact Hfp.
Qed.

Lemma output_file_path_witness :
  exists r,
    generateTest "/work" default_generator (Types.SessionObject sample_session) = Ok r
    /\ Path.resolve "/work" [JStr "tests"; JStr (Spec.test_file_name "MCP" "abc123")]
       = Ok (Types.filePath r).
Proof.
  apply (output_file_path "/work" default_generator sample_session "tests" "MCP" "abc123");
    try reflexivity; [discriminate | exact sample_session_valid].
Defined.

Example output_file_path_javascript :
  match constructor (with_options None (Some (JStr "My Test-1")) (Some (JStr "javascript"))
                       (Some (JStr "plain"))) with
  | Ok this =>
      match generateTest "/work" this (Types.SessionObject sample_session) with
      | Ok r => Types.filePath r
      | Err _ => EmptyString
      end
  | Err _ => EmptyString
  end = "/work/tests/my_test_1_abc123.spec.ts".
Proof. vm_compute. reflexivity. Qed.

(** ** Invalid input *)

(** C4. The claim fails on the constructor. An options object whose
    [outputPath] is [null], as a JSON argument can carry it, has an
    ill-typed field, and the constructor returns a generator for it; so it
    does for [false] and [0], and for a [testNamePrefix] that is [null]. The
    check is there, and missed for the falsy values only: the number [7] is
    rejected with the message [outputPath must be a string], and the sibling
    check of [language] rejects [null]. The generator built from [null] then
    fails on the sample session, with the type error of [path.resolve]. *)
Theorem falsy_output_path_accepted :
  let opts := with_options (Some JNull) None None None in
  Spec.ill_typed opts = true
  /\ constructor opts = Ok {| options := spread opts |}
  /\ is_ok (constructor (with_options (Some (JBool false)) None None None)) = true
  /\ is_ok (constructor (with_options (Some (JNum 0)) None None None)) = true
  /\ is_ok (constructor (with_options None (Some JNull) None None)) = true
  /\ constructor (with_options (Some (JNum 7)) None None None)
     = Err (Error "outputPath must be a string")
  /\ constructor (with_options None None (Some JNull) None)
     = Err (Error "language must be 'typescript' or 'javascript'")
  /\ generateTest "/work" {| options := spread opts |}
       (Types.SessionObject sample_session)
     = Err (TypeError "ERR_INVALID_ARG_TYPE").
Proof. cbv zeta. repeat split; vm_compute; reflexivity. Qed.

Lemma generateTest_no_id (cwd : string) (this : PlaywrightGenerator)
    (session : Types.CodegenSession) :
  Js.truthy (Types.id session) = false ->
  is_ok (generateTest cwd this (Types.SessionObject session)) = false.
Proof.
  intros Hid. unfold generateTest, getOutputFilePath. rewrite Hid.
  destruct (Types.actions session); [|reflexivity].
  destruct (createTestCase this session); [|reflexivity]. simpl.
  destruct (Js.is_str "pom" _); [|reflexivity].
  destruct (generatePageObject cwd this session); reflexivity.
Qed.

Lemma generateTest_no_id_message (cwd : string) (this : PlaywrightGenerator)
    (session : Types.CodegenSession) (l : list Types.CodegenAction) :
  Js.truthy (Types.id session) = false ->
  Types.actions session = Types.ActionArray l ->
  Spec.string_options this ->
  Z.abs (Types.startTime session) <= Date.max_time ->
  generateTest cwd this (Types.SessionObject session)
  = Err (Error "Session ID is required").
Proof.
  intros Hid Hl [Hop _] Htime.
  destruct (createTestCase_ok this session Htime) as [tc Htc].
  destruct (generatePageObject_ok cwd this session Hop) as [po Hpo].
  unfold generateTest, getOutputFilePath. rewrite Hid, Hl, Htc, Hpo. simpl.
  destruct (Js.is_str "pom" _); reflexivity.
Qed.

(** X18. What the checks catch. The constructor throws, with one of its five
    messages, for every options object that one of its checks rejects: a
    truthy [outputPath] or [testNamePrefix] that is not a string, a defined
    [includeComments] that is not a boolean, a defined [language] or
    [template] outside its two values; it returns for every other options
    object. [generateTest] fails with [Invalid session data] for a session
    that is not an object or whose [actions] is not an array; it fails for
    every session without an [id], with [Session ID is required] when the
    start time is in range and the path and prefix options are strings. *)
Theorem invalid_input_rejected :
  (forall opts, Spec.rejected opts = true ->
     exists msg, constructor opts = Err (Error msg) /\ In msg Spec.option_messages)
  /\ (forall opts, Spec.rejected opts = false -> is_ok (constructor opts) = true)
  /\ (forall cwd this v,
        generateTest cwd this (Types.SessionPrimitive v)
        = Err (Error "Invalid session data"))
  /\ (forall cwd this session v,
        Types.actions session = Types.NotArray v ->
        generateTest cwd this (Types.SessionObject session)
        = Err (Error "Invalid session data"))
  /\ (forall cwd this session, Spec.malformed session ->
        is_ok (generateTest cwd this session) = false)
  /\ (forall cwd this session l,
        Js.truthy (Types.id session) = false ->
        Types.actions session = Types.ActionArray l ->
        Spec.string_options this ->
        Z.abs (Types.startTime session) <= Date.max_time ->
        generateTest cwd this (Types.SessionObject session)
        = Err (Error "Session ID is required")).
Proof.
  split; [exact constructor_rejects|].
  split; [intros opts H; apply constructor_ok_iff in H; now rewrite H|].
  split; [reflexivity|].
  split; [intros cwd this session v H; unfold generateTest; now rewrite H|].
  split; [|exact generateTest_no_id_message].
  intros cwd this session [v|s v Hactions|s Hid].
  - reflexivity.
  - unfold generateTest. now rewrite Hactions.
  - now apply generateTest_no_id.
Qed.

Lemma invalid_input_rejected_witness :
  (exists msg,
     constructor (with_options (Some (JNum 7)) None None None) = Err (Error msg)
     /\ In msg Spec.option_messages)
  /\ is_ok (generateTest "/work" default_generator (Types.SessionPrimitive JNull)) = false
  /\ generateTest "/work" default_generator (Types.SessionObject session_without_id)
     = Err (Error "Session ID is required").
Proof.
  split; [|split].
  - apply (proj1 invalid_input_rejected). reflexivity.
  - apply (proj1 (proj2 (proj2 (proj2 (proj2 invalid_input_rejected))))).
    constructor.
  - apply (proj2 (proj2 (proj2 (proj2 (proj2 invalid_input_rejected))))
             "/work" default_generator session_without_id sample_actions);
      try reflexivity; [exact default_string_options|].
    unfold Date.max_time. simpl. lia.
Defined.

(** ** Empty strings in the options *)

(** What a result of [generateTest] was made from. *)
Lemma generateTest_inv (cwd : string) (this : PlaywrightGenerator)
    (session : Types.CodegenSession) (r : Types.CodegenResult) :
  generateTest cwd this (Types.SessionObject session) = Ok r ->
  exists testCase,
    createTestCase this session = Ok testCase
    /\ getOutputFilePath cwd this session = Ok (Types.filePath r)
    /\ Types.testCode r
       = (if Js.is_str "pom" (Required.template (options this))
          then generatePomTestCode this testCase
          else generateTestCode testCase)
    /\ (forall pageObject rest, Types.files r = Some (pageObject :: rest) ->
          generatePageObject cwd this session = Ok pageObject).
Proof.
  unfold generateTest, bind.
  destruct (Types.actions session); [|discriminate].
  destruct (createTestCase this session) as [tc|]; [|discriminate].
  destruct (Js.is_str "pom" _).
  - destruct (generatePageObject cwd this session) as [po|]; [|discriminate].
    destruct (getOutputFilePath cwd this session) as [fp|]; [|discriminate].
    destruct (generatePlaywrightConfig cwd this) as [[cfg|]|]; [| |discriminate];
      intros [= <-]; exists tc; cbn; repeat split; intros ? ? [= <- _]; reflexivity.
  - destruct (getOutputFilePath cwd this session) as [fp|]; [|discriminate].
    intros [= <-]. exists tc. cbn. repeat split. discriminate.
Qed.

(** With [outputPath] empty the test file is in the working directory; with
    the default it is under [tests]. *)
Example empty_output_path_file :
  match constructor (set_outputPath (Some (JStr EmptyString)) no_options) with
  | Ok this =>
      match generateTest "/work" this (Types.SessionObject sample_session) with
      | Ok r => (Types.filePath r, option_map (List.map Types.path) (Types.files r))
      | Err _ => (EmptyString, None)
      end
  | Err _ => (EmptyString, None)
  end
  = ("/work/mcp_abc123.spec.ts",
     Some ["/work/pages/AppPage.ts"; "/work/playwright.config.ts"]).
Proof. vm_compute. reflexivity. Qed.

Example default_output_path_file :
  match generateTest "/work" default_generator (Types.SessionObject sample_session) with
  | Ok r => Types.filePath r
  | Err _ => EmptyString
  end = "/work/tests/mcp_abc123.spec.ts".
Proof. vm_compute. reflexivity. Qed.

(** ** The page-state query tools *)

Module VisiblePageProps.
Import VisiblePage.

Lemma first_failing_cases (context : ToolContext) :
  first_failing context =
    match page context with
    | None => Some PageExists
    | Some p =>
        if negb (isConnected (browser context)) then Some BrowserConnected
        else if isClosed p then Some PageOpen
        else None
    end.
Proof.
  unfold first_failing. simpl.
  destruct (page context) as [p|]; simpl; [|reflexivity].
  destruct (isConnected (browser context)); simpl; [|reflexivity].
  destruct (isClosed p); reflexivity.
Qed.

(** C5. The guards are evaluated in the order: a page reference exists, the
    browser is connected, the page is not closed. When one fails, no library
    call is made and the result is a structured failure whose text contains
    the text of the first failing guard. *)
Theorem guards_before_library_call (t : tool) (context : ToolContext) (g : guard) :
  first_failing context = Some g ->
  snd (execute t context) = []
  /\ isError (fst (execute t context)) = true
  /\ Str.Contains (guard_text g) (text (fst (execute t context))).
Proof.
  rewrite first_failing_cases. unfold execute.
  destruct (page context) as [p|].
  - destruct (negb (isConnected (browser context))).
    + intros [= <-]. simpl. repeat split.
      apply (contains_intro EmptyString _ EmptyString). reflexivity.
    + destruct (isClosed p); [|discriminate].
      intros [= <-]. simpl. repeat split.
      apply (contains_intro EmptyString _ EmptyString). reflexivity.
  - intros [= <-]. simpl. repeat split.
    apply (contains_intro EmptyString _ EmptyString). reflexivity.
Qed.

Lemma guards_before_library_call_witness :
  snd (execute VisibleHtmlTool closed_page_context) = []
  /\ isError (fst (execute VisibleHtmlTool closed_page_context)) = true
  /\ Str.Contains "Page is not available or has been closed"
       (text (fst (execute VisibleHtmlTool closed_page_context))).
Proof.
  apply (guards_before_library_call VisibleHtmlTool closed_page_context PageOpen).
  reflexivity.
Defined.

(** C6. When every guard holds: if the library call returns the content [c],
    the result is not an error and its text contains [c]; if the call throws
    with the message [m], the result is a failure whose text contains the
    prefix of the tool and [m]. In both cases the one library call was made. *)
Theorem library_call_result (t : tool) (context : ToolContext) (p : Page) :
  page context = Some p ->
  first_failing context = None ->
  snd (execute t context) = [the_call t]
  /\ match run_call (the_call t) p with
     | Returns c =>
         isError (fst (execute t context)) = false
         /\ Str.Contains c (text (fst (execute t context)))
     | Throws m =>
         isError (fst (execute t context)) = true
         /\ Str.Contains (failure_prefix t) (text (fst (execute t context)))
         /\ Str.Contains m (text (fst (execute t context)))
     end.
Proof.
  intros Hp. rewrite first_failing_cases. unfold execute. rewrite Hp.
  destruct (negb (isConnected (browser context))); [discriminate|].
  destruct (isClosed p); [discriminate|]. intros _.
  destruct (run_call (the_call t) p) as [c|m]; simpl.
  - repeat split.
    apply (contains_intro (heading t ++ ":" ++ Str.nl) _ EmptyString).
    now rewrite app_nil_r_s, !app_assoc_s.
  - repeat split.
    + apply contains_prefix.
    + apply (contains_intro (failure_prefix t ++ ": ") _ EmptyString).
      now rewrite app_nil_r_s, !app_assoc_s.
Qed.

Lemma library_call_result_witness :
  snd (execute VisibleTextTool failing_context) = [Evaluate]
  /\ isError (fst (execute VisibleTextTool failing_context)) = true
  /\ Str.Contains "Failed to get visible text content"
       (text (fst (execute VisibleTextTool failing_context)))
  /\ Str.Contains "Evaluation failed"
       (text (fst (execute VisibleTextTool failing_context))).
Proof.
  apply (library_call_result VisibleTextTool failing_context
           (open_page (Throws "Evaluation failed")));
    reflexivity.
Defined.

(** The cases of the test file. *)
Example visible_text_success :
  execute VisibleTextTool
    {| page := Some (open_page (Returns "Sample visible text content"));
       browser := {| isConnected := true |} |}
  = ({| text := "Visible text content:
Sample visible text content"; isError := false |}, [Evaluate]).
Proof. reflexivity. Qed.

Example visible_html_missing_page :
  execute VisibleHtmlTool {| page := None; browser := {| isConnected := true |} |}
  = ({| text := "Page is not available"; isError := true |}, []).
Proof. reflexivity. Qed.

End VisiblePageProps.

(** ** Literals of the generated test code *)

Lemma scan_app (st : Lexer.state) (a b : string) :
  Lexer.scan st (a ++ b)
  = match Lexer.scan st a with
    | Some st' => Lexer.scan st' b
    | None => None
    end.
Proof.
  revert st. induction a as [|c a IH]; intros st; [reflexivity|].
  rewrite app_cons_s. simpl. destruct (Lexer.step st c); [apply IH | reflexivity].
Qed.

Lemma forallb_app_s (p : ascii -> bool) (a b : string) :
  Str.forallb p (a ++ b) = Str.forallb p a && Str.forallb p b.
Proof.
  induction a as [|c a IH]; [reflexivity|].
  rewrite app_cons_s. simpl. rewrite IH. now rewrite andb_assoc.
Qed.

Lemma literal_char_step (c : ascii) :
  Lexer.literal_char c = true -> Lexer.step Lexer.SQ c = Some Lexer.SQ.
Proof.
  unfold Lexer.literal_char, Lexer.step, Lexer.quoted.
  destruct (Chars.eqc Chars.SQUOTE c); [discriminate|].
  destruct (Chars.eqc Chars.BSLASH c); [discriminate|].
  destruct (Chars.is_line_end c); [discriminate | reflexivity].
Qed.

Lemma code_char_step (c : ascii) :
  Lexer.code_char c = true -> Lexer.step Lexer.Code c = Some Lexer.Code.
Proof.
  unfold Lexer.code_char, Lexer.step, Lexer.from_code.
  destruct (Chars.eqc Chars.SQUOTE c); [discriminate|].
  destruct (Chars.eqc Chars.DQUOTE c); [discriminate|].
  destruct (Chars.eqc Chars.BQUOTE c); [discriminate|].
  destruct (Chars.eqc Chars.SLASH c); [discriminate | reflexivity].
Qed.

(** A safe value leaves the scan inside the literal it stands in. *)
Lemma scan_literal (v rest : string) :
  Lexer.literal_safe v = true ->
  Lexer.scan Lexer.SQ (v ++ rest) = Lexer.scan Lexer.SQ rest.
Proof.
  unfold Lexer.literal_safe. induction v as [|c v IH]; [reflexivity|].
  intros H. simpl in H. apply andb_prop in H as [Hc Hv].
  rewrite app_cons_s. cbn [Lexer.scan].
  rewrite (literal_char_step c Hc). now apply IH.
Qed.

Lemma scan_code (v rest : string) :
  Lexer.code_safe v = true ->
  Lexer.scan Lexer.Code (v ++ rest) = Lexer.scan Lexer.Code rest.
Proof.
  unfold Lexer.code_safe. induction v as [|c v IH]; [reflexivity|].
  intros H. simpl in H. apply andb_prop in H as [Hc Hv].
  rewrite app_cons_s. cbn [Lexer.scan].
  rewrite (code_char_step c Hc). now apply IH.
Qed.

(** A safe value between single quotes is one well-formed literal. *)
Lemma quoted_value_well_formed (v : string) :
  Lexer.literal_safe v = true ->
  Lexer.scan Lexer.Code ("'" ++ v ++ "'") = Some Lexer.Code.
Proof.
  intros Hv. simpl. now rewrite scan_literal.
Qed.

Lemma space_in_code (c : ascii) :
  Chars.is_space c = true -> Lexer.step Lexer.Code c = Some Lexer.Code.
Proof.
  destruct c as [[] [] [] [] [] [] [] []]; vm_compute; intros H;
    first [reflexivity | discriminate].
Qed.

Lemma scan_trim_leading_space (s : string) :
  Lexer.scan Lexer.Code (Str.trim_leading_space s) = Lexer.scan Lexer.Code s.
Proof.
  induction s as [|c s IH]; [reflexivity|].
  simpl. destruct (Chars.is_space c) eqn:Hc; [|reflexivity].
  change (Lexer.from_code c) with
    (match Lexer.step Lexer.Code c with Some st => st | None => Lexer.Code end).
  now rewrite (space_in_code c Hc).
Qed.

(** *** Dates *)

Lemma digit_literal_char (n : Z) :
  Lexer.literal_char (ascii_of_nat (48 + Z.to_nat (n mod 10))) = true.
Proof.
  assert (Z.to_nat (n mod 10) < 10)%nat as Hk.
  { pose proof (Z.mod_pos_bound n 10). lia. }
  set (k := Z.to_nat (n mod 10)) in *. clearbody k.
  do 10 (destruct k as [|k]; [reflexivity|]). lia.
Qed.

Lemma digits_aux_safe (fuel : nat) (n : Z) (acc : string) :
  Lexer.literal_safe acc = true -> Lexer.literal_safe (Js.digits_aux fuel n acc) = true.
Proof.
  revert n acc. induction fuel as [|f IH]; intros n acc Hacc; [exact Hacc|].
  cbn [Js.digits_aux].
  assert (Lexer.literal_safe
            (String (ascii_of_nat (48 + Z.to_nat (n mod 10))) acc) = true) as Hd.
  { unfold Lexer.literal_safe. cbn [Str.forallb].
    rewrite digit_literal_char. exact Hacc. }
  destruct (n <? 10); [exact Hd | now apply IH].
Qed.

Lemma pad_safe (w : nat) (n : Z) : Lexer.literal_safe (Js.pad w n) = true.
Proof.
  unfold Js.pad, Lexer.literal_safe. rewrite forallb_app_s.
  apply andb_true_intro. split.
  - induction (w - String.length (Js.digits n))%nat as [|k IH]; [reflexivity|].
    simpl. exact IH.
  - now apply digits_aux_safe.
Qed.

Lemma iso_date_safe (t : Z) (date : string) :
  Date.iso_date t = Ok date -> Lexer.literal_safe date = true.
Proof.
  unfold Date.iso_date. destruct (Z.abs t <=? Date.max_time); [|discriminate].
  destruct (Date.civil_from_days _) as [[y m] d]. intros [= <-].
  pose proof pad_safe as Hpad. unfold Lexer.literal_safe in *.
  unfold Date.iso_year.
  destruct ((0 <=? y) && (y <=? 9999)); [|destruct (y <? 0)];
    repeat first
      [ rewrite forallb_app_s
      | rewrite Hpad
      | progress cbn [Str.forallb andb]
      | progress change (Lexer.literal_char "-") with true
      | progress change (Lexer.literal_char "+") with true ];
    reflexivity.
Qed.

(** *** Steps *)

(** Names the interpolated values of the goal, each with its safety, and
    forgets where they were read from. *)
Ltac name_values ps Hlit :=
  repeat match goal with
  | |- context [Js.ToString (Js.get ps ?k)] =>
      let v := fresh "v" in
      let Hv := fresh "Hv" in
      pose proof (Hlit k) as Hv;
      set (v := Js.ToString (Js.get ps k)) in *;
      clearbody v
  end.

(** Runs the scan over one piece of literal text at the head of the text. *)
Ltac scan_text :=
  match goal with
  | |- context [Lexer.scan ?st (?x ++ ?rest)] =>
      let r := eval vm_compute in (Lexer.scan st x) in
      lazymatch r with
      | Some _ =>
          rewrite (scan_app st x rest);
          change (Lexer.scan st x) with r; cbv beta iota
      end
  end.

(** Runs the scan over literal text and over safe values. *)
Ltac run_scan :=
  rewrite ?app_assoc_s;
  repeat first
    [ rewrite scan_literal by assumption
    | rewrite scan_code by assumption
    | scan_text ].

Lemma step_scan (a : Types.CodegenAction) (step : string) :
  plain_parameters a ->
  convertActionToStep a = Some step ->
  Lexer.scan Lexer.Code step = Some Lexer.Code.
Proof.
  intros [Hlit Hid]. unfold convertActionToStep.
  set (ps := Types.parameters a) in *.
  repeat match goal with
  | |- context [String.eqb ?x ?y] => destruct (String.eqb x y)
  end; intros Hs; inversion Hs; subst step; clear Hs.
  - unfold generateNavigateStep.
    destruct (Js.truthy _); name_values ps Hlit; run_scan; reflexivity.
  - unfold generateFillStep. name_values ps Hlit. run_scan. reflexivity.
  - unfold generateClickStep. name_values ps Hlit. run_scan. reflexivity.
  - unfold generateScreenshotStep.
    destruct (Js.truthy (Js.get ps "path"));
      destruct (Js.truthy _); name_values ps Hlit;
      cbn [app length Nat.ltb Nat.leb Str.join]; run_scan; reflexivity.
  - unfold generateExpectResponseStep. name_values ps Hlit. run_scan. reflexivity.
  - unfold generateAssertResponseStep.
    destruct (Js.truthy _); name_values ps Hlit; run_scan; reflexivity.
  - unfold generateHoverStep. name_values ps Hlit. run_scan. reflexivity.
  - unfold generateSelectStep. name_values ps Hlit. run_scan. reflexivity.
  - unfold generateCustomUserAgentStep. name_values ps Hlit. run_scan. reflexivity.
Qed.

Lemma collect_steps_scan (l : list Types.CodegenAction) :
  (forall a, In a l -> plain_parameters a) ->
  Forall (fun s => Lexer.scan Lexer.Code s = Some Lexer.Code) (collect_steps l).
Proof.
  induction l as [|a l IH]; intros Hall; [constructor|].
  rewrite collect_steps_cons.
  assert (Forall (fun s => Lexer.scan Lexer.Code s = Some Lexer.Code) (collect_steps l))
    as Hrest by (apply IH; intros b Hb; apply Hall; now right).
  destruct (convertActionToStep a) as [step|] eqn:Hstep; [|exact Hrest].
  constructor; [|exact Hrest].
  apply (step_scan a); [apply Hall; now left | exact Hstep].
Qed.

Lemma scan_join (l : list string) (rest : string) :
  Forall (fun s => Lexer.scan Lexer.Code s = Some Lexer.Code) l ->
  Lexer.scan Lexer.Code (Str.join Str.nl l ++ rest) = Lexer.scan Lexer.Code rest.
Proof.
  induction 1 as [|x l Hx Hl IH]; [reflexivity|].
  destruct l as [|y l].
  - cbn [Str.join]. now rewrite scan_app, Hx.
  - change (Str.join Str.nl (x :: y :: l))
      with (x ++ Str.nl ++ Str.join Str.nl (y :: l)).
    rewrite !app_assoc_s, scan_app, Hx.
    change (Lexer.scan Lexer.Code (Str.nl ++ Str.join Str.nl (y :: l) ++ rest))
      with (Lexer.scan Lexer.Code (Str.join Str.nl (y :: l) ++ rest)).
    exact IH.
Qed.

Lemma trimmed_steps_scan (steps : list string) :
  Forall (fun s => Lexer.scan Lexer.Code s = Some Lexer.Code) steps ->
  Forall (fun s => Lexer.scan Lexer.Code s = Some Lexer.Code)
    (List.map (fun s => "  " ++ Str.trim_leading_space s) steps).
Proof.
  induction 1 as [|x l Hx Hl IH]; [constructor|].
  cbn [List.map]. constructor; [|exact IH].
  change (Lexer.scan Lexer.Code ("  " ++ Str.trim_leading_space x))
    with (Lexer.scan Lexer.Code (Str.trim_leading_space x)).
  now rewrite scan_trim_leading_space.
Qed.

(** *** The test code *)

Lemma generateTestCode_well_formed (name : string) (steps : list string) :
  Lexer.literal_safe name = true ->
  Forall (fun s => Lexer.scan Lexer.Code s = Some Lexer.Code) steps ->
  Lexer.well_formed
    (generateTestCode
       {| Types.name := name; Types.steps := steps; Types.imports := ["test"; "expect"] |})
  = true.
Proof.
  intros Hname Hsteps. unfold Lexer.well_formed, generateTestCode.
  cbn [Types.name Types.steps Types.imports].
  pose proof (fun rest => scan_join steps rest Hsteps) as Hjoin.
  generalize dependent (Str.join Str.nl steps). intros body Hjoin.
  run_scan. rewrite Hjoin. reflexivity.
Qed.

Lemma generatePomTestCode_well_formed (this : PlaywrightGenerator)
    (name : string) (steps imports : list string) :
  Lexer.literal_safe name = true ->
  Forall (fun s => Lexer.scan Lexer.Code s = Some Lexer.Code) steps ->
  Lexer.well_formed
    (generatePomTestCode this
       {| Types.name := name; Types.steps := steps; Types.imports := imports |})
  = true.
Proof.
  intros Hname Hsteps. unfold Lexer.well_formed, generatePomTestCode, language_ext.
  cbn [Types.name Types.steps Types.imports].
  apply trimmed_steps_scan in Hsteps.
  pose proof (fun rest => scan_join _ rest Hsteps) as Hjoin.
  generalize dependent (Str.join Str.nl
    (List.map (fun s => "  " ++ Str.trim_leading_space s) steps)).
  intros text Hjoin.
  destruct (Js.is_str "typescript" _); run_scan; rewrite Hjoin; reflexivity.
Qed.

(** C1, as the code has it. When the name prefix and the recorded parameter
    values contain no single quote, no backslash and no line terminator (and
    the response identifiers, which stand outside a literal, no quote and no
    slash), every value interpolated into a string literal yields a
    well-formed literal: each literal of the returned test code is closed
    where the generator closes it. *)
Theorem generated_literals_well_formed (cwd : string) (this : PlaywrightGenerator)
    (session : Types.CodegenSession) (r : Types.CodegenResult) :
  Lexer.literal_safe (Js.ToString (Required.testNamePrefix (options this))) = true ->
  (forall a, In a (session_actions session) -> plain_parameters a) ->
  generateTest cwd this (Types.SessionObject session) = Ok r ->
  Lexer.well_formed (Types.testCode r) = true.
Proof.
  intros Hprefix Hparams Hgen.
  destruct (generateTest_inv cwd this session r Hgen) as (tc & Htc & _ & -> & _).
  unfold createTestCase, bind in Htc.
  destruct (Date.iso_date (Types.startTime session)) as [date|] eqn:Hdate;
    [|discriminate].
  injection Htc as <-.
  assert (Lexer.literal_safe
            (Js.ToString (Required.testNamePrefix (options this)) ++ "_" ++ date) = true)
    as Hname.
  { unfold Lexer.literal_safe in *. rewrite forallb_app_s, Hprefix.
    cbn [andb]. change ("_" ++ date) with (String "_" date). cbn [Str.forallb].
    apply (iso_date_safe _ _ Hdate). }
  pose proof (collect_steps_scan _ Hparams) as Hsteps.
  destruct (Js.is_str "pom" _).
  - now apply generatePomTestCode_well_formed.
  - now apply generateTestCode_well_formed.
Qed.

Lemma sample_parameters_plain (a : Types.CodegenAction) :
  In a sample_actions -> plain_parameters a.
Proof.
  assert (forall v : option jsval,
            v = None \/ v = Some (JStr "https://example.com")
            \/ v = Some (JStr ".handle") \/ v = Some (JStr "#submit") ->
            Lexer.literal_safe (Js.ToString (default JUndefined v)) = true) as Hval
    by (intros v [->|[->|[->| ->]]]; reflexivity).
  intros [<-|[<-|[<-|[]]]]; (split; [|reflexivity]); intros k; apply Hval;
    unfold action; cbn [Types.parameters list_to_map foldr].
  - destruct (decide (k = "url")) as [->|Hne];
      [right; left; reflexivity | left; now rewrite lookup_insert_ne].
  - destruct (decide (k = "selector")) as [->|Hne];
      [right; right; left; reflexivity | left; now rewrite lookup_insert_ne].
  - destruct (decide (k = "selector")) as [->|Hne];
      [right; right; right; reflexivity | left; now rewrite lookup_insert_ne].
Qed.

Lemma generated_literals_well_formed_witness :
  exists r,
    generateTest "/work" default_generator (Types.SessionObject sample_session) = Ok r
    /\ Lexer.well_formed (Types.testCode r) = true.
Proof.
  destruct (generateTest "/work" default_generator (Types.SessionObject sample_session))
    as [r|e] eqn:Hgen; [|vm_compute in Hgen; discriminate].
  exists r. split; [reflexivity|].
  apply (generated_literals_well_formed "/work" default_generator sample_session r);
    [reflexivity | exact sample_parameters_plain | exact Hgen].
Defined.

(** A click on a selector with a single quote in it: the literal of the
    generated call ends at that quote, and the text after it opens a literal
    that the end of the line cuts. *)
Lemma quote_breaks_test_code :
  exists r,
    generateTest "/work" default_generator (Types.SessionObject (session_of quote_click))
    = Ok r
    /\ Str.Contains "page.click('text=Don't show again');" (Types.testCode r)
    /\ Lexer.well_formed (Types.testCode r) = false.
Proof.
  eexists. split; [vm_compute; reflexivity|]. split.
  - cbn [Types.testCode]. find_fragment.
  - vm_compute. reflexivity.
Qed.

(** The same for a backslash and for a line terminator, and with the plain
    template. *)
Example backslash_breaks_test_code :
  match generateTest "/work" default_generator
          (Types.SessionObject
             (session_of (action "playwright_fill"
                [("selector", JStr "#name");
                 ("value", JStr (String Chars.BSLASH EmptyString))]))) with
  | Ok r => Lexer.well_formed (Types.testCode r)
  | Err _ => true
  end = false.
Proof. vm_compute. reflexivity. Qed.

Example line_end_breaks_test_code :
  match generateTest "/work" default_generator
          (Types.SessionObject
             (session_of (action "playwright_fill"
                [("selector", JStr "#name"); ("value", JStr ("one" ++ Str.nl ++ "two"))])))
  with
  | Ok r => Lexer.well_formed (Types.testCode r)
  | Err _ => true
  end = false.
Proof. vm_compute. reflexivity. Qed.

Example quote_breaks_plain_test_code :
  match constructor (with_options None None None (Some (JStr "plain"))) with
  | Ok this =>
      match generateTest "/work" this (Types.SessionObject (session_of quote_click)) with
      | Ok r => Lexer.well_formed (Types.testCode r)
      | Err _ => true
      end
  | Err _ => true
  end = false.
Proof. vm_compute. reflexivity. Qed.

(** A screenshot with options: the options are rendered as a second object
    inside the first one. *)
Example screenshot_with_options :
  generateScreenshotStep {[ "name" := JStr "home"; "fullPage" := JBool true ]}
  = "
    // Take screenshot
    await page.screenshot({ path: 'home.png', { fullPage: true } });".
Proof. vm_compute. reflexivity. Qed.

(** ** Locator names *)

Section PlusLoop.

Variable p : ascii -> bool.

Lemma span_cons (a : ascii) (t : string) :
  Spec.span p (String a t)
  = if p a then (String a (fst (Spec.span p t)), snd (Spec.span p t))
    else (EmptyString, String a t).
Proof. cbn [Spec.span]. destruct (p a), (Spec.span p t); reflexivity. Qed.

Lemma span_append (s : string) : fst (Spec.span p s) ++ snd (Spec.span p s) = s.
Proof.
  induction s as [|a t IH]; [reflexivity|].
  rewrite span_cons. destruct (p a); [|reflexivity].
  cbn [fst snd]. rewrite app_cons_s. now rewrite IH.
Qed.

Lemma span_run (s : string) : Str.forallb p (fst (Spec.span p s)) = true.
Proof.
  induction s as [|a t IH]; [reflexivity|].
  rewrite span_cons. destruct (p a) eqn:Ha; [|reflexivity].
  cbn [fst Str.forallb]. now rewrite Ha, IH.
Qed.

(** The run is as long as it can be: what follows it does not start with a
    character of the class. *)
Lemma span_rest (s : string) (c : ascii) (t : string) :
  snd (Spec.span p s) = String c t -> p c = false.
Proof.
  induction s as [|a u IH]; [discriminate|].
  rewrite span_cons. destruct (p a) eqn:Ha.
  - cbn [snd]. exact IH.
  - cbn [snd]. now intros [= <- _].
Qed.

Lemma span_empty (s : string) :
  fst (Spec.span p s) = EmptyString -> snd (Spec.span p s) = s.
Proof.
  destruct s as [|a t]; [reflexivity|].
  rewrite span_cons. destruct (p a); [discriminate | reflexivity].
Qed.

Lemma span_nonempty (s : string) :
  Spec.nonempty (fst (Spec.span p s)) = true ->
  exists a t, s = String a t /\ p a = true.
Proof.
  destruct s as [|a t]; [discriminate|].
  rewrite span_cons. destruct (p a) eqn:Ha; [|discriminate].
  intros _. now exists a, t.
Qed.

(** A greedy loop before a rest [k] that cannot start with a character of
    the class takes the longest run, and only that one. *)
Lemma plus_loop_greedy (k : Regex.capture -> string -> option string) :
  (forall st a t, p a = true -> k st (String a t) = None) ->
  forall s st,
    Regex.plus_loop p k st s
    = if Spec.nonempty (fst (Spec.span p s))
      then k (Regex.consume_run (fst (Spec.span p s)) st) (snd (Spec.span p s))
      else None.
Proof.
  intros Hk. induction s as [|a t IH]; intros st; [reflexivity|].
  cbn [Regex.plus_loop]. rewrite span_cons.
  destruct (p a) eqn:Ha; [|reflexivity].
  cbn [fst snd Regex.consume_run]. rewrite IH.
  change (Spec.nonempty (String a (fst (Spec.span p t)))) with true. cbv iota.
  destruct (Spec.nonempty (fst (Spec.span p t))) eqn:Hrun.
  - destruct (k _ (snd (Spec.span p t))) as [g|]; [reflexivity|].
    destruct (span_nonempty t Hrun) as (b & u & -> & Hb). now apply Hk.
  - assert (fst (Spec.span p t) = EmptyString) as Hnil.
    { destruct (fst (Spec.span p t)); [reflexivity | discriminate]. }
    rewrite (span_empty t Hnil), Hnil. reflexivity.
Qed.

(** A greedy loop that ends the capture group and the pattern. *)
Lemma plus_loop_final (s acc : string) :
  Regex.plus_loop p (Regex.exec [Regex.GroupClose])
    {| Regex.opened := true; Regex.text := acc |} s
  = if Spec.nonempty (fst (Spec.span p s))
    then Some (acc ++ fst (Spec.span p s))
    else None.
Proof.
  revert acc. induction s as [|a t IH]; intros acc; [reflexivity|].
  cbn [Regex.plus_loop]. rewrite span_cons.
  destruct (p a) eqn:Ha; [|reflexivity].
  cbn [fst]. change (Spec.nonempty (String a (fst (Spec.span p t)))) with true.
  cbv iota. unfold Regex.consume. cbn [Regex.opened Regex.text]. rewrite IH.
  destruct (Spec.nonempty (fst (Spec.span p t))) eqn:Hrun.
  - rewrite app_assoc_s. reflexivity.
  - assert (fst (Spec.span p t) = EmptyString) as ->.
    { destruct (fst (Spec.span p t)); [reflexivity | discriminate]. }
    reflexivity.
Qed.

End PlusLoop.

Lemma consume_closed (a : ascii) (st : Regex.capture) :
  Regex.opened st = false -> Regex.consume a st = st.
Proof. unfold Regex.consume. now intros ->. Qed.

Lemma consume_run_closed (run : string) (st : Regex.capture) :
  Regex.opened st = false -> Regex.consume_run run st = st.
Proof.
  revert st. induction run as [|a t IH]; intros st Hst; [reflexivity|].
  cbn [Regex.consume_run]. rewrite (consume_closed a st Hst). now apply IH.
Qed.

Lemma consume_run_open (run acc : string) :
  Regex.consume_run run {| Regex.opened := true; Regex.text := acc |}
  = {| Regex.opened := true; Regex.text := acc ++ run |}.
Proof.
  revert acc. induction run as [|a t IH]; intros acc.
  - now rewrite app_nil_r_s.
  - cbn [Regex.consume_run]. unfold Regex.consume. cbn [Regex.opened Regex.text].
    rewrite IH. now rewrite app_assoc_s.
Qed.

(** The patterns [/#(name+)/] and [/\.(name+)/] at the start of [s]. *)
Lemma exec_token_pattern (mark : ascii) (s : string) :
  Regex.exec [Regex.Lit mark; Regex.GroupOpen; Regex.Plus Chars.is_name_char;
              Regex.GroupClose] Regex.start s
  = match s with
    | String c t =>
        if Chars.eqc mark c && Spec.nonempty (fst (Spec.span Chars.is_name_char t))
        then Some (fst (Spec.span Chars.is_name_char t))
        else None
    | EmptyString => None
    end.
Proof.
  destruct s as [|c t]; [reflexivity|].
  cbn [Regex.exec]. destruct (Chars.eqc mark c); [|reflexivity].
  rewrite plus_loop_final. cbn [andb].
  destruct (Spec.nonempty _); reflexivity.
Qed.

Lemma search_token_pattern (mark : ascii) (s : string) :
  Regex.search [Regex.Lit mark; Regex.GroupOpen; Regex.Plus Chars.is_name_char;
                Regex.GroupClose] s
  = Spec.first_token mark s.
Proof.
  induction s as [|c t IH]; [reflexivity|].
  cbn [Regex.search Spec.first_token]. rewrite exec_token_pattern.
  destruct (Chars.eqc mark c && _); [reflexivity | exact IH].
Qed.

(** Literal text at the head of a pattern, outside the capture group. *)
Lemma exec_lits (pre : string) (r : list Regex.item) (st : Regex.capture) (s : string) :
  Regex.opened st = false ->
  Regex.exec (Regex.lits pre ++ r)%list st s
  = match Spec.strip_prefix pre s with
    | Some s' => Regex.exec r st s'
    | None => None
    end.
Proof.
  intros Hst. revert s. unfold Regex.lits.
  induction pre as [|a pre IH]; intros s; [now destruct s|].
  cbn [list_ascii_of_string List.map app Regex.exec Spec.strip_prefix].
  destruct s as [|b s]; [reflexivity|].
  destruct (Chars.eqc a b); [|reflexivity].
  rewrite (consume_closed b st Hst). apply IH.
Qed.

Lemma quote_not_bracket (a : ascii) :
  Regex.is_quote a = true -> Chars.eqc "]" a = false.
Proof.
  destruct (Chars.eqc "]" a) eqn:Ha; [|reflexivity].
  apply Ascii.eqb_eq in Ha. subst a. discriminate.
Qed.

Lemma value_char_cases (a : ascii) :
  Regex.is_value_char a = true ->
  Regex.is_quote a = false /\ Chars.eqc "]" a = false.
Proof.
  unfold Regex.is_value_char. intros H. apply negb_true_iff in H.
  now apply orb_false_elim in H.
Qed.

Lemma prefix_bracket (s : string) :
  String.prefix "]" s
  = match s with
    | String b _ => Chars.eqc "]" b
    | EmptyString => false
    end.
Proof.
  destruct s as [|b u]; [reflexivity|].
  cbn [String.prefix]. unfold Chars.eqc.
  destruct (ascii_dec "]" b) as [<-|Hne].
  - now destruct u.
  - symmetry. now apply Ascii.eqb_neq.
Qed.

(** The end of the data pattern, after the capture group: an optional quote
    and the closing bracket. *)
Lemma exec_close (st : Regex.capture) (s : string) :
  Regex.opened st = false ->
  Regex.exec [Regex.Opt Regex.is_quote; Regex.Lit "]"] st s
  = if String.prefix "]" (Spec.skip_quote s) then Some (Regex.text st) else None.
Proof.
  intros Hst. destruct s as [|a t]; [reflexivity|].
  cbn [Regex.exec Spec.skip_quote]. rewrite !prefix_bracket.
  destruct (Regex.is_quote a) eqn:Hq.
  - rewrite (quote_not_bracket a Hq). rewrite (consume_closed a st Hst).
    destruct t as [|b u]; [reflexivity|].
    rewrite (consume_closed b st Hst). destruct (Chars.eqc "]" b); reflexivity.
  - rewrite (consume_closed a st Hst). destruct (Chars.eqc "]" a); reflexivity.
Qed.

Lemma exec_plus (p : ascii -> bool) (r : list Regex.item) (st : Regex.capture)
    (s : string) :
  Regex.exec (Regex.Plus p :: r) st s = Regex.plus_loop p (Regex.exec r) st s.
Proof. reflexivity. Qed.

Lemma exec_group_open (r : list Regex.item) (st : Regex.capture) (s : string) :
  Regex.exec (Regex.GroupOpen :: r) st s
  = Regex.exec r {| Regex.opened := true; Regex.text := EmptyString |} s.
Proof. reflexivity. Qed.

Lemma exec_group_close (r : list Regex.item) (st : Regex.capture) (s : string) :
  Regex.exec (Regex.GroupClose :: r) st s
  = Regex.exec r {| Regex.opened := false; Regex.text := Regex.text st |} s.
Proof. reflexivity. Qed.

Lemma exec_lit (c : ascii) (r : list Regex.item) (st : Regex.capture)
    (a : ascii) (t : string) :
  Regex.exec (Regex.Lit c :: r) st (String a t)
  = if Chars.eqc c a then Regex.exec r (Regex.consume a st) t else None.
Proof. reflexivity. Qed.

Lemma exec_opt (p : ascii -> bool) (r : list Regex.item) (st : Regex.capture)
    (a : ascii) (t : string) :
  Regex.exec (Regex.Opt p :: r) st (String a t)
  = if p a
    then match Regex.exec r (Regex.consume a st) t with
         | Some g => Some g
         | None => Regex.exec r st (String a t)
         end
    else Regex.exec r st (String a t).
Proof. reflexivity. Qed.

Lemma exec_value (st : Regex.capture) (s : string) :
  Regex.exec [Regex.GroupOpen; Regex.Plus Regex.is_value_char; Regex.GroupClose;
              Regex.Opt Regex.is_quote; Regex.Lit "]"] st s
  = let value := fst (Spec.span Regex.is_value_char s) in
    let after_value := snd (Spec.span Regex.is_value_char s) in
    if Spec.nonempty value && String.prefix "]" (Spec.skip_quote after_value)
    then Some value else None.
Proof.
  rewrite exec_group_open, exec_plus, plus_loop_greedy.
  - cbv zeta. destruct (Spec.nonempty _); [|reflexivity].
    rewrite consume_run_open, exec_group_close. cbn [Regex.text andb].
    now rewrite exec_close.
  - intros st' a t Ha. destruct (value_char_cases a Ha) as [Hq Hb].
    rewrite exec_group_close, exec_opt, Hq, exec_lit, Hb. reflexivity.
Qed.

Lemma exec_quoted_value (st : Regex.capture) (s : string) :
  Regex.exec [Regex.Opt Regex.is_quote; Regex.GroupOpen;
              Regex.Plus Regex.is_value_char; Regex.GroupClose;
              Regex.Opt Regex.is_quote; Regex.Lit "]"] st s
  = Regex.exec [Regex.GroupOpen; Regex.Plus Regex.is_value_char; Regex.GroupClose;
                Regex.Opt Regex.is_quote; Regex.Lit "]"] st (Spec.skip_quote s).
Proof.
  destruct s as [|a t]; [reflexivity|].
  rewrite exec_opt. cbn [Spec.skip_quote].
  destruct (Regex.is_quote a) eqn:Hq; [|reflexivity].
  rewrite !exec_value. cbv zeta.
  destruct (Spec.nonempty _ && _); [reflexivity|].
  rewrite span_cons.
  assert (Regex.is_value_char a = false) as ->
    by (unfold Regex.is_value_char; now rewrite Hq).
  reflexivity.
Qed.

Lemma exec_data_pattern (s : string) :
  Regex.exec Regex.data_pattern Regex.start s = Spec.data_attribute_here s.
Proof.
  unfold Regex.data_pattern, Spec.data_attribute_here.
  rewrite exec_lits by reflexivity.
  destruct (Spec.strip_prefix "[data-" s) as [after_prefix|]; [|reflexivity].
  rewrite exec_plus, plus_loop_greedy.
  - rewrite consume_run_closed by reflexivity.
    pose proof (span_rest Regex.not_equals after_prefix) as Hrest.
    destruct (Spec.span Regex.not_equals after_prefix) as [attr after_attr].
    cbn [fst snd] in *.
    destruct after_attr as [|c after_eq].
    { destruct (Spec.nonempty attr); reflexivity. }
    assert (Chars.eqc "=" c = true) as Hc.
    { specialize (Hrest c after_eq eq_refl). unfold Regex.not_equals in Hrest.
      now apply negb_false_iff in Hrest. }
    pose proof (exec_quoted_value Regex.start after_eq) as Hq.
    rewrite exec_value in Hq. cbv zeta in Hq.
    destruct (Spec.span Regex.is_value_char (Spec.skip_quote after_eq))
      as [value after_value].
    cbn [fst snd] in Hq.
    destruct (Spec.nonempty attr); [|reflexivity].
    cbn [andb]. rewrite exec_lit, Hc.
    rewrite (consume_closed c Regex.start eq_refl). exact Hq.
  - intros st a t Ha. rewrite exec_lit. unfold Regex.not_equals in Ha.
    apply negb_true_iff in Ha. now rewrite Ha.
Qed.

Lemma search_data_pattern (s : string) :
  Regex.search Regex.data_pattern s = Spec.first_data_attribute s.
Proof.
  induction s as [|c t IH].
  - cbn [Regex.search Spec.first_data_attribute]. now rewrite exec_data_pattern.
  - cbn [Regex.search Spec.first_data_attribute]. rewrite exec_data_pattern.
    destruct (Spec.data_attribute_here _); [reflexivity | exact IH].
Qed.

(** C9. The locator name of a selector follows the first rule that applies,
    in this order: an id token [#x] gives [x] followed by [Locator];
    otherwise a data attribute [[data-...=v]] gives [v] followed by
    [Locator]; otherwise a class token [.c] gives [c] followed by [Locator];
    otherwise the name is [elementLocator]. *)
Theorem locator_name_priority (s : string) :
  deriveLocatorName s = Spec.locator_name s.
Proof.
  unfold deriveLocatorName, Spec.locator_name, Regex.id_pattern, Regex.class_pattern.
  now rewrite !search_token_pattern, search_data_pattern.
Qed.

(** *** What the scanners of the specification find *)

Lemma span_app (p : ascii -> bool) (run rest : string) :
  Str.forallb p run = true ->
  (forall c t, rest = String c t -> p c = false) ->
  Spec.span p (run ++ rest) = (run, rest).
Proof.
  intros Hrun Hrest. induction run as [|a run IH].
  - destruct rest as [|c t]; [reflexivity|].
    change (EmptyString ++ String c t) with (String c t).
    rewrite span_cons. now rewrite (Hrest c t eq_refl).
  - cbn [Str.forallb] in Hrun. apply andb_prop in Hrun as [Ha Hrun].
    rewrite app_cons_s, span_cons, Ha, (IH Hrun). reflexivity.
Qed.

(** A token found by [first_token] stands in the selector: the mark, then a
    non-empty run of name characters that is as long as it can be. *)
Lemma first_token_sound (mark : ascii) (s x : string) :
  Spec.first_token mark s = Some x ->
  exists pre post,
    s = pre ++ String mark (x ++ post)
    /\ Spec.nonempty x = true
    /\ Str.forallb Chars.is_name_char x = true
    /\ (forall c t, post = String c t -> Chars.is_name_char c = false).
Proof.
  induction s as [|c t IH]; [discriminate|].
  cbn [Spec.first_token].
  destruct (Chars.eqc mark c && _) eqn:Hhere.
  - intros [= <-]. apply andb_prop in Hhere as [Hc Hne].
    apply Ascii.eqb_eq in Hc. subst c.
    exists EmptyString, (snd (Spec.span Chars.is_name_char t)).
    split; [|split; [exact Hne | split; [apply span_run | apply span_rest]]].
    now rewrite span_append.
  - intros Hx. destruct (IH Hx) as (pre & post & -> & Hrest).
    exists (String c pre), post. split; [reflexivity | exact Hrest].
Qed.

(** [first_token] finds nothing only when no mark of the selector is followed
    by a name character. *)
Lemma first_token_complete (mark : ascii) (s : string) :
  Spec.first_token mark s = None <->
  (forall pre c rest,
     s = pre ++ String mark (String c rest) -> Chars.is_name_char c = false).
Proof.
  induction s as [|a t IH].
  - split; [|reflexivity]. intros _ [|? ?] c rest; discriminate.
  - cbn [Spec.first_token]. split.
    + destruct (Chars.eqc mark a && _) eqn:Hhere; [discriminate|].
      intros Hnone [|b pre] c rest.
      * change (EmptyString ++ String mark (String c rest))
          with (String mark (String c rest)).
        intros [= -> ->]. unfold Chars.eqc in Hhere.
        rewrite Ascii.eqb_refl, span_cons in Hhere. cbn [andb] in Hhere.
        destruct (Chars.is_name_char c); [discriminate | reflexivity].
      * rewrite app_cons_s. intros [= -> ->].
        apply (proj1 IH Hnone pre c rest). reflexivity.
    + intros Hno.
      destruct (Chars.eqc mark a && _) eqn:Hhere.
      * apply andb_prop in Hhere as [Ha Hne].
        apply Ascii.eqb_eq in Ha. subst a.
        destruct (span_nonempty _ t Hne) as (c & rest & -> & Hc).
        rewrite (Hno EmptyString c rest eq_refl) in Hc. discriminate.
      * apply IH. intros pre c rest ->.
        apply (Hno (String a pre) c rest). reflexivity.
Qed.

Lemma strip_prefix_sound (pre s rest : string) :
  Spec.strip_prefix pre s = Some rest -> s = pre ++ rest.
Proof.
  revert s. induction pre as [|a pre IH]; intros s.
  - destruct s; now intros [= <-].
  - destruct s as [|b s]; [discriminate|]. cbn [Spec.strip_prefix].
    destruct (Chars.eqc a b) eqn:Hab; [|discriminate].
    apply Ascii.eqb_eq in Hab. subst b. intros H.
    rewrite app_cons_s. now rewrite <- (IH s H).
Qed.

Lemma strip_prefix_app (pre rest : string) :
  Spec.strip_prefix pre (pre ++ rest) = Some rest.
Proof.
  induction pre as [|a pre IH]; [now destruct rest|].
  rewrite app_cons_s. cbn [Spec.strip_prefix]. unfold Chars.eqc.
  now rewrite Ascii.eqb_refl.
Qed.

Lemma skip_quote_sound (s : string) :
  exists q, optional_quote q /\ s = q ++ Spec.skip_quote s.
Proof.
  destruct s as [|c t]; [exists EmptyString; split; [now left | reflexivity]|].
  cbn [Spec.skip_quote]. destruct (Regex.is_quote c) eqn:Hc.
  - exists (String c EmptyString). split; [right; now exists c | reflexivity].
  - exists EmptyString. split; [now left | reflexivity].
Qed.

Lemma skip_quote_app (q rest : string) :
  optional_quote q ->
  (forall c t, rest = String c t -> Regex.is_quote c = false) ->
  Spec.skip_quote (q ++ rest) = rest.
Proof.
  intros [->|(c & Hc & ->)] Hrest.
  - destruct rest as [|c t]; [reflexivity|].
    change (EmptyString ++ String c t) with (String c t).
    cbn [Spec.skip_quote]. now rewrite (Hrest c t eq_refl).
  - change (String c EmptyString ++ rest) with (String c rest).
    cbn [Spec.skip_quote]. now rewrite Hc.
Qed.

(** A value found by [data_attribute_here] is the value of a data attribute
    at the start of the selector. *)
Lemma data_attribute_here_sound (s v : string) :
  Spec.data_attribute_here s = Some v ->
  exists text post, s = text ++ post /\ data_attribute_shape text v.
Proof.
  unfold Spec.data_attribute_here.
  destruct (Spec.strip_prefix "[data-" s) as [after_prefix|] eqn:Hpre; [|discriminate].
  apply strip_prefix_sound in Hpre.
  pose proof (span_append Regex.not_equals after_prefix) as Hattr.
  pose proof (span_run Regex.not_equals after_prefix) as Hattr_run.
  pose proof (span_rest Regex.not_equals after_prefix) as Hattr_rest.
  destruct (Spec.span Regex.not_equals after_prefix) as [attr after_attr].
  cbn [fst snd] in *.
  destruct after_attr as [|c after_eq]; [discriminate|].
  assert (c = "="%char) as ->.
  { specialize (Hattr_rest c after_eq eq_refl). unfold Regex.not_equals in Hattr_rest.
    apply negb_false_iff in Hattr_rest. symmetry. now apply Ascii.eqb_eq. }
  destruct (skip_quote_sound after_eq) as (q1 & Hq1 & Heq).
  pose proof (span_append Regex.is_value_char (Spec.skip_quote after_eq)) as Hval.
  pose proof (span_run Regex.is_value_char (Spec.skip_quote after_eq)) as Hval_run.
  destruct (Spec.span Regex.is_value_char (Spec.skip_quote after_eq))
    as [value after_value].
  cbn [fst snd] in *.
  destruct (Spec.nonempty attr) eqn:Hne_attr; [|discriminate].
  destruct (Spec.nonempty value) eqn:Hne_value; [|discriminate].
  cbn [andb]. rewrite prefix_bracket.
  destruct (skip_quote_sound after_value) as (q2 & Hq2 & Hafter).
  destruct (Spec.skip_quote after_value) as [|b post]; [discriminate|].
  destruct (Chars.eqc "]" b) eqn:Hb; [|discriminate].
  apply Ascii.eqb_eq in Hb. subst b. intros [= <-].
  exists ("[data-" ++ attr ++ "=" ++ q1 ++ value ++ q2 ++ "]"), post. split.
  - rewrite Hpre, <- Hattr, Heq, <- Hval, Hafter.
    rewrite !app_assoc_s. reflexivity.
  - exists attr, q1, q2. repeat split; assumption.
Qed.

Lemma first_data_attribute_sound (s v : string) :
  Spec.first_data_attribute s = Some v ->
  exists pre text post, s = pre ++ text ++ post /\ data_attribute_shape text v.
Proof.
  induction s as [|c t IH]; cbn [Spec.first_data_attribute].
  - destruct (Spec.data_attribute_here EmptyString) eqn:Hhere; [|discriminate].
    intros [= <-]. destruct (data_attribute_here_sound _ _ Hhere) as (x & post & H & Hs).
    now exists EmptyString, x, post.
  - destruct (Spec.data_attribute_here (String c t)) as [w|] eqn:Hhere.
    + intros [= <-].
      destruct (data_attribute_here_sound _ _ Hhere) as (x & post & H & Hs).
      now exists EmptyString, x, post.
    + intros Hv. destruct (IH Hv) as (pre & x & post & -> & Hs).
      now exists (String c pre), x, post.
Qed.

Lemma forallb_first (p : ascii -> bool) (v : string) (c : ascii) (t : string) :
  Str.forallb p v = true -> v = String c t -> p c = true.
Proof. intros H ->. cbn [Str.forallb] in H. now apply andb_prop in H. Qed.

(** A data attribute at the start of the selector is found, with its value. *)
Lemma data_attribute_here_complete (text v post : string) :
  data_attribute_shape text v ->
  Spec.data_attribute_here (text ++ post) = Some v.
Proof.
  intros (attr & q1 & q2 & -> & Hattr & Hattr_run & Hv & Hv_run & Hq1 & Hq2).
  unfold Spec.data_attribute_here.
  rewrite !app_assoc_s, strip_prefix_app.
  rewrite (span_app Regex.not_equals attr).
  - change ("=" ++ ?x) with (String "=" x). cbv beta iota.
    assert (Spec.skip_quote ((q1 ++ v ++ q2 ++ "]") ++ post) = (v ++ q2 ++ "]") ++ post)
      as Hskip1.
    { rewrite !app_assoc_s. apply skip_quote_app; [exact Hq1|].
      destruct v as [|a v']; [discriminate|].
      rewrite app_cons_s. intros c t [= <- _].
      apply (forallb_first _ _ a v') in Hv_run; [|reflexivity].
      now apply value_char_cases in Hv_run. }
    rewrite !app_assoc_s in Hskip1. rewrite Hskip1.
    rewrite (span_app Regex.is_value_char v).
    + rewrite skip_quote_app.
      * rewrite Hattr, Hv, prefix_bracket. reflexivity.
      * exact Hq2.
      * intros c t [= <- _]. reflexivity.
    + exact Hv_run.
    + destruct Hq2 as [->|(c & Hc & ->)].
      * intros b t [= <- _]. reflexivity.
      * intros b t [= <- _]. unfold Regex.is_value_char. now rewrite Hc.
  - exact Hattr_run.
  - intros c t [= <- _]. reflexivity.
Qed.

(** [first_data_attribute] finds nothing only when the selector has no data
    attribute. *)
Lemma first_data_attribute_complete (pre text post v : string) :
  data_attribute_shape text v ->
  Spec.first_data_attribute (pre ++ text ++ post) <> None.
Proof.
  intros Hshape. induction pre as [|c pre IH].
  - change (EmptyString ++ text ++ post) with (text ++ post).
    pose proof (data_attribute_here_complete text v post Hshape) as Hhere.
    destruct (text ++ post); cbn [Spec.first_data_attribute]; now rewrite Hhere.
  - rewrite app_cons_s. cbn [Spec.first_data_attribute].
    now destruct (Spec.data_attribute_here _).
Qed.

Example locator_name_examples :
  List.map deriveLocatorName
    ["#user"; "form .row input#email"; "[data-test=go]"; "li.item[data-id='7']";
     ".menu"; "select"; "a.b#c-d"]
  = ["userLocator"; "emailLocator"; "goLocator"; "7Locator";
     "menuLocator"; "elementLocator"; "c-dLocator"].
Proof. vm_compute. reflexivity. Qed.

(** * Further properties of the generator *)

(** ** When [generateTest] returns *)

Lemma resolve_loop_non_string (cwd : string) (l : list jsval) (v : jsval) (acc : string) :
  Forall relative_argument l ->
  Js.is_string v = false ->
  Path.resolve_loop cwd (l ++ [v])%list acc = Err (TypeError "ERR_INVALID_ARG_TYPE").
Proof.
  intros Hl Hv. revert acc.
  induction Hl as [|x l (p & -> & Hp) _ IH]; intros acc.
  - destruct v; try reflexivity; discriminate.
  - cbn [app Path.resolve_loop]. rewrite Hp.
    destruct (String.eqb p EmptyString); apply IH.
Qed.

(** [path.resolve] throws when an argument it reaches is not a string. *)
Lemma resolve_non_string_first (cwd : string) (v : jsval) (rest : list jsval) :
  Js.is_string v = false ->
  Forall relative_argument rest ->
  Path.resolve cwd (v :: rest) = Err (TypeError "ERR_INVALID_ARG_TYPE").
Proof.
  intros Hv Hrest. unfold Path.resolve. cbn [rev].
  rewrite resolve_loop_non_string; [reflexivity | | exact Hv].
  now apply Forall_rev.
Qed.

Lemma file_char_not_slash (c : ascii) :
  Chars.is_file_char c = true -> Chars.eqc Chars.SLASH c = false.
Proof.
  destruct (Chars.eqc Chars.SLASH c) eqn:Hc; [|reflexivity].
  apply Ascii.eqb_eq in Hc. subst c. discriminate.
Qed.

(** The name of the test file is not empty and does not start with [/]. *)
Lemma test_file_name_relative (prefix id : string) :
  relative_argument (JStr (Spec.test_file_name prefix id)).
Proof.
  eexists. split; [reflexivity|]. unfold Spec.test_file_name.
  destruct prefix as [|c prefix]; [reflexivity|].
  cbn [Str.map]. rewrite app_cons_s. cbn [Path.is_absolute].
  apply file_char_not_slash, sanitize_char_range.
Qed.

Lemma page_object_arguments_relative (ext : string) :
  Forall relative_argument [JStr "pages"; JStr ("AppPage." ++ ext)].
Proof. repeat constructor; eexists; (split; [reflexivity|]); reflexivity. Qed.

Lemma getOutputFilePath_ok (cwd : string) (this : PlaywrightGenerator)
    (session : Types.CodegenSession) (filePath : string) :
  getOutputFilePath cwd this session = Ok filePath ->
  Js.truthy (Types.id session) = true /\ Spec.string_options this.
Proof.
  unfold getOutputFilePath, bind, Spec.string_options.
  destruct (Js.truthy (Types.id session)); [|discriminate]. cbn [negb].
  destruct (Required.testNamePrefix (options this)) as [| |?|?|prefix];
    try discriminate.
  rewrite sanitized_prefix.
  change (Str.map Spec.sanitize_char prefix ++ "_" ++ ?i ++ ".spec.ts")
    with (Spec.test_file_name prefix i).
  destruct (Js.is_string (Required.outputPath (options this))) eqn:Hop;
    [now intros _|].
  rewrite resolve_non_string_first; [discriminate | exact Hop |].
  constructor; [apply test_file_name_relative | constructor].
Qed.

Lemma createTestCase_in_range (this : PlaywrightGenerator)
    (session : Types.CodegenSession) (testCase : Types.PlaywrightTestCase) :
  createTestCase this session = Ok testCase ->
  Z.abs (Types.startTime session) <= Date.max_time.
Proof.
  unfold createTestCase, Date.iso_date, bind.
  destruct (Z.abs _ <=? Date.max_time) eqn:Htime; [|discriminate].
  intros _. now apply Z.leb_le.
Qed.

(** X1. For a session typed as [CodegenSession] apart from what
    [generateTest] checks itself, that is a session whose [actions], when an
    array, holds actions that each have a [parameters] object of strings,
    numbers, booleans, [null] or [undefined]: [generateTest] returns exactly
    when the session is valid
    ([actions] is an array, [id] is truthy, the start time is in the range
    of [Date]) and the [outputPath] and [testNamePrefix] options are
    strings. An entry of [actions] without a [parameters] object, which
    makes the real method fail as well, is not a value of
    [Types.CodegenAction]. *)
Theorem generateTest_returns_iff (cwd : string) (this : PlaywrightGenerator)
    (session : Types.CodegenSession) :
  is_ok (generateTest cwd this (Types.SessionObject session)) = true
  <-> Spec.valid_session session /\ Spec.string_options this.
Proof.
  split.
  - destruct (generateTest cwd this (Types.SessionObject session)) as [r|e] eqn:Hgen;
      [intros _ | discriminate].
    destruct (generateTest_inv cwd this session r Hgen) as (tc & Htc & Hfp & _).
    destruct (getOutputFilePath_ok cwd this session _ Hfp) as [Hid Hopts].
    split; [|exact Hopts]. split; [|split].
    + unfold generateTest in Hgen.
      destruct (Types.actions session) as [l|v]; [now exists l | discriminate].
    + exact Hid.
    + exact (createTestCase_in_range this session tc Htc).
  - intros [Hvalid Hopts].
    destruct (generateTest_valid cwd this session Hopts Hvalid)
      as (tc & fp & po & cfg & _ & _ & _ & _ & ->).
    reflexivity.
Qed.

(** X2. A start time outside the range of [Date] makes [generateTest] fail
    with the range error of [toISOString], before the session id and the
    options are looked at. *)
Theorem start_time_out_of_range (cwd : string) (this : PlaywrightGenerator)
    (session : Types.CodegenSession) (l : list Types.CodegenAction) :
  Types.actions session = Types.ActionArray l ->
  Date.max_time < Z.abs (Types.startTime session) ->
  generateTest cwd this (Types.SessionObject session)
  = Err (RangeError "Invalid time value").
Proof.
  intros Hl Htime. unfold generateTest, createTestCase, Date.iso_date.
  rewrite Hl. apply Z.leb_gt in Htime. now rewrite Htime.
Qed.

Lemma start_time_out_of_range_witness :
  generateTest "/work" default_generator
    (Types.SessionObject
       {| Types.id := JUndefined;
          Types.startTime := 8640000000000001;
          Types.actions := Types.ActionArray sample_actions |})
  = Err (RangeError "Invalid time value").
Proof.
  apply (start_time_out_of_range "/work" default_generator _ sample_actions);
    [reflexivity|].
  unfold Date.max_time. cbn [Types.startTime]. lia.
Defined.

(** X3. A generator whose [outputPath] or [testNamePrefix] is not a string
    (the constructor accepts [false], [0], [null] and an explicit
    [undefined]) fails on every valid session with a type error. *)
Theorem non_string_options_fail (cwd : string) (this : PlaywrightGenerator)
    (session : Types.CodegenSession) :
  Spec.valid_session session ->
  Js.is_string (Required.outputPath (options this))
  && Js.is_string (Required.testNamePrefix (options this)) = false ->
  exists m, generateTest cwd this (Types.SessionObject session) = Err (TypeError m).
Proof.
  intros ([l Hl] & Hid & Htime) Hopts.
  destruct (createTestCase_ok this session Htime) as [tc Htc].
  unfold generateTest, bind. rewrite Hl, Htc.
  destruct (Js.is_string (Required.outputPath (options this))) eqn:Hop.
  - cbn [andb] in Hopts.
    destruct (generatePageObject_ok cwd this session Hop) as [po ->].
    assert (exists m, getOutputFilePath cwd this session = Err (TypeError m))
      as [m ->].
    { unfold getOutputFilePath, bind. rewrite Hid. cbn [negb].
      destruct (Required.testNamePrefix (options this)); try discriminate;
        eexists; reflexivity. }
    exists m. now destruct (Js.is_str "pom" _).
  - assert (generatePageObject cwd this session
            = Err (TypeError "ERR_INVALID_ARG_TYPE")) as ->.
    { unfold generatePageObject, bind.
      rewrite resolve_non_string_first;
        [reflexivity | exact Hop | apply page_object_arguments_relative]. }
    assert (exists m, getOutputFilePath cwd this session = Err (TypeError m))
      as [m ->].
    { unfold getOutputFilePath, bind. rewrite Hid. cbn [negb].
      destruct (Required.testNamePrefix (options this)) as [| |?|?|prefix];
        try (eexists; reflexivity).
      rewrite sanitized_prefix.
      change (Str.map Spec.sanitize_char prefix ++ "_" ++ ?i ++ ".spec.ts")
        with (Spec.test_file_name prefix i).
      rewrite resolve_non_string_first; [eexists; reflexivity | exact Hop |].
      constructor; [apply test_file_name_relative | constructor]. }
    destruct (Js.is_str "pom" _); eexists; reflexivity.
Qed.

Lemma non_string_options_fail_witness :
  exists this m,
    constructor (with_options (Some (JBool false)) None None None) = Ok this
    /\ generateTest "/work" this (Types.SessionObject sample_session)
       = Err (TypeError m).
Proof.
  exists {| options := spread (with_options (Some (JBool false)) None None None) |}.
  destruct (non_string_options_fail "/work"
              {| options := spread (with_options (Some (JBool false)) None None None) |}
              sample_session sample_session_valid eq_refl) as [m Hm].
  exists m. split; [reflexivity | exact Hm].
Defined.

(** ** The calls of the test code *)

Lemma contains_trans (a b c : string) :
  Str.Contains a b -> Str.Contains b c -> Str.Contains a c.
Proof.
  intros (p1 & q1 & ->) (p2 & q2 & ->).
  exists (p2 ++ p1), (q1 ++ q2). now rewrite !app_assoc_s.
Qed.

Lemma contains_refl (a : string) : Str.Contains a a.
Proof. exists EmptyString, EmptyString. now rewrite app_nil_r_s. Qed.

Lemma contains_join (sep x : string) (l : list string) :
  In x l -> Str.Contains x (Str.join sep l).
Proof.
  induction l as [|y l IH]; [intros []|].
  intros [->|Hin].
  - destruct l as [|z l]; [apply contains_refl|].
    change (Str.join sep (x :: z :: l)) with (x ++ sep ++ Str.join sep (z :: l)).
    apply contains_prefix.
  - destruct l as [|z l]; [destruct Hin|].
    change (Str.join sep (y :: z :: l)) with (y ++ sep ++ Str.join sep (z :: l)).
    now apply contains_app_r, contains_app_r, IH.
Qed.

Lemma collect_steps_in (l : list Types.CodegenAction) (a : Types.CodegenAction)
    (step : string) :
  In a l -> convertActionToStep a = Some step -> In step (collect_steps l).
Proof.
  intros Hin Hstep. induction l as [|b l IH]; [destruct Hin|].
  rewrite collect_steps_cons. destruct Hin as [->|Hin].
  - rewrite Hstep. now left.
  - destruct (convertActionToStep b); [right|]; now apply IH.
Qed.

Lemma expected_fragments_unrecognized (a : Types.CodegenAction) :
  convertActionToStep a = None -> Spec.expected_fragments a = [].
Proof.
  unfold convertActionToStep, Spec.expected_fragments.
  repeat match goal with
  | |- context [String.eqb ?x ?y] => destruct (String.eqb x y)
  end; intros H; first [discriminate | reflexivity].
Qed.

(** The fragments survive the trimming of the page-object template: the
    white space it removes stands before the comment line of a step. *)
Lemma expected_fragments_in_trimmed_step (a : Types.CodegenAction) (step : string) :
  convertActionToStep a = Some step ->
  Forall (fun frag => Str.Contains frag ("  " ++ Str.trim_leading_space step))
    (Spec.expected_fragments a).
Proof.
  unfold convertActionToStep, Spec.expected_fragments.
  set (ps := Types.parameters a).
  repeat match goal with
  | |- context [String.eqb ?x ?y] => destruct (String.eqb x y)
  end; intros Hs; inversion Hs; subst step; clear Hs.
  - unfold generateNavigateStep. fold ps.
    destruct (Js.truthy (Js.get ps "waitUntil")); all_fragments.
  - unfold generateFillStep; fold ps; all_fragments.
  - unfold generateClickStep; fold ps; all_fragments.
  - unfold generateScreenshotStep; fold ps.
    destruct (Js.truthy (Js.get ps "path"));
      destruct (Js.truthy match Js.get ps "fullPage" with JUndefined => JBool false | v => v end);
      all_fragments.
  - unfold generateExpectResponseStep; fold ps; all_fragments.
  - unfold generateAssertResponseStep; fold ps.
    destruct (Js.truthy (Js.get ps "value")); all_fragments.
  - unfold generateHoverStep; fold ps; all_fragments.
  - unfold generateSelectStep; fold ps; all_fragments.
  - unfold generateCustomUserAgentStep; fold ps; all_fragments.
Qed.

Lemma generateTestCode_contains_steps (testCase : Types.PlaywrightTestCase) :
  Str.Contains (Str.join Str.nl (Types.steps testCase)) (generateTestCode testCase).
Proof.
  unfold generateTestCode. do 5 apply contains_app_r. apply contains_prefix.
Qed.

Lemma generatePomTestCode_contains_steps (this : PlaywrightGenerator)
    (testCase : Types.PlaywrightTestCase) :
  Str.Contains
    (Str.join Str.nl
       (List.map (fun s => "  " ++ Str.trim_leading_space s) (Types.steps testCase)))
    (generatePomTestCode this testCase).
Proof.
  unfold generatePomTestCode. do 5 apply contains_app_r. apply contains_prefix.
Qed.

(** X4. The test code that [generateTest] returns contains, for every
    recognized action of the session, the library call expected for its tool
    with the literal parameter values, with either template. *)
Theorem test_code_contains_calls (cwd : string) (this : PlaywrightGenerator)
    (session : Types.CodegenSession) (r : Types.CodegenResult)
    (a : Types.CodegenAction) :
  generateTest cwd this (Types.SessionObject session) = Ok r ->
  In a (session_actions session) ->
  Forall (fun frag => Str.Contains frag (Types.testCode r)) (Spec.expected_fragments a).
Proof.
  intros Hgen Hin.
  destruct (generateTest_inv cwd this session r Hgen) as (tc & Htc & _ & -> & _).
  unfold createTestCase, bind in Htc.
  destruct (Date.iso_date _) as [date|]; [|discriminate]. injection Htc as <-.
  destruct (convertActionToStep a) as [step|] eqn:Hstep;
    [|rewrite (expected_fragments_unrecognized a Hstep); constructor].
  pose proof (collect_steps_in _ a step Hin Hstep) as Hsteps.
  destruct (Js.is_str "pom" _).
  - eapply Forall_impl; [exact (expected_fragments_in_trimmed_step a step Hstep)|].
    intros frag Hfrag. cbv beta in *.
    eapply contains_trans; [exact Hfrag|].
    eapply contains_trans; [|apply generatePomTestCode_contains_steps].
    apply contains_join. cbn [Types.steps].
    apply (in_map (fun s => "  " ++ Str.trim_leading_space s)). exact Hsteps.
  - eapply Forall_impl; [exact (expected_fragments_in_step a step Hstep)|].
    intros frag Hfrag. cbv beta in *.
    eapply contains_trans; [exact Hfrag|].
    eapply contains_trans; [|apply generateTestCode_contains_steps].
    apply contains_join. exact Hsteps.
Qed.

Lemma test_code_contains_calls_witness :
  exists r,
    generateTest "/work" default_generator (Types.SessionObject sample_session) = Ok r
    /\ Forall (fun frag => Str.Contains frag (Types.testCode r))
         ["page.click('#submit')"].
Proof.
  destruct (generateTest "/work" default_generator (Types.SessionObject sample_session))
    as [r|e] eqn:Hgen; [|vm_compute in Hgen; discriminate].
  exists r. split; [reflexivity|].
  apply (test_code_contains_calls "/work" default_generator sample_session r
           (action "playwright_click" [("selector", JStr "#submit")]) Hgen).
  right. right. now left.
Defined.

(** ** The locators of the page object *)

Lemma collect_selectors_cons (a : Types.CodegenAction) (l : list Types.CodegenAction)
    (selectors : list (string * string)) :
  collect_selectors (a :: l) selectors
  = match recorded_selector a with
    | Some s =>
        if has selectors (deriveLocatorName s)
        then collect_selectors l selectors
        else collect_selectors l (selectors ++ [(deriveLocatorName s, s)])%list
    | None => collect_selectors l selectors
    end.
Proof.
  cbn [collect_selectors]. unfold recorded_selector.
  destruct (Js.get (Types.parameters a) "selector") as [| |?|?|s]; try reflexivity.
  cbn [Js.truthy Js.ToString]. destruct (String.eqb s EmptyString); [reflexivity|].
  cbn [negb]. now destruct (has selectors (deriveLocatorName s)).
Qed.

Lemma has_iff (selectors : list (string * string)) (key : string) :
  has selectors key = true <-> In key (List.map fst selectors).
Proof.
  unfold has. rewrite existsb_exists, in_map_iff. split.
  - intros (e & He & Hk). apply String.eqb_eq in Hk. now exists e.
  - intros (e & Hk & He). exists e. split; [exact He|]. now apply String.eqb_eq.
Qed.

(** The map only grows: what was recorded stays, in its place. *)
Lemma collect_selectors_grows (l : list Types.CodegenAction)
    (selectors : list (string * string)) :
  exists added, collect_selectors l selectors = (selectors ++ added)%list.
Proof.
  revert selectors. induction l as [|a l IH]; intros selectors.
  - exists []. cbn [collect_selectors]. now rewrite app_nil_r.
  - rewrite collect_selectors_cons.
    destruct (recorded_selector a) as [s|]; [|apply IH].
    destruct (has selectors (deriveLocatorName s)); [apply IH|].
    destruct (IH (selectors ++ [(deriveLocatorName s, s)])%list) as [added ->].
    exists ((deriveLocatorName s, s) :: added). now rewrite <- app_assoc.
Qed.

Lemma collect_selectors_keys (l : list Types.CodegenAction)
    (selectors : list (string * string)) :
  NoDup (List.map fst selectors) ->
  NoDup (List.map fst (collect_selectors l selectors)).
Proof.
  revert selectors. induction l as [|a l IH]; intros selectors Hnd; [exact Hnd|].
  rewrite collect_selectors_cons.
  destruct (recorded_selector a) as [s|]; [|now apply IH].
  destruct (has selectors (deriveLocatorName s)) eqn:Hhas; [now apply IH|].
  apply IH. rewrite map_app. cbn [List.map fst].
  apply NoDup_app. split; [exact Hnd|]. split.
  - intros key Hkey [Heq|[]]%list_elem_of_In. apply list_elem_of_In in Hkey.
    apply has_iff in Hkey. congruence.
  - apply NoDup_singleton.
Qed.

Lemma collect_selectors_entries (l : list Types.CodegenAction)
    (selectors : list (string * string)) (key s : string) :
  In (key, s) (collect_selectors l selectors) ->
  In (key, s) selectors
  \/ exists a, In a l /\ recorded_selector a = Some s /\ key = deriveLocatorName s.
Proof.
  revert selectors. induction l as [|a l IH]; intros selectors; [now left|].
  rewrite collect_selectors_cons. intros Hin.
  assert (In (key, s) (collect_selectors l selectors) ->
          In (key, s) selectors
          \/ exists b, In b (a :: l) /\ recorded_selector b = Some s
                       /\ key = deriveLocatorName s) as Hsame.
  { intros H. destruct (IH _ H) as [?|(b & Hb & Hrest)]; [now left|].
    right. exists b. split; [now right | exact Hrest]. }
  destruct (recorded_selector a) as [s0|] eqn:Ha; [|now apply Hsame].
  destruct (has selectors (deriveLocatorName s0)); [now apply Hsame|].
  destruct (IH _ Hin) as [Hold|(b & Hb & Hrest)].
  - apply in_app_or in Hold as [Hold|[[= <- <-]|[]]]; [now left|].
    right. exists a. split; [now left | now split].
  - right. exists b. split; [now right | exact Hrest].
Qed.

(** X5. The selectors that [generatePageObject] collects form a map: the
    locator names are pairwise distinct, and each entry pairs the selector of
    some action of the session (of any tool) with the locator name derived
    from it. *)
Theorem page_object_selectors_map (l : list Types.CodegenAction) :
  NoDup (List.map fst (collect_selectors l []))
  /\ (forall key s, In (key, s) (collect_selectors l []) ->
        exists a, In a l /\ recorded_selector a = Some s /\ key = deriveLocatorName s).
Proof.
  split.
  - apply collect_selectors_keys. constructor.
  - intros key s Hin.
    destruct (collect_selectors_entries l [] key s Hin) as [[]|H]. exact H.
Qed.

Lemma collect_selectors_first (l1 l2 : list Types.CodegenAction)
    (a : Types.CodegenAction) (s : string) (selectors : list (string * string)) :
  recorded_selector a = Some s ->
  has selectors (deriveLocatorName s) = false ->
  (forall b s', In b l1 -> recorded_selector b = Some s' ->
                deriveLocatorName s' <> deriveLocatorName s) ->
  In (deriveLocatorName s, s) (collect_selectors (l1 ++ a :: l2) selectors).
Proof.
  intros Ha. revert selectors. induction l1 as [|b l1 IH]; intros selectors Hnew Hl1.
  - cbn [app]. rewrite collect_selectors_cons, Ha, Hnew.
    destruct (collect_selectors_grows l2 (selectors ++ [(deriveLocatorName s, s)])%list)
      as [added ->].
    apply in_or_app. left. apply in_or_app. right. now left.
  - cbn [app]. rewrite collect_selectors_cons.
    assert (forall c s', In c l1 -> recorded_selector c = Some s' ->
                         deriveLocatorName s' <> deriveLocatorName s) as Hrest
      by (intros c s' Hc; apply Hl1; now right).
    destruct (recorded_selector b) as [s'|] eqn:Hb; [|now apply IH].
    destruct (has selectors (deriveLocatorName s')); [now apply IH|].
    apply IH; [|exact Hrest].
    destruct (has (selectors ++ [(deriveLocatorName s', s')])%list (deriveLocatorName s))
      eqn:Hhas; [|reflexivity].
    apply has_iff in Hhas. rewrite map_app in Hhas.
    apply in_app_or in Hhas as [Hold|[Heq|[]]].
    + apply has_iff in Hold. congruence.
    + cbn [fst] in Heq. exfalso. apply (Hl1 b s'); [now left | exact Hb | exact Heq].
Qed.

(** X6. The page object declares, for the first action of the session that
    has a given locator name, a locator with the selector of that action:
    its content has the line [name = 'selector';]. A later selector with the
    same name is not declared under that name. *)
Theorem page_object_declares_first (cwd : string) (this : PlaywrightGenerator)
    (session : Types.CodegenSession) (pageObject : Types.GeneratedFile)
    (l1 l2 : list Types.CodegenAction) (a : Types.CodegenAction) (s : string) :
  generatePageObject cwd this session = Ok pageObject ->
  session_actions session = (l1 ++ a :: l2)%list ->
  recorded_selector a = Some s ->
  (forall b s', In b l1 -> recorded_selector b = Some s' ->
                deriveLocatorName s' <> deriveLocatorName s) ->
  Str.Contains ("  " ++ deriveLocatorName s ++ " = '" ++ s ++ "';")
    (Types.content pageObject)
  /\ (forall s', In (deriveLocatorName s, s')
                   (collect_selectors (session_actions session) []) -> s' = s).
Proof.
  intros Hpo Hl Ha Hl1.
  pose proof (collect_selectors_first l1 l2 a s [] Ha eq_refl Hl1) as Hin.
  rewrite <- Hl in Hin. split.
  - unfold generatePageObject, bind in Hpo.
    destruct (Path.resolve cwd _) as [p|]; [|discriminate].
    injection Hpo as <-. cbv beta iota delta [Types.content].
    apply contains_app_r, contains_cons, contains_app_l.
    apply contains_join.
    apply (in_map (fun e => "  " ++ fst e ++ " = '" ++ snd e ++ "';")
             _ (deriveLocatorName s, s)).
    exact Hin.
  - intros s' Hin'.
    pose proof (collect_selectors_keys (session_actions session) [] (NoDup_nil_2))
      as Hnd.
    revert Hin Hin' Hnd. generalize (collect_selectors (session_actions session) []).
    induction l as [|[k v] l IH]; [intros []|].
    cbn [List.map fst]. intros Hin Hin' Hnd. apply NoDup_cons in Hnd as [Hk Hnd].
    destruct Hin as [Heq|Hin], Hin' as [Heq'|Hin'].
    + congruence.
    + exfalso. apply Hk, list_elem_of_In. injection Heq as -> _.
      apply (in_map fst _ (deriveLocatorName s, s')). exact Hin'.
    + exfalso. apply Hk, list_elem_of_In. injection Heq' as -> _.
      apply (in_map fst _ (deriveLocatorName s, s)). exact Hin.
    + now apply IH.
Qed.

Lemma page_object_declares_first_witness :
  exists pageObject,
    generatePageObject "/work" default_generator sample_session = Ok pageObject
    /\ Str.Contains "  handleLocator = '.handle';" (Types.content pageObject).
Proof.
  destruct (generatePageObject "/work" default_generator sample_session)
    as [po|e] eqn:Hpo; [|vm_compute in Hpo; discriminate].
  exists po. split; [reflexivity|].
  apply (page_object_declares_first "/work" default_generator sample_session po
           [action "playwright_navigate" [("url", JStr "https://example.com")]]
           [action "playwright_click" [("selector", JStr "#submit")]]
           (action "playwright_drag" [("selector", JStr ".handle")]) ".handle" Hpo);
    [reflexivity | reflexivity |].
  intros b s' [<-|[]] Hb. vm_compute in Hb. discriminate.
Defined.

(** ** Literals of the page object and of the run configuration *)

Lemma forallb_contains (p : ascii -> bool) (x s : string) :
  Str.Contains x s -> Str.forallb p s = true -> Str.forallb p x = true.
Proof.
  intros (pre & post & ->). rewrite !forallb_app_s.
  intros H. apply andb_prop in H as [_ H]. now apply andb_prop in H as [H _].
Qed.

(** A locator name is [elementLocator], or a piece of the selector followed
    by [Locator]. *)
Lemma deriveLocatorName_cases (s : string) :
  deriveLocatorName s = "elementLocator"
  \/ exists x, Str.Contains x s /\ deriveLocatorName s = x ++ "Locator".
Proof.
  assert (forall mark x, Spec.first_token mark s = Some x -> Str.Contains x s)
    as Htoken.
  { intros mark x Hx.
    destruct (first_token_sound mark s x Hx) as (pre & post & -> & _).
    exists (pre ++ String mark EmptyString), post. now rewrite app_assoc_s. }
  unfold deriveLocatorName, Regex.id_pattern, Regex.class_pattern.
  rewrite !search_token_pattern, search_data_pattern.
  destruct (Spec.first_token "#" s) as [x|] eqn:Hid;
    [right; exists x; split; [now apply (Htoken "#"%char) | reflexivity]|].
  destruct (Spec.first_data_attribute s) as [v|] eqn:Hdata.
  - right. exists v. split; [|reflexivity].
    destruct (first_data_attribute_sound s v Hdata)
      as (pre & text & post & -> & attr & q1 & q2 & -> & _).
    exists (pre ++ "[data-" ++ attr ++ "=" ++ q1), (q2 ++ "]" ++ post).
    now rewrite !app_assoc_s.
  - destruct (Spec.first_token "." s) as [c|] eqn:Hclass;
      [right; exists c; split; [now apply (Htoken "."%char) | reflexivity]|].
    now left.
Qed.

Lemma deriveLocatorName_code_safe (s : string) :
  Lexer.code_safe s = true -> Lexer.code_safe (deriveLocatorName s) = true.
Proof.
  intros Hs. destruct (deriveLocatorName_cases s) as [->|(x & Hx & ->)];
    [reflexivity|].
  unfold Lexer.code_safe in *. rewrite forallb_app_s.
  now rewrite (forallb_contains _ x s Hx Hs).
Qed.

Lemma generatePageObject_content (cwd : string) (this : PlaywrightGenerator)
    (session : Types.CodegenSession) (pageObject : Types.GeneratedFile) :
  generatePageObject cwd this session = Ok pageObject ->
  Types.content pageObject
  = (if Js.is_str "typescript" (Required.language (options this))
     then pageClassHeader_ts else pageClassHeader_js)
    ++ Str.nl
    ++ Str.join Str.nl
         (List.map (fun e => "  " ++ fst e ++ " = '" ++ snd e ++ "';")
            (collect_selectors (session_actions session) []))
    ++ Str.nl ++ methods ++ Str.nl ++ "}" ++ Str.nl.
Proof.
  unfold generatePageObject, bind.
  destruct (Path.resolve cwd _) as [p|]; [|discriminate].
  now intros [= <-].
Qed.

(** X7. When every selector recorded in the session is free of quotes,
    backslashes, slashes and line terminators, the string literals of the
    page object are well formed: each selector is closed by the quote the
    generator writes after it. *)
Theorem page_object_literals_well_formed (cwd : string) (this : PlaywrightGenerator)
    (session : Types.CodegenSession) (pageObject : Types.GeneratedFile) :
  (forall a s, In a (session_actions session) -> recorded_selector a = Some s ->
     Lexer.literal_safe s = true /\ Lexer.code_safe s = true) ->
  generatePageObject cwd this session = Ok pageObject ->
  Lexer.well_formed (Types.content pageObject) = true.
Proof.
  intros Hsafe Hpo. rewrite (generatePageObject_content cwd this session _ Hpo).
  assert (Forall (fun s => Lexer.scan Lexer.Code s = Some Lexer.Code)
            (List.map (fun e => "  " ++ fst e ++ " = '" ++ snd e ++ "';")
               (collect_selectors (session_actions session) []))) as Hlines.
  { apply List.Forall_forall. intros line (e & <- & He)%in_map_iff.
    destruct e as [key s]. cbn [fst snd].
    destruct (collect_selectors_entries _ [] key s He) as [[]|(a & Ha & Hs & ->)].
    destruct (Hsafe a s Ha Hs) as [Hlit Hcode].
    pose proof (deriveLocatorName_code_safe s Hcode) as Hkey.
    run_scan. reflexivity. }
  pose proof (fun rest => scan_join _ rest Hlines) as Hjoin.
  generalize dependent (Str.join Str.nl
    (List.map (fun e => "  " ++ fst e ++ " = '" ++ snd e ++ "';")
       (collect_selectors (session_actions session) []))).
  intros locators Hjoin. unfold Lexer.well_formed.
  destruct (Js.is_str "typescript" _); run_scan; rewrite Hjoin; run_scan;
    reflexivity.
Qed.

Lemma sample_selectors_safe (a : Types.CodegenAction) (s : string) :
  In a (session_actions sample_session) -> recorded_selector a = Some s ->
  Lexer.literal_safe s = true /\ Lexer.code_safe s = true.
Proof.
  intros [<-|[<-|[<-|[]]]] Hs; vm_compute in Hs; try discriminate;
    injection Hs as <-; split; reflexivity.
Qed.

Lemma page_object_literals_well_formed_witness :
  exists pageObject,
    generatePageObject "/work" default_generator sample_session = Ok pageObject
    /\ Lexer.well_formed (Types.content pageObject) = true.
Proof.
  destruct (generatePageObject "/work" default_generator sample_session)
    as [po|e] eqn:Hpo; [|vm_compute in Hpo; discriminate].
  exists po. split; [reflexivity|].
  exact (page_object_literals_well_formed "/work" default_generator sample_session po
           sample_selectors_safe Hpo).
Defined.

Lemma replace_backslashes_safe (s : string) :
  Str.forallb config_path_char s = true ->
  Lexer.literal_safe (Str.replace_backslashes s) = true.
Proof.
  unfold Lexer.literal_safe, Str.replace_backslashes.
  induction s as [|c s IH]; [reflexivity|].
  cbn [Str.forallb Str.map]. intros H. apply andb_prop in H as [Hc Hs].
  rewrite (IH Hs), andb_true_r.
  unfold config_path_char in Hc. unfold Lexer.literal_char.
  destruct (Chars.eqc Chars.BSLASH c) eqn:Hb; [reflexivity|].
  apply negb_true_iff in Hc. apply orb_false_elim in Hc as [Hq Hl].
  now rewrite Hq, Hb, Hl.
Qed.

(** Runs the scan over one literal character at the head of the text. *)
Ltac scan_char :=
  match goal with
  | |- context [Lexer.scan ?st (String ?c ?t)] =>
      let r := eval vm_compute in (Lexer.step st c) in
      lazymatch r with
      | Some ?st' => change (Lexer.scan st (String c t)) with (Lexer.scan st' t)
      end
  end.

(** X8. The run configuration writes [outputPath] into a string literal with
    every backslash replaced by a slash; the literal is well formed whenever
    [outputPath] has no single quote and no line terminator, backslashes
    included. *)
Theorem config_literal_well_formed (cwd : string) (this : PlaywrightGenerator)
    (outputPath : string) (config : Types.GeneratedFile) :
  Required.outputPath (options this) = JStr outputPath ->
  Str.forallb config_path_char outputPath = true ->
  generatePlaywrightConfig cwd this = Ok (Some config) ->
  Lexer.well_formed (Types.content config) = true
  /\ Str.Contains ("testDir: '" ++ Str.replace_backslashes outputPath ++ "'")
       (Types.content config).
Proof.
  intros Eop Hpath Hcfg. unfold generatePlaywrightConfig, bind in Hcfg.
  rewrite Eop in Hcfg.
  destruct (Path.resolve cwd _) as [p|]; [|discriminate].
  injection Hcfg as <-. cbv beta iota delta [Types.content].
  pose proof (replace_backslashes_safe outputPath Hpath) as Hsafe.
  generalize dependent (Str.replace_backslashes outputPath). intros testDir Hsafe.
  split.
  - unfold Lexer.well_formed.
    repeat first [ scan_char | rewrite scan_literal by assumption ].
    reflexivity.
  - find_fragment.
Qed.

Lemma config_literal_well_formed_witness :
  exists config,
    generatePlaywrightConfig "/work"
      {| options := spread (with_options
           (Some (JStr ("out" ++ String Chars.BSLASH "e2e"))) None None None) |}
    = Ok (Some config)
    /\ Lexer.well_formed (Types.content config) = true
    /\ Str.Contains "testDir: 'out/e2e'" (Types.content config).
Proof.
  eexists. split; [vm_compute; reflexivity|].
  apply (config_literal_well_formed "/work"
           {| options := spread (with_options
                (Some (JStr ("out" ++ String Chars.BSLASH "e2e"))) None None None) |}
           ("out" ++ String Chars.BSLASH "e2e"));
    reflexivity.
Defined.

(** ** The generated paths *)

Lemma resolve_loop_absolute (cwd : string) (l : list jsval) (acc p : string)
    (abs : bool) :
  Path.is_absolute cwd = true ->
  Path.resolve_loop cwd l acc = Ok (p, abs) -> abs = true.
Proof.
  intros Hcwd. revert acc. induction l as [|v l IH]; intros acc.
  - cbn [Path.resolve_loop]. destruct cwd as [|c cwd]; [discriminate|].
    cbn [String.eqb]. intros [= _ <-]. exact Hcwd.
  - cbn [Path.resolve_loop]. destruct v as [| |?|?|q]; try discriminate.
    destruct (String.eqb q EmptyString); [apply IH|].
    destruct (Path.is_absolute q); [now intros [= _ <-] | apply IH].
Qed.

(** From an absolute working directory [path.resolve] gives an absolute
    path. *)
Lemma resolve_absolute (cwd : string) (args : list jsval) (p : string) :
  Path.is_absolute cwd = true ->
  Path.resolve cwd args = Ok p -> Path.is_absolute p = true.
Proof.
  intros Hcwd. unfold Path.resolve, bind.
  destruct (Path.resolve_loop cwd (rev args) EmptyString) as [[x abs]|] eqn:Hloop;
    [|discriminate].
  rewrite (resolve_loop_absolute cwd _ _ x abs Hcwd Hloop). now intros [= <-].
Qed.

(** The files of a result, when there are any. *)
Lemma generateTest_files_inv (cwd : string) (this : PlaywrightGenerator)
    (session : Types.CodegenSession) (r : Types.CodegenResult)
    (files : list Types.GeneratedFile) :
  generateTest cwd this (Types.SessionObject session) = Ok r ->
  Types.files r = Some files ->
  exists pageObject config,
    files = [pageObject; config]
    /\ generatePageObject cwd this session = Ok pageObject
    /\ generatePlaywrightConfig cwd this = Ok (Some config).
Proof.
  unfold generateTest, bind.
  destruct (Types.actions session); [|discriminate].
  destruct (createTestCase this session) as [tc|]; [|discriminate].
  destruct (Js.is_str "pom" _).
  - destruct (generatePageObject cwd this session) as [po|]; [|discriminate].
    destruct (getOutputFilePath cwd this session) as [fp|]; [|discriminate].
    unfold generatePlaywrightConfig, bind.
    destruct (Required.outputPath (options this)); try discriminate.
    destruct (Path.resolve cwd _) as [cp|]; [|discriminate].
    intros [= <-]. cbn. intros [= <-]. eexists _, _. repeat split.
  - destruct (getOutputFilePath cwd this session) as [fp|]; [|discriminate].
    intros [= <-]. discriminate.
Qed.

(** X9. When the working directory is absolute, as the one of a process is,
    every path that [generateTest] returns is absolute: the path of the test
    file and the paths of the page object and of the run configuration. *)
Theorem generated_paths_absolute (cwd : string) (this : PlaywrightGenerator)
    (session : Types.CodegenSession) (r : Types.CodegenResult) :
  Path.is_absolute cwd = true ->
  generateTest cwd this (Types.SessionObject session) = Ok r ->
  Path.is_absolute (Types.filePath r) = true
  /\ (forall files file, Types.files r = Some files -> In file files ->
        Path.is_absolute (Types.path file) = true).
Proof.
  intros Hcwd Hgen. split.
  - destruct (generateTest_inv cwd this session r Hgen) as (tc & _ & Hfp & _).
    unfold getOutputFilePath, bind in Hfp.
    destruct (negb _); [discriminate|].
    destruct (Required.testNamePrefix (options this)); try discriminate.
    exact (resolve_absolute cwd _ _ Hcwd Hfp).
  - intros files file Hfiles Hin.
    destruct (generateTest_files_inv cwd this session r files Hgen Hfiles)
      as (po & cfg & -> & Hpo & Hcfg).
    destruct Hin as [<-|[<-|[]]].
    + unfold generatePageObject, bind in Hpo.
      destruct (Path.resolve cwd _) as [p|] eqn:Hp; [|discriminate].
      injection Hpo as <-. exact (resolve_absolute cwd _ _ Hcwd Hp).
    + unfold generatePlaywrightConfig, bind in Hcfg.
      destruct (Required.outputPath (options this)); try discriminate.
      destruct (Path.resolve cwd _) as [p|] eqn:Hp; [|discriminate].
      injection Hcfg as <-. exact (resolve_absolute cwd _ _ Hcwd Hp).
Qed.

Lemma generated_paths_absolute_witness :
  exists r,
    generateTest "/work" default_generator (Types.SessionObject sample_session) = Ok r
    /\ Path.is_absolute (Types.filePath r) = true.
Proof.
  destruct (generateTest "/work" default_generator (Types.SessionObject sample_session))
    as [r|e] eqn:Hgen; [|vm_compute in Hgen; discriminate].
  exists r. split; [reflexivity|].
  exact (proj1 (generated_paths_absolute "/work" default_generator sample_session r
                  eq_refl Hgen)).
Defined.

Lemma resolve_loop_anchor (cwd cwd' : string) (l : list jsval) (anchor acc : string) :
  Forall relative_argument l ->
  Path.is_absolute anchor = true ->
  Path.resolve_loop cwd (l ++ [JStr anchor])%list acc
  = Path.resolve_loop cwd' (l ++ [JStr anchor])%list acc.
Proof.
  intros Hl Hanchor. revert acc.
  induction Hl as [|x l (q & -> & Hq) _ IH]; intros acc.
  - cbn [app Path.resolve_loop]. rewrite Hanchor.
    destruct anchor; [discriminate | reflexivity].
  - cbn [app Path.resolve_loop]. rewrite Hq.
    destruct (String.eqb q EmptyString); apply IH.
Qed.

(** After an absolute argument the working directory plays no part. *)
Lemma resolve_anchor (cwd cwd' anchor : string) (rest : list jsval) :
  Path.is_absolute anchor = true ->
  Forall relative_argument rest ->
  Path.resolve cwd (JStr anchor :: rest) = Path.resolve cwd' (JStr anchor :: rest).
Proof.
  intros Hanchor Hrest. unfold Path.resolve. cbn [rev].
  rewrite (resolve_loop_anchor cwd cwd'); [reflexivity | | exact Hanchor].
  now apply Forall_rev.
Qed.

(** X10. With an absolute [outputPath], the test code, the path of the test
    file and the page object that [generateTest] produces do not depend on
    the working directory (the run configuration is still resolved from
    it). *)
Theorem absolute_output_path_ignores_cwd (cwd cwd' : string)
    (this : PlaywrightGenerator) (session : Types.CodegenSession)
    (outputPath : string) :
  Required.outputPath (options this) = JStr outputPath ->
  Path.is_absolute outputPath = true ->
  same_outcome (generateTest cwd this (Types.SessionObject session))
               (generateTest cwd' this (Types.SessionObject session))
  /\ generatePageObject cwd this session = generatePageObject cwd' this session.
Proof.
  intros Eop Habs.
  assert (generatePageObject cwd this session = generatePageObject cwd' this session)
    as Hpo.
  { unfold generatePageObject. rewrite Eop.
    rewrite (resolve_anchor cwd cwd' outputPath _ Habs
               (page_object_arguments_relative (language_ext this))).
    reflexivity. }
  assert (getOutputFilePath cwd this session = getOutputFilePath cwd' this session)
    as Hfp.
  { unfold getOutputFilePath, bind. rewrite Eop.
    destruct (negb _); [reflexivity|].
    destruct (Required.testNamePrefix (options this)) as [| |?|?|prefix];
      try reflexivity.
    rewrite sanitized_prefix.
    change (Str.map Spec.sanitize_char prefix ++ "_" ++ ?i ++ ".spec.ts")
      with (Spec.test_file_name prefix i).
    apply (resolve_anchor cwd cwd' outputPath _ Habs).
    constructor; [apply test_file_name_relative | constructor]. }
  split; [|exact Hpo].
  unfold generateTest, bind. rewrite Hpo, Hfp.
  destruct (Types.actions session); [|reflexivity].
  destruct (createTestCase this session) as [tc|]; [|reflexivity].
  unfold generatePlaywrightConfig, bind. rewrite Eop.
  destruct (Js.is_str "pom" _).
  - destruct (generatePageObject cwd' this session) as [po|]; [|reflexivity].
    destruct (getOutputFilePath cwd' this session) as [fp|]; [|reflexivity].
    destruct (resolve_strings cwd
                [JStr (if Js.is_str "typescript" (Required.language (options this))
                       then "playwright.config.ts" else "playwright.config.js")])
      as [p ->]; [repeat constructor|].
    destruct (resolve_strings cwd'
                [JStr (if Js.is_str "typescript" (Required.language (options this))
                       then "playwright.config.ts" else "playwright.config.js")])
      as [p' ->]; [repeat constructor|].
    cbn. repeat split.
  - destruct (getOutputFilePath cwd' this session) as [fp|]; [|reflexivity].
    cbn. repeat split.
Qed.

Lemma absolute_output_path_ignores_cwd_witness :
  same_outcome
    (generateTest "/work"
       {| options := spread (with_options (Some (JStr "/srv/e2e")) None None None) |}
       (Types.SessionObject sample_session))
    (generateTest "/home/ci"
       {| options := spread (with_options (Some (JStr "/srv/e2e")) None None None) |}
       (Types.SessionObject sample_session)).
Proof.
  apply (absolute_output_path_ignores_cwd "/work" "/home/ci"
           {| options := spread (with_options (Some (JStr "/srv/e2e")) None None None) |}
           sample_session "/srv/e2e");
    reflexivity.
Defined.

(** *** A file in a directory *)

Lemma split_slash_aux_app (cur a b : string) :
  Str.split_slash_aux cur (a ++ String Chars.SLASH b)
  = (Str.split_slash_aux cur a ++ Str.split_slash_aux EmptyString b)%list.
Proof.
  revert cur. induction a as [|c a IH]; intros cur.
  - reflexivity.
  - rewrite app_cons_s. cbn [Str.split_slash_aux].
    destruct (Chars.eqc Chars.SLASH c); [|apply IH].
    cbn [app]. now rewrite IH.
Qed.

Lemma split_slash_aux_free (cur f : string) :
  slash_free f = true -> Str.split_slash_aux cur f = [cur ++ f].
Proof.
  unfold slash_free. revert cur. induction f as [|c f IH]; intros cur Hf.
  - cbn [Str.split_slash_aux]. now rewrite app_nil_r_s.
  - cbn [Str.forallb] in Hf. apply andb_prop in Hf as [Hc Hf].
    cbn [Str.split_slash_aux]. apply negb_true_iff in Hc. rewrite Hc.
    rewrite (IH _ Hf). now rewrite app_assoc_s.
Qed.

(** The segments of a path that ends with a separator, with one more name
    and a separator after it. *)
Lemma split_slash_child (q f : string) :
  slash_free f = true ->
  Str.split_slash ((q ++ "/") ++ f ++ "/")
  = (Str.split_slash q ++ [f; EmptyString])%list
  /\ Str.split_slash (q ++ "/") = (Str.split_slash q ++ [EmptyString])%list.
Proof.
  intros Hf. unfold Str.split_slash.
  change (q ++ "/") with (q ++ String Chars.SLASH EmptyString).
  rewrite app_assoc_s.
  change (String Chars.SLASH EmptyString ++ f ++ "/")
    with (String Chars.SLASH (f ++ String Chars.SLASH EmptyString)).
  rewrite !split_slash_aux_app. split; [|reflexivity].
  now rewrite (split_slash_aux_free EmptyString f Hf).
Qed.

Lemma push_segment_empty (allow : bool) (stack : list string) :
  Path.push_segment allow stack EmptyString = stack.
Proof. reflexivity. Qed.

Lemma push_segment_regular (allow : bool) (stack : list string) (f : string) :
  regular_name f = true -> Path.push_segment allow stack f = f :: stack.
Proof.
  unfold regular_name, Path.push_segment. intros H.
  apply andb_prop in H as [_ H]. apply negb_true_iff in H.
  apply orb_false_elim in H as [H Hdd]. apply orb_false_elim in H as [He Hd].
  now rewrite He, Hd, Hdd.
Qed.

Lemma push_segment_nonempty (allow : bool) (stack : list string) (seg : string) :
  Forall (fun x => x <> EmptyString) stack ->
  Forall (fun x => x <> EmptyString) (Path.push_segment allow stack seg).
Proof.
  intros Hstack. unfold Path.push_segment.
  destruct (String.eqb seg EmptyString) eqn:He; [exact Hstack|].
  apply String.eqb_neq in He. cbn [orb].
  destruct (String.eqb seg "."); [exact Hstack|].
  destruct (String.eqb seg "..").
  - destruct Hstack as [|top below Htop Hbelow]; [destruct allow; repeat constructor; exact He|].
    destruct (String.eqb top ".."); [|exact Hbelow].
    destruct allow; repeat constructor; assumption.
  - now constructor.
Qed.

Lemma fold_push_nonempty (allow : bool) (segs stack : list string) :
  Forall (fun x => x <> EmptyString) stack ->
  Forall (fun x => x <> EmptyString) (fold_left (Path.push_segment allow) segs stack).
Proof.
  revert stack. induction segs as [|seg segs IH]; intros stack Hstack; [exact Hstack|].
  cbn [fold_left]. apply IH. now apply push_segment_nonempty.
Qed.

Lemma join_snoc (sep x : string) (l : list string) :
  Str.join sep (l ++ [x])%list
  = match l with
    | [] => x
    | _ :: _ => Str.join sep l ++ sep ++ x
    end.
Proof.
  induction l as [|y l IH]; [reflexivity|].
  destruct l as [|z l]; [reflexivity|].
  change (Str.join sep ((y :: z :: l) ++ [x])%list)
    with (y ++ sep ++ Str.join sep ((z :: l) ++ [x])%list).
  rewrite IH.
  change (Str.join sep (y :: z :: l)) with (y ++ sep ++ Str.join sep (z :: l)).
  now rewrite !app_assoc_s.
Qed.

Lemma join_nonempty (sep x : string) (l : list string) :
  x <> EmptyString -> Str.join sep (x :: l) <> EmptyString.
Proof.
  intros Hx. destruct x as [|c x]; [contradiction|].
  destruct l; cbn [Str.join]; [discriminate|]. rewrite app_cons_s. discriminate.
Qed.

(** What [resolve] has gathered is the accumulated path after what it put
    before it. *)
Lemma resolve_loop_acc (cwd : string) (l : list jsval) (acc : string) :
  Path.resolve_loop cwd l acc
  = match Path.resolve_loop cwd l EmptyString with
    | Ok (p, abs) => Ok (p ++ acc, abs)
    | Err e => Err e
    end.
Proof.
  revert acc. induction l as [|v l IH]; intros acc.
  - cbn [Path.resolve_loop]. destruct (String.eqb cwd EmptyString); [reflexivity|].
    now rewrite !app_assoc_s.
  - cbn [Path.resolve_loop]. destruct v as [| |?|?|q]; try reflexivity.
    destruct (String.eqb q EmptyString); [apply IH|].
    destruct (Path.is_absolute q); [now rewrite !app_assoc_s|].
    rewrite (IH (q ++ "/" ++ acc)), (IH (q ++ "/" ++ EmptyString)).
    destruct (Path.resolve_loop cwd l EmptyString) as [[p abs]|]; [|reflexivity].
    now rewrite !app_assoc_s.
Qed.

Lemma resolve_loop_shape_acc (cwd : string) (l : list jsval) (acc p : string)
    (abs : bool) :
  Path.resolve_loop cwd l acc = Ok (p, abs) ->
  p = acc \/ exists q, p = q ++ "/" ++ acc.
Proof.
  revert acc. induction l as [|v l IH]; intros acc; cbn [Path.resolve_loop].
  - destruct (String.eqb cwd EmptyString); intros [= <- _];
      [now left | right; now exists cwd].
  - destruct v as [| |?|?|q]; try discriminate.
    destruct (String.eqb q EmptyString); [apply IH|].
    destruct (Path.is_absolute q); [intros [= <- _]; right; now exists q|].
    intros Hloop. right. destruct (IH _ Hloop) as [->|[q0 ->]].
    + now exists q.
    + exists (q0 ++ "/" ++ q). now rewrite !app_assoc_s.
Qed.

Lemma resolve_loop_shape (cwd : string) (l : list jsval) (p : string) (abs : bool) :
  Path.resolve_loop cwd l EmptyString = Ok (p, abs) ->
  p = EmptyString \/ exists q, p = q ++ "/".
Proof.
  intros Hloop. destruct (resolve_loop_shape_acc cwd l _ p abs Hloop) as [->|[q ->]];
    [now left | right; now exists q].
Qed.

Lemma regular_name_relative (f : string) :
  regular_name f = true ->
  String.eqb f EmptyString = false /\ Path.is_absolute f = false.
Proof.
  unfold regular_name, slash_free. intros H. apply andb_prop in H as [Hfree H].
  apply negb_true_iff in H. apply orb_false_elim in H as [H _].
  apply orb_false_elim in H as [He _]. split; [exact He|].
  destruct f as [|c f]; [reflexivity|].
  cbn [Str.forallb] in Hfree. apply andb_prop in Hfree as [Hc _].
  now apply negb_true_iff in Hc.
Qed.

(** Resolving one more regular name gives the file of that name in the
    directory resolved before. *)
Lemma resolve_child (cwd : string) (args : list jsval) (f dir : string) :
  Path.is_absolute cwd = true ->
  regular_name f = true ->
  Path.resolve cwd args = Ok dir ->
  Path.resolve cwd (args ++ [JStr f])%list = Ok (child dir f).
Proof.
  intros Hcwd Hf Hdir. destruct (regular_name_relative f Hf) as [Hne Hrel].
  unfold Path.resolve, bind in Hdir.
  destruct (Path.resolve_loop cwd (rev args) EmptyString) as [[p abs]|] eqn:Hloop;
    [|discriminate].
  pose proof (resolve_loop_absolute cwd _ _ p abs Hcwd Hloop) as ->.
  injection Hdir as <-.
  unfold Path.resolve, bind. rewrite rev_app_distr. cbn [rev app Path.resolve_loop].
  rewrite Hne, Hrel, resolve_loop_acc, Hloop. cbn [negb]. f_equal.
  assert (slash_free f = true) as Hfree
    by (unfold regular_name in Hf; now apply andb_prop in Hf as [? _]).
  unfold Path.normalizeString.
  assert (exists stack,
            Forall (fun x => x <> EmptyString) stack
            /\ fold_left (Path.push_segment false) (Str.split_slash p) [] = stack
            /\ fold_left (Path.push_segment false)
                 (Str.split_slash (p ++ f ++ "/" ++ EmptyString)) [] = f :: stack)
    as (stack & Hstack & -> & ->).
  { eexists. split; [apply fold_push_nonempty; constructor|]. split; [reflexivity|].
    destruct (resolve_loop_shape cwd _ p true Hloop) as [->|[q ->]].
    - change (EmptyString ++ f ++ "/" ++ EmptyString)
        with (f ++ String Chars.SLASH EmptyString).
      unfold Str.split_slash. rewrite split_slash_aux_app.
      rewrite (split_slash_aux_free EmptyString _ Hfree).
      cbn [app fold_left Str.split_slash_aux]. change (EmptyString ++ f) with f.
      now rewrite (push_segment_regular false [] f Hf).
    - destruct (split_slash_child q f Hfree) as [H1 H2].
      change ((q ++ "/") ++ f ++ "/" ++ EmptyString) with ((q ++ "/") ++ f ++ "/").
      rewrite H1, H2, !fold_left_app. cbn [fold_left].
      now rewrite (push_segment_regular false _ f Hf). }
  cbn [rev]. rewrite join_snoc. unfold child.
  destruct (rev stack) as [|x l] eqn:Hrev; [reflexivity|].
  assert (x <> EmptyString) as Hx.
  { assert (In x stack) as Hin by (apply in_rev; rewrite Hrev; now left).
    exact (proj1 (List.Forall_forall _ _) Hstack x Hin). }
  pose proof (join_nonempty "/" x l Hx) as Hjoin.
  destruct (Str.join "/" (x :: l)) as [|c n]; [contradiction|].
  match goal with
  | |- context [String.eqb ?a ?b] => destruct (String.eqb_spec a b) as [Heq|_]
  end; [discriminate Heq | reflexivity].
Qed.

Lemma sanitized_slash_free (prefix : string) :
  slash_free (Str.map Spec.sanitize_char prefix) = true.
Proof.
  unfold slash_free. induction prefix as [|c prefix IH]; [reflexivity|].
  cbn [Str.map Str.forallb]. rewrite IH, andb_true_r.
  apply negb_true_iff, file_char_not_slash, sanitize_char_range.
Qed.

Lemma test_file_name_regular (prefix id : string) :
  slash_free id = true -> regular_name (Spec.test_file_name prefix id) = true.
Proof.
  intros Hid. unfold regular_name. apply andb_true_intro. split.
  - pose proof (sanitized_slash_free prefix) as Hprefix.
    unfold Spec.test_file_name, slash_free in *.
    rewrite !forallb_app_s, Hprefix, Hid. reflexivity.
  - assert (Str.forallb (Chars.eqc ".") (Spec.test_file_name prefix id) = false)
      as Hdots.
    { unfold Spec.test_file_name. rewrite forallb_app_s.
      change ("_" ++ id ++ ".spec.ts") with (String "_" (id ++ ".spec.ts")).
      cbn [Str.forallb].
      change (Chars.eqc "." "_") with false. now rewrite andb_false_r. }
    apply negb_true_iff.
    repeat match goal with
    | |- context [String.eqb ?a ?b] =>
        destruct (String.eqb_spec a b) as [Heq|_];
        [rewrite Heq in Hdots; discriminate Hdots|]
    end.
    reflexivity.
Qed.

(** X11. From an absolute working directory, the test file is the file
    named s_id.spec.ts directly in the directory that [outputPath] resolves
    to, when the session id has no path separator; the page object is the
    file AppPage.ext in the directory pages of that directory. *)
Theorem files_in_output_directory (cwd : string) (this : PlaywrightGenerator)
    (session : Types.CodegenSession) (r : Types.CodegenResult)
    (outputPath prefix dir : string) :
  Path.is_absolute cwd = true ->
  Required.outputPath (options this) = JStr outputPath ->
  Required.testNamePrefix (options this) = JStr prefix ->
  slash_free (Js.ToString (Types.id session)) = true ->
  Path.resolve cwd [JStr outputPath] = Ok dir ->
  generateTest cwd this (Types.SessionObject session) = Ok r ->
  Types.filePath r
  = child dir (Spec.test_file_name prefix (Js.ToString (Types.id session)))
  /\ (forall pageObject rest, Types.files r = Some (pageObject :: rest) ->
        Types.path pageObject
        = child (child dir "pages") ("AppPage." ++ language_ext this)).
Proof.
  intros Hcwd Eop Epre Hid Hdir Hgen.
  destruct (generateTest_inv cwd this session r Hgen) as (tc & _ & Hfp & _ & Hfiles).
  split.
  - unfold getOutputFilePath, bind in Hfp. rewrite Eop, Epre in Hfp.
    destruct (negb _); [discriminate|].
    rewrite sanitized_prefix in Hfp.
    change (Str.map Spec.sanitize_char prefix ++ "_" ++ ?i ++ ".spec.ts")
      with (Spec.test_file_name prefix i) in Hfp.
    pose proof (resolve_child cwd [JStr outputPath] _ dir Hcwd
                  (test_file_name_regular prefix _ Hid) Hdir) as Hchild.
    cbn [app] in Hchild. congruence.
  - intros po rest Hr. specialize (Hfiles po rest Hr).
    unfold generatePageObject, bind in Hfiles. rewrite Eop in Hfiles.
    pose proof (resolve_child cwd [JStr outputPath] "pages" dir Hcwd eq_refl Hdir)
      as Hpages.
    assert (regular_name ("AppPage." ++ language_ext this) = true) as Hname
      by (unfold language_ext; now destruct (Js.is_str "typescript" _)).
    pose proof (resolve_child cwd _ _ _ Hcwd Hname Hpages) as Hpage.
    cbn [app] in Hpage. rewrite Hpage in Hfiles. now injection Hfiles as <-.
Qed.

Lemma files_in_output_directory_witness :
  exists r,
    generateTest "/work" default_generator (Types.SessionObject sample_session) = Ok r
    /\ Types.filePath r = child "/work/tests" (Spec.test_file_name "MCP" "abc123").
Proof.
  destruct (generateTest "/work" default_generator (Types.SessionObject sample_session))
    as [r|e] eqn:Hgen; [|vm_compute in Hgen; discriminate].
  exists r. split; [reflexivity|].
  apply (files_in_output_directory "/work" default_generator sample_session r
           "tests" "MCP" "/work/tests"); try reflexivity. exact Hgen.
Defined.

(** ** Locator names of common selectors *)

Lemma span_blocked (p : ascii -> bool) (s rest : string) :
  Spec.nonempty (fst (Spec.span p s)) = false ->
  (forall c t, rest = String c t -> p c = false) ->
  Spec.nonempty (fst (Spec.span p (s ++ rest))) = false.
Proof.
  intros Hs Hrest. destruct s as [|d s].
  - destruct rest as [|c t]; [reflexivity|].
    change (EmptyString ++ String c t) with (String c t).
    rewrite span_cons. now rewrite (Hrest c t eq_refl).
  - rewrite app_cons_s. rewrite span_cons in *.
    destruct (p d); [discriminate | reflexivity].
Qed.

(** The first token is found behind a text that has none. *)
Lemma first_token_app (mark : ascii) (pre x post : string) :
  Chars.is_name_char mark = false ->
  Spec.first_token mark pre = None ->
  Spec.nonempty x = true ->
  Str.forallb Chars.is_name_char x = true ->
  (forall c t, post = String c t -> Chars.is_name_char c = false) ->
  Spec.first_token mark (pre ++ String mark (x ++ post)) = Some x.
Proof.
  intros Hmark Hpre Hx Hrun Hpost. induction pre as [|c pre IH].
  - change (EmptyString ++ String mark (x ++ post)) with (String mark (x ++ post)).
    cbn [Spec.first_token]. rewrite (span_app _ x post Hrun Hpost). cbn [fst].
    unfold Chars.eqc. now rewrite Ascii.eqb_refl, Hx.
  - rewrite app_cons_s. cbn [Spec.first_token] in *.
    destruct (Chars.eqc mark c && Spec.nonempty (fst (Spec.span Chars.is_name_char pre)))
      eqn:Hhere; [discriminate|].
    destruct (Chars.eqc mark c); [|now apply IH].
    cbn [andb] in *. rewrite span_blocked; [now apply IH | exact Hhere |].
    now intros d t [= <- _].
Qed.

(** X12. A selector whose first id token is [#x] (no [#] before it is
    followed by a name character, and [x] is the whole run of name
    characters after the [#]) gets the locator name [x] followed by
    [Locator], whatever else the selector holds. *)
Theorem id_token_locator_name (pre x post : string) :
  (forall p c rest, pre = p ++ String "#" (String c rest) ->
                    Chars.is_name_char c = false) ->
  Spec.nonempty x = true ->
  Str.forallb Chars.is_name_char x = true ->
  (forall c t, post = String c t -> Chars.is_name_char c = false) ->
  deriveLocatorName (pre ++ "#" ++ x ++ post) = x ++ "Locator".
Proof.
  intros Hpre Hx Hrun Hpost. unfold deriveLocatorName, Regex.id_pattern.
  rewrite search_token_pattern.
  change ("#" ++ x ++ post) with (String "#" (x ++ post)).
  rewrite first_token_app; try assumption; [reflexivity | reflexivity |].
  now apply first_token_complete.
Qed.

Lemma id_token_locator_name_witness :
  deriveLocatorName ("form.login " ++ "#" ++ "user-name" ++ "[type=text]")
  = "user-name" ++ "Locator".
Proof.
  apply (id_token_locator_name "form.login " "user-name" "[type=text]").
  - apply (first_token_complete "#"). reflexivity.
  - reflexivity.
  - reflexivity.
  - now intros c t [= <- _].
Defined.

Lemma no_mark_no_token (mark : ascii) (s : string) :
  Str.forallb (fun c => negb (Chars.eqc mark c)) s = true ->
  Spec.first_token mark s = None.
Proof.
  induction s as [|c s IH]; [reflexivity|].
  cbn [Str.forallb Spec.first_token]. intros H. apply andb_prop in H as [Hc Hs].
  apply negb_true_iff in Hc. rewrite Hc. cbn [andb]. now apply IH.
Qed.

Lemma no_bracket_no_data_attribute (s : string) :
  Str.forallb (fun c => negb (Chars.eqc "[" c)) s = true ->
  Spec.first_data_attribute s = None.
Proof.
  induction s as [|c s IH]; [reflexivity|].
  cbn [Str.forallb]. intros H. apply andb_prop in H as [Hc Hs].
  apply negb_true_iff in Hc.
  cbn [Spec.first_data_attribute]. unfold Spec.data_attribute_here.
  change (Spec.strip_prefix "[data-" (String c s))
    with (if Chars.eqc "[" c then Spec.strip_prefix "data-" s else None).
  rewrite Hc. now apply IH.
Qed.

(** X13. A selector without [#] and without [[] is named after its first
    class token, and when it has no [.] either its name is
    [elementLocator]: all selectors made of a tag name share that one
    name. *)
Theorem class_or_element_locator_name (s : string) :
  Str.forallb (fun c => negb (Chars.eqc "#" c)) s = true ->
  Str.forallb (fun c => negb (Chars.eqc "[" c)) s = true ->
  (forall pre x post,
     s = pre ++ "." ++ x ++ post ->
     (forall p c rest, pre = p ++ String "." (String c rest) ->
                       Chars.is_name_char c = false) ->
     Spec.nonempty x = true ->
     Str.forallb Chars.is_name_char x = true ->
     (forall c t, post = String c t -> Chars.is_name_char c = false) ->
     deriveLocatorName s = x ++ "Locator")
  /\ (Str.forallb (fun c => negb (Chars.eqc "." c)) s = true ->
      deriveLocatorName s = "elementLocator").
Proof.
  intros Hid Hdata.
  assert (deriveLocatorName s
          = match Spec.first_token "." s with
            | Some c => c ++ "Locator"
            | None => "elementLocator"
            end) as Hname.
  { unfold deriveLocatorName, Regex.id_pattern, Regex.class_pattern.
    rewrite !search_token_pattern, search_data_pattern.
    now rewrite (no_mark_no_token "#" s Hid), (no_bracket_no_data_attribute s Hdata). }
  split.
  - intros pre x post Hs Hpre Hx Hrun Hpost. rewrite Hname, Hs.
    change ("." ++ x ++ post) with (String "." (x ++ post)).
    rewrite first_token_app; try assumption; [reflexivity | reflexivity |].
    now apply first_token_complete.
  - intros Hclass. rewrite Hname. now rewrite (no_mark_no_token "." s Hclass).
Qed.

Lemma class_or_element_locator_name_witness :
  deriveLocatorName "button" = "elementLocator"
  /\ deriveLocatorName "select" = "elementLocator".
Proof.
  split.
  - apply (proj2 (class_or_element_locator_name "button" eq_refl eq_refl)).
    reflexivity.
  - apply (proj2 (class_or_element_locator_name "select" eq_refl eq_refl)).
    reflexivity.
Defined.

(** X14. What the data-attribute pattern of [deriveLocatorName] matches: a
    value it captures is the value of a text [[data-], attribute name, [=],
    optional quote, value, optional quote, []] of the selector, with a
    non-empty attribute name free of [=] and a non-empty value free of
    quotes and of []]; and it matches every selector that holds such a
    text. The two quotes need not be the same, nor both be there. *)
Theorem data_pattern_matches (s : string) :
  (forall v, Regex.search Regex.data_pattern s = Some v ->
     exists pre text post, s = pre ++ text ++ post /\ data_attribute_shape text v)
  /\ (forall pre text post v,
        s = pre ++ text ++ post -> data_attribute_shape text v ->
        Regex.search Regex.data_pattern s <> None).
Proof.
  rewrite search_data_pattern. split.
  - intros v. apply first_data_attribute_sound.
  - intros pre text post v ->. apply first_data_attribute_complete.
Qed.

(** A value between a single and a double quote is matched too. *)
Example data_pattern_mixed_quotes :
  Regex.search Regex.data_pattern
    ("[data-test='go" ++ String Chars.DQUOTE "]")
  = Some "go".
Proof. vm_compute. reflexivity. Qed.

(** ** The prefix of the file name *)

Lemma file_char_sanitized (c : ascii) :
  Chars.is_file_char c = true -> Spec.sanitize_char c = c.
Proof.
  destruct c as [[] [] [] [] [] [] [] []]; vm_compute; intros H;
    first [reflexivity | discriminate].
Qed.

Lemma sanitized_fixed (prefix : string) :
  Str.forallb Chars.is_file_char prefix = true ->
  Str.map Spec.sanitize_char prefix = prefix.
Proof.
  induction prefix as [|c prefix IH]; [reflexivity|].
  cbn [Str.map Str.forallb]. intros H. apply andb_prop in H as [Hc Hs].
  now rewrite (file_char_sanitized c Hc), (IH Hs).
Qed.

Lemma sanitized_range (prefix : string) :
  Str.forallb Chars.is_file_char (Str.map Spec.sanitize_char prefix) = true.
Proof.
  induction prefix as [|c prefix IH]; [reflexivity|].
  cbn [Str.map Str.forallb]. now rewrite sanitize_char_range, IH.
Qed.

(** X15. The prefix of the file name, [testNamePrefix] in lower case with
    the other characters replaced, is made of characters in [[a-z0-9_]]
    only, whatever [testNamePrefix] holds; a prefix that is already made of
    such characters is kept as it is, so that the sanitized prefix is its
    own sanitized form. *)
Theorem sanitized_prefix_shape (prefix : string) :
  let sanitizedPrefix := Str.replace_non_file_chars (Str.toLowerCase prefix) in
  Str.forallb Chars.is_file_char sanitizedPrefix = true
  /\ Str.replace_non_file_chars (Str.toLowerCase sanitizedPrefix) = sanitizedPrefix
  /\ (Str.forallb Chars.is_file_char prefix = true -> sanitizedPrefix = prefix).
Proof.
  cbv zeta. rewrite !sanitized_prefix. split; [|split].
  - apply sanitized_range.
  - apply sanitized_fixed, sanitized_range.
  - apply sanitized_fixed.
Qed.

Lemma sanitized_prefix_shape_witness :
  Str.replace_non_file_chars (Str.toLowerCase "mcp_e2e") = "mcp_e2e".
Proof.
  apply (proj2 (proj2 (sanitized_prefix_shape "mcp_e2e"))). reflexivity.
Defined.

(** ** Options that are not read *)

(** X16. The [includeComments] option is validated and stored, and never
    read: two generators that differ in it only return the same result for
    every session. *)
Theorem includeComments_ignored (cwd : string) (this other : PlaywrightGenerator)
    (session : Types.session_value) :
  Required.outputPath (options this) = Required.outputPath (options other) ->
  Required.testNamePrefix (options this) = Required.testNamePrefix (options other) ->
  Required.language (options this) = Required.language (options other) ->
  Required.template (options this) = Required.template (options other) ->
  generateTest cwd this session = generateTest cwd other session.
Proof.
  destruct this as [[op pre ic lang tpl]], other as [[op' pre' ic' lang' tpl']].
  cbn [options Required.outputPath Required.testNamePrefix Required.language
       Required.template].
  intros <- <- <- <-. reflexivity.
Qed.

Lemma includeComments_ignored_witness :
  generateTest "/work" default_generator (Types.SessionObject sample_session)
  = generateTest "/work"
      {| options := spread {| Types.outputPath := None;
                              Types.testNamePrefix := None;
                              Types.includeComments := Some (JBool false);
                              Types.language := None;
                              Types.template := None |} |}
      (Types.SessionObject sample_session).
Proof.
  apply (includeComments_ignored "/work" default_generator); reflexivity.
Defined.

(** X17. With the plain template the [language] option is not read either:
    the result for [javascript] is the one for [typescript], a file named
    [.spec.ts] with the same code and no other file. *)
Theorem plain_template_ignores_language (cwd : string)
    (this other : PlaywrightGenerator) (session : Types.session_value) :
  Required.outputPath (options this) = Required.outputPath (options other) ->
  Required.testNamePrefix (options this) = Required.testNamePrefix (options other) ->
  Js.is_str "pom" (Required.template (options this)) = false ->
  Js.is_str "pom" (Required.template (options other)) = false ->
  generateTest cwd this session = generateTest cwd other session.
Proof.
  destruct this as [[op pre ic lang tpl]], other as [[op' pre' ic' lang' tpl']].
  cbn [options Required.outputPath Required.testNamePrefix Required.template].
  intros <- <- Htpl Htpl'.
  destruct session as [session|v]; [|reflexivity].
  unfold generateTest, bind.
  cbn [options Required.template]. rewrite Htpl, Htpl'. reflexivity.
Qed.

Lemma plain_template_ignores_language_witness :
  generateTest "/work"
    {| options := spread (with_options None None (Some (JStr "typescript"))
                            (Some (JStr "plain"))) |}
    (Types.SessionObject sample_session)
  = generateTest "/work"
      {| options := spread (with_options None None (Some (JStr "javascript"))
                              (Some (JStr "plain"))) |}
      (Types.SessionObject sample_session).
Proof.
  apply (plain_template_ignores_language "/work"); reflexivity.
Defined.

(** * The files of the page-object template *)

(** Every selector that the session records has its locator name in the
    map. *)
Lemma collect_selectors_covers (l : list Types.CodegenAction)
    (selectors : list (string * string)) (a : Types.CodegenAction) (s : string) :
  In a l -> recorded_selector a = Some s ->
  In (deriveLocatorName s) (List.map fst (collect_selectors l selectors)).
Proof.
  revert selectors. induction l as [|b l IH]; intros selectors [].
  - subst b. intros Ha. rewrite collect_selectors_cons, Ha.
    destruct (has selectors (deriveLocatorName s)) eqn:Hhas.
    + destruct (collect_selectors_grows l selectors) as [added ->].
      rewrite map_app. apply in_or_app. left. now apply has_iff.
    + destruct (collect_selectors_grows l (selectors ++ [(deriveLocatorName s, s)])%list)
        as [added ->].
      rewrite !map_app. apply in_or_app. left. apply in_or_app. right. now left.
  - intros Ha. rewrite collect_selectors_cons.
    destruct (recorded_selector b) as [s'|]; [|now apply IH].
    destruct (has selectors (deriveLocatorName s')); now apply IH.
Qed.

Lemma generatePageObject_source (cwd : string) (this : PlaywrightGenerator)
    (session : Types.CodegenSession) (pageObject : Types.GeneratedFile) :
  generatePageObject cwd this session = Ok pageObject ->
  page_object_source session (Types.content pageObject).
Proof.
  intros Hpo. rewrite (generatePageObject_content cwd this session pageObject Hpo).
  split; [|split].
  - apply contains_app_l.
    destruct (Js.is_str "typescript" _); unfold pageClassHeader_ts, pageClassHeader_js;
      find_fragment.
  - apply contains_app_l.
    destruct (Js.is_str "typescript" _); unfold pageClassHeader_ts, pageClassHeader_js;
      find_fragment.
  - intros a s Ha Hs.
    pose proof (collect_selectors_covers _ [] a s Ha Hs) as Hin.
    apply in_map_iff in Hin as ([key first] & Hkey & Hin). cbn [fst] in Hkey. subst key.
    exists first. apply contains_app_r, contains_app_r, contains_app_l.
    apply contains_join.
    apply (in_map (fun e => "  " ++ fst e ++ " = '" ++ snd e ++ "';")
             _ (deriveLocatorName s, first)).
    exact Hin.
Qed.

Lemma generatePlaywrightConfig_configuration (cwd : string) (this : PlaywrightGenerator)
    (outputPath : string) (config : Types.GeneratedFile) :
  Required.outputPath (options this) = JStr outputPath ->
  generatePlaywrightConfig cwd this = Ok (Some config) ->
  run_configuration (Str.replace_backslashes outputPath) (Types.content config).
Proof.
  intros Eop Hcfg. unfold generatePlaywrightConfig, bind in Hcfg.
  rewrite Eop in Hcfg.
  destruct (Path.resolve cwd _) as [p|]; [|discriminate].
  injection Hcfg as <-. cbv beta iota delta [Types.content].
  generalize (Str.replace_backslashes outputPath). intros testDir.
  split; find_fragment.
Qed.

(** A generator that the constructor returns for a [testNamePrefix] that is
    [null], with the template [pom] of the defaults, fails on the sample
    session, which is valid: no files are returned. *)
Lemma null_prefix_no_files :
  exists this,
    constructor (with_options None (Some JNull) None None) = Ok this
    /\ Required.template (options this) = JStr "pom"
    /\ Spec.valid_session sample_session
    /\ generateTest "/work" this (Types.SessionObject sample_session)
       = Err (TypeError "testNamePrefix.toLowerCase is not a function").
Proof.
  eexists. split; [reflexivity|]. split; [reflexivity|].
  split; [exact sample_session_valid|]. vm_compute. reflexivity.
Qed.

(** C7, for a generator whose path and prefix options are strings. For a
    valid session, with the template [pom] the result holds exactly two
    files. The first is the page object: its path is
    outputPath/pages/AppPage.ext, ext being [ts] for typescript and [js] for
    javascript, and its content is the source of the class [AppPage] with a
    locator for every recorded selector. The second is the run
    configuration, whose content sets the test directory to [outputPath].
    With the template [plain], [files] is undefined. *)
Theorem generated_files (cwd : string) (this : PlaywrightGenerator)
    (session : Types.CodegenSession) :
  Spec.string_options this ->
  Spec.valid_session session ->
  exists r ext,
    generateTest cwd this (Types.SessionObject session) = Ok r
    /\ (Required.language (options this) = JStr "typescript" -> ext = "ts")
    /\ (Required.language (options this) = JStr "javascript" -> ext = "js")
    /\ (Required.template (options this) = JStr "pom" ->
          exists pageObject config outputPath,
            Types.files r = Some [pageObject; config]
            /\ Required.outputPath (options this) = JStr outputPath
            /\ Path.resolve cwd [JStr outputPath; JStr "pages"; JStr ("AppPage." ++ ext)]
               = Ok (Types.path pageObject)
            /\ page_object_source session (Types.content pageObject)
            /\ Path.resolve cwd [JStr ("playwright.config." ++ ext)]
               = Ok (Types.path config)
            /\ run_configuration (Str.replace_backslashes outputPath)
                 (Types.content config))
    /\ (Required.template (options this) = JStr "plain" -> Types.files r = None).
Proof.
  intros Hopts Hvalid.
  destruct (generateTest_valid cwd this session Hopts Hvalid)
    as (tc & fp & po & cfg & _ & _ & Hpo & Hcfg & Hgen).
  eexists. exists (language_ext this). split; [exact Hgen|].
  split; [apply language_ext_ts|]. split; [apply language_ext_js|]. split.
  - intros Hpom. simpl. rewrite Hpom. simpl.
    destruct Hopts as [Hop _].
    destruct (Required.outputPath (options this)) as [| |?|?|outputPath] eqn:Eop;
      try discriminate.
    exists po, cfg, outputPath. split; [reflexivity|]. split; [reflexivity|].
    pose proof (generatePageObject_source cwd this session po Hpo) as Hsource.
    pose proof (generatePlaywrightConfig_configuration cwd this outputPath cfg Eop Hcfg)
      as Hconf.
    unfold generatePageObject, bind in Hpo. unfold generatePlaywrightConfig, bind in Hcfg.
    rewrite Eop in Hpo, Hcfg.
    destruct (Path.resolve cwd [_; _; _]) as [p|e]; [|discriminate].
    injection Hpo as <-. split; [reflexivity|]. split; [exact Hsource|].
    split; [|exact Hconf].
    cbv beta iota delta [Types.path]. unfold language_ext.
    destruct (Js.is_str "typescript" _);
      (destruct (Path.resolve cwd [_]) as [q|e]; [|discriminate]);
      injection Hcfg as <-; reflexivity.
  - intros Hplain. simpl. now rewrite Hplain.
Qed.

Lemma generated_files_witness :
  exists r pageObject config,
    generateTest "/work" default_generator (Types.SessionObject sample_session) = Ok r
    /\ Types.files r = Some [pageObject; config]
    /\ Path.resolve "/work" [JStr "tests"; JStr "pages"; JStr "AppPage.ts"]
       = Ok (Types.path pageObject)
    /\ page_object_source sample_session (Types.content pageObject)
    /\ Path.resolve "/work" [JStr "playwright.config.ts"] = Ok (Types.path config)
    /\ run_configuration "tests" (Types.content config).
Proof.
  destruct (generated_files "/work" default_generator sample_session
              default_string_options sample_session_valid)
    as (r & ext & Hgen & Hts & _ & Hpom & _).
  destruct (Hpom eq_refl) as (po & cfg & op & Hfiles & Eop & Hpath & Hsrc & Hcpath & Hconf).
  rewrite (Hts eq_refl) in Hpath, Hcpath.
  injection Eop as <-.
  exists r, po, cfg. repeat split; try assumption; apply Hsrc || apply Hconf.
Defined.

(** * Empty strings in the options, and where the files go *)

Lemma not_ill_typed_accepted (opts : Types.CodegenOptions) :
  Spec.ill_typed opts = false -> Spec.rejected opts = false.
Proof.
  unfold Spec.ill_typed, Spec.rejected, read. intros H.
  repeat (apply orb_false_elim in H as [H ?]).
  destruct opts as [op pre ic lang tpl].
  cbn [Types.outputPath Types.testNamePrefix Types.includeComments Types.language
       Types.template] in *.
  destruct op as [[| |?|?|op]|]; try discriminate;
    destruct pre as [[| |?|?|pre]|]; try discriminate;
    destruct ic as [[| |ic|?|?]|]; try discriminate;
    destruct lang as [[| |?|?|lang]|]; try discriminate;
    destruct tpl as [[| |?|?|tpl]|]; try discriminate;
    simpl in *;
    repeat match goal with
    | H : negb ?b = false |- _ => apply negb_false_iff in H
    | H : _ || _ = true |- _ => apply orb_prop in H as [H|H]
    end;
    repeat match goal with
    | H : String.eqb _ _ = true |- _ => rewrite H
    end;
    rewrite ?orb_true_r, ?andb_false_r; reflexivity.
Qed.

Lemma not_ill_typed_strings (opts : Types.CodegenOptions) :
  Spec.ill_typed opts = false -> Spec.string_options {| options := spread opts |}.
Proof.
  unfold Spec.ill_typed, Spec.string_options, spread. intros H.
  repeat (apply orb_false_elim in H as [H ?]).
  destruct opts as [op pre ic lang tpl].
  cbn [Types.outputPath Types.testNamePrefix options Required.outputPath
       Required.testNamePrefix] in *.
  destruct op as [[| |?|?|op]|]; try discriminate;
    destruct pre as [[| |?|?|pre]|]; try discriminate; split; reflexivity.
Qed.

Lemma not_ill_typed_set (opts : Types.CodegenOptions) (s : string) :
  Spec.ill_typed opts = false ->
  Spec.ill_typed (set_outputPath (Some (JStr s)) opts) = false
  /\ Spec.ill_typed (set_testNamePrefix (Some (JStr s)) opts) = false.
Proof.
  unfold Spec.ill_typed. intros H.
  repeat (apply orb_false_elim in H as [H ?]).
  destruct opts as [op pre ic lang tpl].
  cbn [Types.outputPath Types.testNamePrefix Types.includeComments Types.language
       Types.template set_outputPath set_testNamePrefix] in *.
  split;
    repeat match goal with
    | H : _ = false |- _ => rewrite H; clear H
    end; reflexivity.
Qed.

Lemma length_app_s (a b : string) :
  String.length (a ++ b) = (String.length a + String.length b)%nat.
Proof.
  induction a as [|c a IH]; [reflexivity|].
  rewrite app_cons_s. cbn [String.length]. now rewrite IH.
Qed.

Lemma child_length (dir name : string) :
  (String.length dir + String.length name <= String.length (child dir name)
   <= S (String.length dir + String.length name))%nat.
Proof.
  unfold child. destruct (String.eqb dir "/"); rewrite !length_app_s;
    cbn [String.length]; lia.
Qed.

(** A file directly in [dir] is not the file of that name in the directory
    [tests] of [dir]. *)
Lemma child_tests_differs (dir name : string) :
  child dir name <> child (child dir "tests") name.
Proof.
  intros Heq. apply (f_equal String.length) in Heq.
  pose proof (child_length dir name) as Hshort.
  pose proof (child_length dir "tests") as Htests. cbn [String.length] in Htests.
  unfold child at 2 in Heq.
  destruct (String.eqb_spec (child dir "tests") "/") as [Hroot|_].
  - rewrite Hroot in Htests. cbn [String.length] in Htests. lia.
  - rewrite !length_app_s in Heq. cbn [String.length] in Heq. lia.
Qed.

(** C10. The constructor returns a generator for an options object whose
    [outputPath] or [testNamePrefix] is the empty string, the other fields
    being of their types (the field is checked only when truthy), and the
    empty string overrides the default in the options of that generator. A
    generator built with [outputPath] empty resolves every generated path
    without a directory of its own: the test file, the page object under
    [pages] and the run configuration are resolved from the working
    directory, the run configuration names the empty test directory, and
    from an absolute working directory the test file sits directly in it,
    not in its directory [tests]. *)
Theorem empty_string_options (opts : Types.CodegenOptions) :
  Spec.ill_typed opts = false ->
  exists this this',
    constructor (set_outputPath (Some (JStr EmptyString)) opts) = Ok this
    /\ constructor (set_testNamePrefix (Some (JStr EmptyString)) opts) = Ok this'
    /\ Required.outputPath (options this) = JStr EmptyString
    /\ Required.outputPath (options this) <> Required.outputPath DEFAULT_OPTIONS
    /\ Required.testNamePrefix (options this') = JStr EmptyString
    /\ Required.testNamePrefix (options this')
       <> Required.testNamePrefix DEFAULT_OPTIONS
    /\ forall cwd session, Spec.valid_session session ->
         exists r prefix,
           generateTest cwd this (Types.SessionObject session) = Ok r
           /\ Required.testNamePrefix (options this) = JStr prefix
           /\ Path.resolve cwd
                [JStr (Spec.test_file_name prefix (Js.ToString (Types.id session)))]
              = Ok (Types.filePath r)
           /\ (Required.template (options this) = JStr "pom" ->
               exists pageObject config,
                 Types.files r = Some [pageObject; config]
                 /\ Path.resolve cwd [JStr "pages"; JStr ("AppPage." ++ language_ext this)]
                    = Ok (Types.path pageObject)
                 /\ Path.resolve cwd [JStr ("playwright.config." ++ language_ext this)]
                    = Ok (Types.path config)
                 /\ run_configuration EmptyString (Types.content config))
           /\ (forall dir,
                 Path.is_absolute cwd = true ->
                 Path.resolve cwd [] = Ok dir ->
                 slash_free (Js.ToString (Types.id session)) = true ->
                 let fileName :=
                   Spec.test_file_name prefix (Js.ToString (Types.id session)) in
                 Types.filePath r = child dir fileName
                 /\ Types.filePath r <> child (child dir "tests") fileName
                 /\ (forall pageObject rest,
                       Types.files r = Some (pageObject :: rest) ->
                       Types.path pageObject
                       = child (child dir "pages") ("AppPage." ++ language_ext this))).
Proof.
  intros Htyped.
  destruct (not_ill_typed_set opts EmptyString Htyped) as [Hpath Hprefix].
  exists {| options := spread (set_outputPath (Some (JStr EmptyString)) opts) |},
         {| options := spread (set_testNamePrefix (Some (JStr EmptyString)) opts) |}.
  split; [now apply constructor_ok_iff, not_ill_typed_accepted|].
  split; [now apply constructor_ok_iff, not_ill_typed_accepted|].
  split; [reflexivity|]. split; [discriminate|].
  split; [reflexivity|]. split; [discriminate|].
  intros cwd session Hvalid.
  pose proof (not_ill_typed_strings _ Hpath) as Hopts.
  set (this := {| options := spread (set_outputPath (Some (JStr EmptyString)) opts) |})
    in *.
  assert (Required.outputPath (options this) = JStr EmptyString) as Eop by reflexivity.
  destruct (generateTest_valid cwd this session Hopts Hvalid)
    as (tc & fp & po & cfg & _ & Hfp & Hpo & Hcfg & Hgen).
  destruct Hopts as [_ Hpre].
  destruct (Required.testNamePrefix (options this)) as [| |?|?|prefix] eqn:Epre;
    try discriminate.
  destruct Hvalid as (_ & Hid & _).
  assert (Path.resolve cwd
            [JStr (Spec.test_file_name prefix (Js.ToString (Types.id session)))]
          = Ok fp) as Hfile.
  { unfold getOutputFilePath, bind in Hfp. rewrite Hid, Eop, Epre in Hfp.
    cbn [negb] in Hfp. rewrite sanitized_prefix, resolve_empty_first in Hfp.
    exact Hfp. }
  assert (Path.resolve cwd [JStr "pages"; JStr ("AppPage." ++ language_ext this)]
          = Ok (Types.path po)) as Hpage.
  { unfold generatePageObject, bind in Hpo. rewrite Eop, resolve_empty_first in Hpo.
    destruct (Path.resolve cwd _) as [p|]; [|discriminate].
    now injection Hpo as <-. }
  eexists. exists prefix. split; [exact Hgen|]. split; [reflexivity|].
  cbn [Types.filePath Types.files]. split; [exact Hfile|]. split.
  - intros Hpom. rewrite Hpom. cbn [Js.is_str String.eqb Ascii.eqb Bool.eqb].
    exists po, cfg. split; [reflexivity|]. split; [exact Hpage|].
    split; [|exact (generatePlaywrightConfig_configuration cwd this _ cfg Eop Hcfg)].
    unfold generatePlaywrightConfig, bind in Hcfg. rewrite Eop in Hcfg.
    unfold language_ext.
    destruct (Js.is_str "typescript" _);
      (destruct (Path.resolve cwd [_]) as [q|]; [|discriminate]);
      now injection Hcfg as <-.
  - intros dir Hcwd Hdir Hfree.
    pose proof (resolve_child cwd [] _ dir Hcwd
                  (test_file_name_regular prefix _ Hfree) Hdir) as Hchild.
    cbn [app] in Hchild. rewrite Hfile in Hchild.
    injection Hchild as ->. split; [reflexivity|].
    split; [apply child_tests_differs|].
    intros pageObject rest Hfiles.
    destruct (Js.is_str "pom" _); [|discriminate]. injection Hfiles as <- _.
    pose proof (resolve_child cwd [] "pages" dir Hcwd eq_refl Hdir) as Hpages.
    assert (regular_name ("AppPage." ++ language_ext this) = true) as Hname
      by (unfold language_ext; now destruct (Js.is_str "typescript" _)).
    pose proof (resolve_child cwd _ _ _ Hcwd Hname Hpages) as Hpath'.
    cbn [app] in Hpath'. rewrite Hpage in Hpath'. now injection Hpath' as ->.
Qed.

Lemma empty_string_options_witness :
  exists this r,
    constructor (set_outputPath (Some (JStr EmptyString)) no_options) = Ok this
    /\ generateTest "/work" this (Types.SessionObject sample_session) = Ok r
    /\ Types.filePath r = child "/work" (Spec.test_file_name "MCP" "abc123")
    /\ Types.filePath r
       <> child (child "/work" "tests") (Spec.test_file_name "MCP" "abc123").
Proof.
  destruct (empty_string_options no_options eq_refl)
    as (this & this' & Hthis & _ & _ & _ & _ & _ & Hpaths).
  destruct (Hpaths "/work" sample_session sample_session_valid)
    as (r & prefix & Hgen & Epre & _ & _ & Hdir).
  injection Hthis as Hthis. rewrite <- Hthis in Epre.
  injection Epre as <-.
  destruct (Hdir "/work" eq_refl eq_refl eq_refl) as (Hfile & Hnot & _).
  exists this, r. subst this. repeat split; assumption.
Defined.
